(** * Super Notation v1: canonicalisation, signing, parsing and rendering

    A shallow embedding of [sn_signing.py] and [sn_parser.py].

    Representation.  A Python [bytes] value is a list of 8-bit characters.
    A Python [str] value is represented by the bytes of its UTF-8 encoding:
    every delimiter and keyword the program looks for is ASCII, and an ASCII
    byte never occurs inside a multi-byte UTF-8 sequence, so [split], [join],
    [startswith], [replace], slicing after a matched ASCII keyword and
    [html.escape] act on the encoding as they act on the text.  Files are
    taken to hold well-formed UTF-8, so reading one in text mode decodes
    nothing away.  [str.strip], [str.lower] and the white space and the
    case-insensitive letters of [re] are transcribed on the ASCII range
    (white space U+0009..U+000D, U+001C..U+0020; letters A..Z);
    [bytes.strip] and [bytes.lower] are ASCII-only in Python itself.

    Scope.  On a text of ASCII characters ([ascii_text]) the transcription
    is exact: the text is its own UTF-8 encoding, decoding cannot fail or
    drop anything, and the only white space and the only letters with
    another case are those of the ASCII range.  Beyond ASCII, Python
    strips further white space (U+0085, U+00A0, U+2000..U+200A, ...),
    folds further letters (U+212A, U+017F, U+0130), raises
    [UnicodeDecodeError] in [sign_file] and [unsign_file] on content that
    is not UTF-8 and drops undecodable bytes where it opens or decodes with
    [errors='ignore'].  A statement whose truth depends on one of these
    text operations therefore carries the hypothesis [ascii_text] on the
    content or on the lines concerned; the statements on [canonical_bytes]
    and on the bytes tests, which Python runs on bytes, need none.

    An operation on a file takes the bytes stored at [filepath]; an
    operation that rewrites the file returns the new bytes. *)

From Stdlib Require Import String.
From Stdlib Require Import List Ascii NArith Bool Arith Lia.
Import ListNotations.
Open Scope string_scope.
Open Scope list_scope.

Set Implicit Arguments.

(** ** Characters, bytes and text *)

Definition bytes := list ascii.
Definition str := list ascii.

Definition lit (s : string) : list ascii := list_ascii_of_string s.
Arguments lit s%_string.

Definition chr (n : N) : ascii := ascii_of_N n.
Definition ord (c : ascii) : N := N_of_ascii c.

Definition LF : ascii := chr 10.
Definition CR : ascii := chr 13.
Definition NUL : ascii := chr 0.

(** [bytes.isspace]: space, \t, \n, \r, \x0b, \f. *)
Definition bytes_isspace (c : ascii) : bool :=
  let n := ord c in ((9 <=? n) && (n <=? 13) || (n =? 32))%N.

(** [str.isspace] on the ASCII range: the six above and the separators
    \x1c..\x1f.  Python knows more white space beyond ASCII; what uses
    this test is exact on [ascii_text]. *)
Definition str_isspace (c : ascii) : bool :=
  let n := ord c in ((9 <=? n) && (n <=? 13) || (28 <=? n) && (n <=? 32))%N.

(** [c.lower()] for one ASCII character: all of [bytes.lower], and
    [str.lower] on [ascii_text]. *)
Definition lower_char (c : ascii) : ascii :=
  let n := ord c in
  if ((65 <=? n) && (n <=? 90))%N then chr (n + 32) else c.

Definition lower (s : list ascii) : list ascii := map lower_char s.

Fixpoint dropwhile (p : ascii -> bool) (s : list ascii) : list ascii :=
  match s with
  | [] => []
  | c :: r => if p c then dropwhile p r else s
  end.

Fixpoint takewhile (p : ascii -> bool) (s : list ascii) : list ascii :=
  match s with
  | [] => []
  | c :: r => if p c then c :: takewhile p r else []
  end.

Definition lstrip_by (p : ascii -> bool) (s : list ascii) := dropwhile p s.
Definition rstrip_by (p : ascii -> bool) (s : list ascii) :=
  rev (dropwhile p (rev s)).
Definition strip_by (p : ascii -> bool) (s : list ascii) :=
  rstrip_by p (lstrip_by p s).

Definition bytes_lstrip := lstrip_by bytes_isspace.
Definition bytes_strip := strip_by bytes_isspace.
Definition lstrip := lstrip_by str_isspace.
Definition strip := strip_by str_isspace.

(** A text of ASCII characters only, the scope of the transcription of
    the text operations: [all(ord(c) < 128 for c in s)]. *)
Definition is_ascii (c : ascii) : bool := (ord c <? 128)%N.
Definition ascii_text (s : list ascii) : bool := forallb is_ascii s.

Fixpoint list_eqb (a b : list ascii) : bool :=
  match a, b with
  | [], [] => true
  | x :: a', y :: b' => Ascii.eqb x y && list_eqb a' b'
  | _, _ => false
  end.

(** [s.startswith(p)] *)
Fixpoint startswith (p s : list ascii) : bool :=
  match p, s with
  | [], _ => true
  | x :: p', y :: s' => Ascii.eqb x y && startswith p' s'
  | _ :: _, [] => false
  end.

(** [c in s] *)
Definition contains_char (c : ascii) (s : list ascii) : bool :=
  existsb (Ascii.eqb c) s.

(** [needle in s] for a substring. *)
Fixpoint contains (needle s : list ascii) : bool :=
  startswith needle s ||
  match s with
  | [] => false
  | _ :: r => contains needle r
  end.

(** [s.split(sep)] for a one-character separator: never an empty list. *)
Fixpoint split (sep : ascii) (s : list ascii) : list (list ascii) :=
  match s with
  | [] => [[]]
  | c :: r =>
      if Ascii.eqb c sep then [] :: split sep r
      else match split sep r with
           | [] => [[c]]
           | l :: ls => (c :: l) :: ls
           end
  end.

(** [sep.join(parts)] for a one-character separator. *)
Fixpoint join (sep : ascii) (parts : list (list ascii)) : list ascii :=
  match parts with
  | [] => []
  | [l] => l
  | l :: rest => l ++ sep :: join sep rest
  end.

(** [s.split(sep, 1)] when [sep] occurs in [s]: the text before the first
    occurrence and the text after it. *)
Definition split_once (sep : ascii) (s : list ascii) : list ascii * list ascii :=
  (takewhile (fun c => negb (Ascii.eqb c sep)) s,
   tl (dropwhile (fun c => negb (Ascii.eqb c sep)) s)).

(** Left-to-right, non-overlapping rewriting, the scan shared by
    [bytes.replace], [str.replace] and [re.sub]: [m] looks for a match at
    the head of the remaining text and answers with the replacement and the
    (positive) number of characters matched; [skip] counts characters of
    the current match still to be passed over. *)
Fixpoint rewrite_scan (m : list ascii -> option (list ascii * nat))
         (skip : nat) (s : list ascii) : list ascii :=
  match s with
  | [] => []
  | c :: r =>
      match skip with
      | S k => rewrite_scan m k r
      | O =>
          match m s with
          | Some (out, n) => out ++ rewrite_scan m (pred n) r
          | None => c :: rewrite_scan m 0 r
          end
      end
  end.

(** [s.replace(old, new)] for a non-empty [old]. *)
Definition replace (old new s : list ascii) : list ascii :=
  rewrite_scan
    (fun t => if startswith old t then Some (new, length old) else None) 0 s.

(** [s.upper()] on the ASCII range. *)
Definition upper_char (c : ascii) : ascii :=
  let n := ord c in
  if ((97 <=? n) && (n <=? 122))%N then chr (n - 32) else c.

Definition upper (s : list ascii) : list ascii := map upper_char s.

(** ** SHA-256

    [hashlib.sha256(data).hexdigest()], written out from FIPS 180-4 on
    32-bit words held in [N]. *)

Module SHA256.
Local Open Scope N_scope.

Definition w32 (x : N) : N := x mod 4294967296.
Definition add32 (x y : N) : N := w32 (x + y).
Definition rotr (n x : N) : N :=
  N.lor (N.shiftr x n) (w32 (N.shiftl x (32 - n))).
Definition shr (n x : N) : N := N.shiftr x n.
Definition not32 (x : N) : N := N.lxor x 4294967295.

Definition Ch (x y z : N) : N := N.lxor (N.land x y) (N.land (not32 x) z).
Definition Maj (x y z : N) : N :=
  N.lxor (N.lxor (N.land x y) (N.land x z)) (N.land y z).
Definition Sigma0 (x : N) : N :=
  N.lxor (N.lxor (rotr 2 x) (rotr 13 x)) (rotr 22 x).
Definition Sigma1 (x : N) : N :=
  N.lxor (N.lxor (rotr 6 x) (rotr 11 x)) (rotr 25 x).
Definition sigma0 (x : N) : N :=
  N.lxor (N.lxor (rotr 7 x) (rotr 18 x)) (shr 3 x).
Definition sigma1 (x : N) : N :=
  N.lxor (N.lxor (rotr 17 x) (rotr 19 x)) (shr 10 x).

(** The first sixty-four primes. *)
Definition primes : list N :=
  [ 2; 3; 5; 7; 11; 13; 17; 19; 23; 29; 31; 37; 41; 43; 47; 53;
    59; 61; 67; 71; 73; 79; 83; 89; 97; 101; 103; 107; 109; 113; 127; 131;
    137; 139; 149; 151; 157; 163; 167; 173; 179; 181; 191; 193; 197; 199;
    211; 223; 227; 229; 233; 239; 241; 251; 257; 263; 269; 271; 277; 281;
    283; 293; 307; 311 ].

(** The integer cube root, one bit at a time from bit [bits - 1] down. *)
Fixpoint cube_root (bits : nat) (n r : N) : N :=
  match bits with
  | O => r
  | S b =>
      let r' := r + 2 ^ N.of_nat b in
      if r' * r' * r' <=? n then cube_root b n r' else cube_root b n r
  end.

(** The round constants: the first thirty-two bits of the fractional
    parts of the cube roots of the primes. *)
Definition K : list N :=
  Eval vm_compute in
    map (fun p => w32 (cube_root 40 (p * 2 ^ 96) 0)) primes.

(** The initial hash value: the first thirty-two bits of the fractional
    parts of the square roots of the first eight primes. *)
Definition H0 : list N :=
  Eval vm_compute in
    map (fun p => w32 (N.sqrt (p * 2 ^ 64))) (firstn 8 primes).

(** Big-endian bytes of a number, [n] of them. *)
Fixpoint be_bytes (n : nat) (x : N) : list N :=
  match n with
  | O => []
  | S k => be_bytes k (x / 256) ++ [x mod 256]
  end.

(** Padding: the byte 0x80, zero bytes up to 56 modulo 64, and the length
    of the message in bits on eight bytes. *)
Definition pad (msg : list N) : list N :=
  let len := List.length msg in
  msg ++ 128 :: repeat 0 ((119 - len mod 64) mod 64)%nat
      ++ be_bytes 8 (8 * N.of_nat len).

Fixpoint words (bs : list N) : list N :=
  match bs with
  | a :: b :: c :: d :: r =>
      (a * 16777216 + b * 65536 + c * 256 + d) :: words r
  | _ => []
  end.

Fixpoint blocks (fuel : nat) (ws : list N) : list (list N) :=
  match fuel, ws with
  | S f, _ :: _ => firstn 16 ws :: blocks f (skipn 16 ws)
  | _, _ => []
  end.

(** The message schedule: sixteen words extended to sixty-four. *)
Fixpoint schedule (n : nat) (ws : list N) : list N :=
  match n with
  | O => ws
  | S k =>
      let t := List.length ws in
      let at_ i := nth (t - i) ws 0 in
      schedule k
        (ws ++ [add32 (add32 (sigma1 (at_ 2%nat)) (at_ 7%nat))
                      (add32 (sigma0 (at_ 15%nat)) (at_ 16%nat))])
  end.

Record regs := Regs { ra : N; rb : N; rc : N; rd : N;
                      re : N; rf : N; rg : N; rh : N }.

Definition round (s : regs) (kw : N * N) : regs :=
  let t1 := add32 (add32 (add32 (rh s) (Sigma1 (re s)))
                         (add32 (Ch (re s) (rf s) (rg s)) (fst kw)))
                  (snd kw) in
  let t2 := add32 (Sigma0 (ra s)) (Maj (ra s) (rb s) (rc s)) in
  Regs (add32 t1 t2) (ra s) (rb s) (rc s)
       (add32 (rd s) t1) (re s) (rf s) (rg s).

Definition compress (h : regs) (block : list N) : regs :=
  let s := fold_left round (combine K (schedule 48 block)) h in
  Regs (add32 (ra h) (ra s)) (add32 (rb h) (rb s))
       (add32 (rc h) (rc s)) (add32 (rd h) (rd s))
       (add32 (re h) (re s)) (add32 (rf h) (rf s))
       (add32 (rg h) (rg s)) (add32 (rh h) (rh s)).

Definition init : regs :=
  Regs (nth 0 H0 0) (nth 1 H0 0) (nth 2 H0 0) (nth 3 H0 0)
       (nth 4 H0 0) (nth 5 H0 0) (nth 6 H0 0) (nth 7 H0 0).

Definition digest (data : bytes) : list N :=
  let ws := words (pad (map ord data)) in
  let h := fold_left compress (blocks (List.length ws) ws) init in
  flat_map (be_bytes 4)
    [ra h; rb h; rc h; rd h; re h; rf h; rg h; rh h].

Definition hex_digit (n : N) : ascii :=
  if n <? 10 then chr (48 + n) else chr (87 + n).

Definition hexdigest (data : bytes) : str :=
  flat_map (fun b => [hex_digit (b / 16); hex_digit (b mod 16)])
           (digest data).

End SHA256.

(** ** sn_signing.py *)

(** The UTF-8 byte-order mark EF BB BF. *)
Definition BOM : bytes := [chr 239; chr 187; chr 191].

(** [if content.startswith(BOM): content = content[3:]] *)
Definition strip_bom (content : bytes) : bytes :=
  if startswith BOM content then skipn 3 content else content.

(** [content.replace(b'\r\n', b'\n').replace(b'\r', b'\n')] *)
Definition normalize_newlines (content : bytes) : bytes :=
  replace [CR] [LF] (replace [CR; LF] [LF] content).

(** [line.lstrip().lower().startswith(b'sign:')] *)
Definition is_sign_line (line : bytes) : bool :=
  startswith (lit "sign:") (lower (bytes_lstrip line)).

(** The loop [for i, line in enumerate(lines)] of [canonical_bytes]: the
    index of the first signature line. *)
Fixpoint find_sign_line (i : nat) (lines : list bytes) : option nat :=
  match lines with
  | [] => None
  | line :: rest =>
      if is_sign_line line then Some i else find_sign_line (S i) rest
  end.

Definition canonical_bytes (content : bytes) : bytes :=
  let content := strip_bom content in
  let content := normalize_newlines content in
  let lines := split LF content in
  match find_sign_line 0 lines with
  | Some i => join LF (firstn i lines)
  | None => content
  end.

(** The loop of [extract_signature].  The matched line is decoded and cut
    at its first colon; a line is tried only while none before it
    returned.  The line is found by tests on bytes; its value is decoded
    and trimmed as text, which is exact when the line is [ascii_text]. *)
Fixpoint extract_signature_loop (lines : list bytes) : option str :=
  match lines with
  | [] => None
  | line :: rest =>
      let stripped := bytes_strip line in
      if startswith (lit "sign:") (lower stripped) then
        let sig_line : str := stripped in
        if contains_char ":" sig_line
        then Some (strip (snd (split_once ":" sig_line)))
        else extract_signature_loop rest
      else extract_signature_loop rest
  end.

Definition extract_signature (content : bytes) : option str :=
  let content := strip_bom content in
  let content := normalize_newlines content in
  extract_signature_loop (split LF content).

(** Reading a file opened with [open(filepath, 'r', encoding='utf-8')]:
    universal newlines turn CRLF and CR into LF. *)
Definition read_text (content : bytes) : str :=
  replace [CR] [LF] (replace [CR; LF] [LF] content).

(** [for line in f]: the lines of a text, each with its terminator. *)
Fixpoint readlines (s : str) : list str :=
  match s with
  | [] => []
  | c :: r =>
      if Ascii.eqb c LF then [c] :: readlines r
      else match readlines r with
           | [] => [[c]]
           | l :: ls => (c :: l) :: ls
           end
  end.

(** [has_close_marker]: the file is read in text mode, line by line;
    exact on [ascii_text], where nothing is undecodable. *)
Definition has_close_marker (content : bytes) : bool :=
  existsb (fun line => list_eqb (lower (strip line)) (lit "close:"))
          (readlines (read_text content)).

Definition compute_signature (content : bytes) : str :=
  let canonical := canonical_bytes content in
  let hex_digest := upper (SHA256.hexdigest canonical) in
  lit "SHA256-" ++ hex_digest.

(** U+2713 and U+2717, the check mark and the ballot cross of the
    messages. *)
Definition CHECK_MARK : str := [chr 226; chr 156; chr 147].
Definition BALLOT_X : str := [chr 226; chr 156; chr 151].

Definition msg_sealed (expected_sig : str) : str :=
  CHECK_MARK ++ lit " Signature valid and document is sealed: "
             ++ expected_sig.
Definition msg_unsealed (expected_sig : str) : str :=
  CHECK_MARK
    ++ lit " Signature valid (but document not sealed - missing close:): "
    ++ expected_sig.
Definition msg_mismatch (expected_sig existing_sig : str) : str :=
  BALLOT_X ++ lit " Signature mismatch!" ++ [LF] ++ lit "Expected: "
           ++ expected_sig ++ [LF] ++ lit "Found:    " ++ existing_sig.

Definition verify_signature (content : bytes) : bool * str :=
  match extract_signature content with
  | None => (false, lit "No signature found in file")
  | Some existing_sig =>
      let expected_sig := compute_signature content in
      if list_eqb existing_sig expected_sig then
        if has_close_marker content
        then (true, msg_sealed expected_sig)
        else (true, msg_unsealed expected_sig)
      else (false, msg_mismatch expected_sig existing_sig)
  end.

(** [stripped.startswith('sign:') or stripped == 'close:'] with
    [stripped = line.strip().lower()]. *)
Definition is_sign_or_close (line : str) : bool :=
  let stripped := lower (strip line) in
  startswith (lit "sign:") stripped || list_eqb stripped (lit "close:").

(** [while ls and ls[-1].strip() == '': ls.pop()], on the reversed list. *)
Fixpoint pop_blank (rev_lines : list str) : list str :=
  match rev_lines with
  | [] => []
  | l :: r =>
      if list_eqb (strip l) [] then pop_blank r else rev_lines
  end.

Definition drop_trailing_blank (lines : list str) : list str :=
  rev (pop_blank (rev lines)).

(** [sign_file]: the signature, and the bytes of the file afterwards.
    In place, Python reads the file as UTF-8 text after computing the
    signature and raises [UnicodeDecodeError], writing nothing, when the
    content does not decode; this is the outcome for a content that
    decodes, exact on [ascii_text]. *)
Definition sign_file (content : bytes) (in_place : bool) : str * bytes :=
  let signature := compute_signature content in
  if in_place then
    let text := read_text content in
    let lines := split LF text in
    let filtered_lines :=
      filter (fun line => negb (is_sign_or_close line)) lines in
    let filtered_lines := drop_trailing_blank filtered_lines in
    let filtered_lines :=
      filtered_lines ++ [[]; lit "sign: " ++ signature; lit "close:"] in
    (signature, join LF filtered_lines)
  else (signature, content).

(** [unsign_file]: whether something was removed, and the bytes of the
    file afterwards, for a content that decodes as UTF-8 (otherwise
    Python raises [UnicodeDecodeError]); exact on [ascii_text]. *)
Definition unsign_file (content : bytes) : bool * bytes :=
  let text := read_text content in
  let lines := split LF text in
  let filtered_lines :=
    filter (fun line => negb (is_sign_or_close line)) lines in
  let found_signature := existsb is_sign_or_close lines in
  if found_signature then
    (true, join LF (drop_trailing_blank filtered_lines))
  else (false, content).

(** A file given line by line: the lines joined by LF, so a last empty
    string stands for a final newline. *)
Definition file_of (lines : list string) : bytes := join LF (map lit lines).

(** ** sn_parser.py: the document model *)

Inductive ParseMode := LENIENT | STRICT.

Inductive ASTNode :=
| MetaNode (content : str)
| TitleNode (text : str)
| SectionDefNode (section_id : str)
| SectionLinkNode (section_id text : str)
| ParagraphNode (text : str)
| BreakLineNode
| ListNode (list_type : str) (items : list str)
| CodeBlockNode (code : str)
| ImageNode (path alt_text : str)
| LinkNode (url : str)
| LinkTextNode (text url : str)
| OpenSNNode (location text : str)
| EndNewSNNode (filepath : str)
| SignatureNode (signature : str)
| CloseNode
| UnknownNode (raw_text : str).

Record Document := mkDocument {
  version : str;
  metadata : list ASTNode;
  nodes : list ASTNode;
  is_closed : bool;
  signature : option str
}.

(** [Document()] *)
Definition new_document : Document :=
  mkDocument (lit "v1") [] [] false None.

(** ** The tokenizer: the lines and a cursor *)

Record SNTokenizer := mkTokenizer {
  lines : list str;
  current_line : nat
}.

Definition new_tokenizer (content : str) : SNTokenizer :=
  mkTokenizer (split LF content) 0.

Definition is_comment (line : str) : bool := startswith (lit "#") (lstrip line).
Definition is_blank (line : str) : bool := list_eqb (strip line) [].

(** ** Outcomes and the parser monad

    A method of the parser reads and moves the cursor of [self.tokenizer]
    and may raise [ValueError].  [OutOfFuel] is the outcome of a loop cut
    short by the bound that makes it a structural recursion; the loops are
    run with as many steps as there are lines left, which is never too
    few. *)

Inductive result (A : Type) :=
| Ok (a : A)
| Raise (message : str)
| OutOfFuel.
Arguments Ok {A} a.
Arguments Raise {A} message.
Arguments OutOfFuel {A}.

Definition M (A : Type) : Type := SNTokenizer -> result (A * SNTokenizer).

Definition ret {A} (a : A) : M A := fun tk => Ok (a, tk).
Definition bind {A B} (c : M A) (k : A -> M B) : M B :=
  fun tk =>
    match c tk with
    | Ok (a, tk') => k a tk'
    | Raise e => Raise e
    | OutOfFuel => OutOfFuel
    end.
Definition raise_ValueError {A} (message : str) : M A :=
  fun _ => Raise message.

Notation "x <- c ;; k" := (bind c (fun x => k))
  (at level 61, c at next level, right associativity).
Notation "c ;; k" := (bind c (fun _ => k))
  (at level 61, right associativity).

Definition peek_line : M (option str) :=
  fun tk => Ok (nth_error (lines tk) (current_line tk), tk).

Definition consume_line : M (option str) :=
  fun tk =>
    match nth_error (lines tk) (current_line tk) with
    | Some line => Ok (Some line, mkTokenizer (lines tk) (S (current_line tk)))
    | None => Ok (None, tk)
    end.

Definition has_more : M bool :=
  fun tk => Ok (Nat.ltb (current_line tk) (length (lines tk)), tk).

(** The number of lines not yet consumed. *)
Definition remaining (tk : SNTokenizer) : nat :=
  length (lines tk) - current_line tk.

(** ** The patterns given to [re.match] *)

Definition not_char (c : ascii) : ascii -> bool :=
  fun x => negb (Ascii.eqb x c).

(** [re.match] with [re.IGNORECASE] of the pattern made of a lower-case
    keyword [kw], a group of one or more characters other than a colon, a
    colon, white space, and a group of any characters: the two groups.  The first group runs to the first
    colon and is not empty; the second starts after the white space that
    follows the colon and stops before a line feed. *)
Definition re_match_keyed (kw s : str) : option (str * str) :=
  if startswith kw (lower s) then
    let r := skipn (length kw) s in
    match takewhile (not_char ":") r, dropwhile (not_char ":") r with
    | (_ :: _) as g1, _ :: after =>
        Some (g1, takewhile (not_char LF) (dropwhile str_isspace after))
    | _, _ => None
    end
  else None.

(** [re.match(r'olist:(bullet|numbers)', s, re.IGNORECASE)]: the group,
    for an [ascii_text] [s], where only ASCII letters fold. *)
Definition re_match_olist (s : str) : option str :=
  if startswith (lit "olist:bullet") (lower s) then Some (firstn 6 (skipn 6 s))
  else if startswith (lit "olist:numbers") (lower s)
       then Some (firstn 7 (skipn 6 s))
       else None.

(** ** The parser *)

Definition commands : list str :=
  [ lit "title:"; lit "sec:"; lit "sec="; lit "para:"; lit "break-line";
    lit "olist:"; lit "code:"; lit "img:="; lit "link:"; lit "linktxt:";
    lit "opensn="; lit "endnewsn:"; lit "sign:"; lit "close:"; lit "meta:" ].

Definition _looks_like_command (line : str) : bool :=
  let stripped := lower (strip line) in
  existsb (fun cmd => startswith cmd stripped) commands.

Definition _parse_image (content : str) : ASTNode :=
  if contains_char "|" content then
    let parts := split_once "|" content in
    ImageNode (strip (fst parts)) (strip (snd parts))
  else ImageNode (strip content) [].

Definition _parse_link_text (content : str) : ASTNode :=
  if contains_char "|" content then
    let parts := split_once "|" content in
    LinkTextNode (strip (fst parts)) (strip (snd parts))
  else if contains_char ":" content then
    let parts := split_once ":" content in
    LinkTextNode (strip (fst parts)) (strip (snd parts))
  else LinkTextNode content content.

(** The loop of [_parse_header].  In the loops below [peek_line] is
    called after [has_more] answered true, so it answers with a line; the
    empty line written for [None] is never used. *)
Fixpoint _parse_header_loop (fuel : nat) : M bool :=
  more <- has_more ;;
  if more then
    match fuel with
    | O => fun _ => OutOfFuel
    | S fuel' =>
        line <- peek_line ;;
        let line := match line with Some l => l | None => [] end in
        if is_blank line || is_comment line then
          consume_line ;; _parse_header_loop fuel'
        else if list_eqb (strip line) (lit "<super-notation-v1>") then
          consume_line ;; ret true
        else ret false
    end
  else ret false.

Definition _parse_header : M bool :=
  fun tk => _parse_header_loop (remaining tk) tk.

(** The loop of [_parse_metadata], with the list [metadata] it extends. *)
Fixpoint _parse_metadata_loop (fuel : nat) (metadata : list ASTNode)
  : M (list ASTNode) :=
  more <- has_more ;;
  if more then
    match fuel with
    | O => fun _ => OutOfFuel
    | S fuel' =>
        line <- peek_line ;;
        let line := match line with Some l => l | None => [] end in
        if is_blank line || is_comment line then
          consume_line ;; _parse_metadata_loop fuel' metadata
        else
          let stripped := strip line in
          if startswith (lit "meta:") (lower stripped) then
            consume_line ;;
            let content := strip (skipn 5 stripped) in
            _parse_metadata_loop fuel' (metadata ++ [MetaNode content])
          else ret metadata
    end
  else ret metadata.

Definition _parse_metadata : M (list ASTNode) :=
  fun tk => _parse_metadata_loop (remaining tk) [] tk.

(** The loop of [_parse_list], with the list [items] it extends. *)
Fixpoint _parse_list_loop (fuel : nat) (items : list str) : M (list str) :=
  more <- has_more ;;
  if more then
    match fuel with
    | O => fun _ => OutOfFuel
    | S fuel' =>
        line <- peek_line ;;
        let line := match line with Some l => l | None => [] end in
        if is_blank line then ret items
        else if is_comment line then
          consume_line ;; _parse_list_loop fuel' items
        else if _looks_like_command line then ret items
        else consume_line ;; _parse_list_loop fuel' (items ++ [strip line])
    end
  else ret items.

Definition _parse_list (first_line : str) : M ASTNode :=
  match re_match_olist first_line with
  | None => raise_ValueError (lit "Invalid list type: " ++ first_line)
  | Some group1 =>
      let list_type := lower group1 in
      consume_line ;;
      items <- (fun tk => _parse_list_loop (remaining tk) [] tk) ;;
      ret (ListNode list_type items)
  end.

(** The loop of [_parse_code_block], with the list [code_lines]. *)
Fixpoint _parse_code_block_loop (fuel : nat) (code_lines : list str)
  : M (list str) :=
  more <- has_more ;;
  if more then
    match fuel with
    | O => fun _ => OutOfFuel
    | S fuel' =>
        line <- peek_line ;;
        let line := match line with Some l => l | None => [] end in
        if list_eqb (lower (strip line)) (lit "endcode:") then
          consume_line ;; ret code_lines
        else
          consume_line ;;
          _parse_code_block_loop fuel' (code_lines ++ [line])
    end
  else ret code_lines.

Definition _parse_code_block : M ASTNode :=
  consume_line ;;
  code_lines <- (fun tk => _parse_code_block_loop (remaining tk) [] tk) ;;
  ret (CodeBlockNode (join LF code_lines)).

(** A statement of a method body that may [return]: its outcome is
    [Some v] when it returned [v] and [None] when control goes on to the
    statement after it. *)
Definition returns {A} (v : A) : M (option A) := ret (Some v).
Definition goes_on {A} : M (option A) := ret None.
Definition and_then {A} (s : M (option A)) (rest : M A) : M A :=
  r <- s ;; match r with Some v => ret v | None => rest end.
Notation "s ;;; rest" := (and_then s rest)
  (at level 62, right associativity).

Definition is_strict (mode : ParseMode) : bool :=
  match mode with STRICT => true | LENIENT => false end.

Definition _parse_node (mode : ParseMode) : M (option ASTNode) :=
  line <- peek_line ;;
  match line with
  | None => ret None
  | Some line =>
      if is_blank line || is_comment line then consume_line ;; ret None
      else
        let stripped := strip line in
        let lower_ := lower stripped in
        (if startswith (lit "title:") lower_ then
           consume_line ;;
           returns (Some (TitleNode (strip (skipn 6 stripped))))
         else goes_on) ;;;
        (if startswith (lit "sec:") lower_
            && negb (contains_char "=" (firstn 4 stripped)) then
           consume_line ;;
           let sec_id := strip (skipn 4 stripped) in
           returns (Some (SectionDefNode sec_id))
         else goes_on) ;;;
        (if startswith (lit "sec=") lower_ then
           consume_line ;;
           match re_match_keyed (lit "sec=") stripped with
           | Some (g1, g2) =>
               returns (Some (SectionLinkNode (strip g1) (strip g2)))
           | None => goes_on
           end
         else goes_on) ;;;
        (if startswith (lit "para:") lower_ then
           consume_line ;;
           returns (Some (ParagraphNode (strip (skipn 5 stripped))))
         else goes_on) ;;;
        (if list_eqb lower_ (lit "break-line")
            || list_eqb lower_ (lit "break-line:") then
           consume_line ;; returns (Some BreakLineNode)
         else goes_on) ;;;
        (if startswith (lit "olist:") lower_ then
           node <- _parse_list stripped ;; returns (Some node)
         else goes_on) ;;;
        (if list_eqb lower_ (lit "code:") then
           node <- _parse_code_block ;; returns (Some node)
         else goes_on) ;;;
        (if startswith (lit "img:=") lower_ then
           consume_line ;; returns (Some (_parse_image (skipn 5 stripped)))
         else goes_on) ;;;
        (if startswith (lit "link:") lower_ then
           consume_line ;;
           returns (Some (LinkNode (strip (skipn 5 stripped))))
         else goes_on) ;;;
        (if startswith (lit "linktxt:") lower_ then
           consume_line ;;
           returns (Some (_parse_link_text (skipn 8 stripped)))
         else goes_on) ;;;
        (if startswith (lit "opensn=") lower_ then
           consume_line ;;
           match re_match_keyed (lit "opensn=") stripped with
           | Some (g1, g2) =>
               returns (Some (OpenSNNode (strip g1) (strip g2)))
           | None => goes_on
           end
         else goes_on) ;;;
        (if startswith (lit "endnewsn:") lower_ then
           consume_line ;;
           returns (Some (EndNewSNNode (strip (skipn 9 stripped))))
         else goes_on) ;;;
        (if startswith (lit "sign:") lower_ then
           consume_line ;;
           returns (Some (SignatureNode (strip (skipn 5 stripped))))
         else goes_on) ;;;
        (if list_eqb lower_ (lit "close:") then
           consume_line ;; returns (Some CloseNode)
         else goes_on) ;;;
        (if is_strict mode then
           raise_ValueError (lit "Unknown command in strict mode: " ++ line)
         else consume_line ;; ret (Some (UnknownNode line)))
  end.

Definition set_nodes (doc : Document) (ns : list ASTNode) : Document :=
  mkDocument (version doc) (metadata doc) ns (is_closed doc) (signature doc).
Definition set_signature (doc : Document) (s : option str) : Document :=
  mkDocument (version doc) (metadata doc) (nodes doc) (is_closed doc) s.
Definition set_is_closed (doc : Document) (b : bool) : Document :=
  mkDocument (version doc) (metadata doc) (nodes doc) b (signature doc).
Definition set_metadata (doc : Document) (m : list ASTNode) : Document :=
  mkDocument (version doc) m (nodes doc) (is_closed doc) (signature doc).

(** The body loop of [parse], with the document it fills in. *)
Fixpoint parse_body (mode : ParseMode) (fuel : nat) (doc : Document)
  : M Document :=
  more <- has_more ;;
  if more then
    match fuel with
    | O => fun _ => OutOfFuel
    | S fuel' =>
        node <- _parse_node mode ;;
        match node with
        | Some node =>
            let doc := set_nodes doc (nodes doc ++ [node]) in
            match node with
            | SignatureNode s =>
                parse_body mode fuel' (set_signature doc (Some s))
            | CloseNode => parse_body mode fuel' (set_is_closed doc true)
            | EndNewSNNode _ =>
                if is_strict mode then ret doc
                else parse_body mode fuel' doc
            | _ => parse_body mode fuel' doc
            end
        | None => parse_body mode fuel' doc
        end
    end
  else ret doc.

Definition parse_from (mode : ParseMode) : M Document :=
  let doc := new_document in
  ok <- _parse_header ;;
  if negb ok then
    raise_ValueError (lit "Missing or invalid <super-notation-v1> header")
  else
    metadata <- _parse_metadata ;;
    let doc := set_metadata doc metadata in
    fun tk => parse_body mode (remaining tk) doc tk.

Definition parse (mode : ParseMode) (content : str) : result Document :=
  match parse_from mode (new_tokenizer content) with
  | Ok (doc, _) => Ok doc
  | Raise e => Raise e
  | OutOfFuel => OutOfFuel
  end.

(** ** The renderer *)

Definition DQ : ascii := chr 34.

(** A literal in which a back quote stands for a double quote. *)
Definition qlit (s : string) : str :=
  map (fun c => if Ascii.eqb c "`" then DQ else c) (lit s).

(** [s.replace(c, new)] for a one-character [c], as [html.escape] uses it. *)
Definition replace_char (c : ascii) (new s : str) : str := replace [c] new s.

(** [html.escape(s)], with [quote=True]. *)
Definition html_escape (s : str) : str :=
  let s := replace_char "&" (lit "&amp;") s in
  let s := replace_char "<" (lit "&lt;") s in
  let s := replace_char ">" (lit "&gt;") s in
  let s := replace_char DQ (lit "&quot;") s in
  replace_char "'" (lit "&#x27;") s.

(** A match, at the head of [s] and ignoring case, of [open] followed by
    the shortest run of characters other than a line feed that ends at a
    closing brace: the run and the length of the match. *)
Definition span_match (open s : str) : option (str * nat) :=
  if startswith open (lower s) then
    let r := skipn (length open) s in
    let g := takewhile (fun c => not_char "}" c && not_char LF c) r in
    match skipn (length g) r with
    | c :: _ =>
        if Ascii.eqb c "}" then Some (g, length open + length g + 1)
        else None
    | [] => None
    end
  else None.

(** [re.sub] of the pattern for [open], a lazy group and a closing brace,
    by the group wrapped in [before] and [after]. *)
Definition sub_span (open before after s : str) : str :=
  rewrite_scan
    (fun t => match span_match open t with
              | Some (g, n) => Some (before ++ g ++ after, n)
              | None => None
              end) 0 s.

(** A match, at the head of [s] and ignoring case, of the colour pattern:
    the colour (one or more characters up to the first colon), the text
    (the shortest run without line feed up to a closing brace) and the
    length of the match. *)
Definition color_match (s : str) : option (str * str * nat) :=
  if startswith (lit "{color=") (lower s) then
    let r := skipn 7 s in
    match takewhile (not_char ":") r, dropwhile (not_char ":") r with
    | (_ :: _) as g1, _ :: rest =>
        let g2 := takewhile (fun c => not_char "}" c && not_char LF c) rest in
        match skipn (length g2) rest with
        | c :: _ =>
            if Ascii.eqb c "}"
            then Some (g1, g2, 7 + length g1 + 1 + length g2 + 1)
            else None
        | [] => None
        end
    | _, _ => None
    end
  else None.

Definition sub_color (s : str) : str :=
  rewrite_scan
    (fun t => match color_match t with
              | Some (g1, g2, n) =>
                  Some (qlit "<span style=`color: " ++ html_escape g1
                          ++ qlit "`>" ++ g2 ++ lit "</span>", n)
              | None => None
              end) 0 s.

Definition LEFTBRACE : str := [NUL] ++ lit "LEFTBRACE" ++ [NUL].
Definition RIGHTBRACE : str := [NUL] ++ lit "RIGHTBRACE" ++ [NUL].

Definition _format_inline (text : str) : str :=
  let result := html_escape text in
  let result := replace (lit "{{") LEFTBRACE result in
  let result := replace (lit "}}") RIGHTBRACE result in
  let result := sub_span (lit "{b:") (lit "<strong>") (lit "</strong>") result in
  let result := sub_span (lit "{bold:") (lit "<strong>") (lit "</strong>") result in
  let result := sub_span (lit "{i:") (lit "<em>") (lit "</em>") result in
  let result := sub_span (lit "{italic:") (lit "<em>") (lit "</em>") result in
  let result := sub_span (lit "{u:") (lit "<u>") (lit "</u>") result in
  let result := sub_color result in
  let result := replace LEFTBRACE (lit "{") result in
  replace RIGHTBRACE (lit "}") result.

Definition _get_default_css : str := lit "
        body {
            font-family: -apple-system, BlinkMacSystemFont, 'Segoe UI', Roboto, Oxygen, Ubuntu, Cantarell, sans-serif;
            line-height: 1.6;
            max-width: 800px;
            margin: 0 auto;
            padding: 20px;
            color: #333;
        }
        .sn-document {
            background: #fff;
        }
        .sn-title {
            color: #2c3e50;
            border-bottom: 3px solid #3498db;
            padding-bottom: 10px;
        }
        .sn-section {
            color: #34495e;
            margin-top: 2em;
            margin-bottom: 1em;
            border-bottom: 1px solid #ecf0f1;
            padding-bottom: 5px;
        }
        .sn-para {
            margin: 1em 0;
            text-align: justify;
        }
        .sn-break {
            margin: 2em 0;
            border: none;
            border-top: 2px solid #bdc3c7;
        }
        .sn-list {
            margin: 1em 0;
            padding-left: 2em;
        }
        .sn-list li {
            margin: 0.5em 0;
        }
        .sn-code {
            background: #2c3e50;
            color: #ecf0f1;
            padding: 15px;
            border-radius: 5px;
            overflow-x: auto;
            font-family: 'Courier New', Courier, monospace;
            font-size: 14px;
        }
        .sn-code code {
            background: none;
            color: inherit;
        }
        .sn-image {
            max-width: 100%;
            height: auto;
            display: block;
            margin: 1em 0;
            border-radius: 5px;
            box-shadow: 0 2px 8px rgba(0,0,0,0.1);
        }
        .sn-link, .sn-opensn {
            color: #3498db;
            text-decoration: none;
        }
        .sn-link:hover, .sn-opensn:hover {
            text-decoration: underline;
        }
        .sn-next {
            margin-top: 3em;
            padding: 15px;
            background: #ecf0f1;
            border-left: 4px solid #3498db;
            border-radius: 3px;
        }
        .sn-next a {
            color: #2c3e50;
            text-decoration: none;
            font-weight: bold;
        }
        .sn-seal {
            margin-top: 3em;
            padding: 15px;
            background: #d5f4e6;
            border: 2px solid #27ae60;
            border-radius: 5px;
            text-align: center;
            color: #27ae60;
            font-weight: bold;
        }
        .sn-unknown {
            background: #fff3cd;
            border-left: 4px solid #ffc107;
            padding: 10px;
            margin: 1em 0;
            font-family: monospace;
        }
        ".

(** The loop of [_extract_title]. *)
Fixpoint _extract_title_loop (ns : list ASTNode) : str :=
  match ns with
  | [] => lit "Untitled Document"
  | TitleNode text :: _ => text
  | _ :: rest => _extract_title_loop rest
  end.

Definition _extract_title (doc : Document) : str :=
  _extract_title_loop (nodes doc).

(** The characters of the source between the opening tag and the text of
    the seal banner, and those after the file name of the next link. *)
Definition SEAL_GLYPHS : str :=
  map chr [195; 176; 197; 184; 226; 128; 157; 226; 128; 153]%N.
Definition NEXT_GLYPHS : str :=
  map chr [195; 162; 226; 128; 160; 226; 128; 153]%N.

(** [_render_node]: the list [self.output] after the call. *)
Definition _render_node (output : list str) (node : ASTNode) : list str :=
  match node with
  | TitleNode text =>
      output ++ [qlit "<h1 class=`sn-title`>" ++ _format_inline text
                   ++ lit "</h1>"]
  | SectionDefNode section_id =>
      output ++ [qlit "<h2 id=`" ++ html_escape section_id
                   ++ qlit "` class=`sn-section`>" ++ html_escape section_id
                   ++ lit "</h2>"]
  | SectionLinkNode section_id text =>
      output ++ [qlit "<p><a href=`#" ++ html_escape section_id
                   ++ qlit "`>" ++ _format_inline text ++ lit "</a></p>"]
  | ParagraphNode text =>
      output ++ [qlit "<p class=`sn-para`>" ++ _format_inline text
                   ++ lit "</p>"]
  | BreakLineNode => output ++ [qlit "<hr class=`sn-break`>"]
  | ListNode list_type items =>
      let tag :=
        if list_eqb list_type (lit "numbers") then lit "ol" else lit "ul" in
      let output :=
        output ++ [lit "<" ++ tag ++ qlit " class=`sn-list`>"] in
      let output :=
        fold_left
          (fun out item =>
             out ++ [lit "    <li>" ++ _format_inline item ++ lit "</li>"])
          items output in
      output ++ [lit "</" ++ tag ++ lit ">"]
  | CodeBlockNode code =>
      let escaped := html_escape code in
      output ++ [qlit "<pre class=`sn-code`><code>"] ++ [escaped]
             ++ [lit "</code></pre>"]
  | ImageNode path alt_text =>
      let alt :=
        match alt_text with [] => [] | _ :: _ => html_escape alt_text end in
      output ++ [qlit "<img src=`" ++ html_escape path ++ qlit "` alt=`"
                   ++ alt ++ qlit "` class=`sn-image`>"]
  | LinkNode url =>
      output ++ [qlit "<p><a href=`" ++ html_escape url
                   ++ qlit "` class=`sn-link`>" ++ html_escape url
                   ++ lit "</a></p>"]
  | LinkTextNode text url =>
      output ++ [qlit "<p><a href=`" ++ html_escape url
                   ++ qlit "` class=`sn-link`>" ++ _format_inline text
                   ++ lit "</a></p>"]
  | OpenSNNode location text =>
      output ++ [qlit "<p><a href=`" ++ html_escape location
                   ++ qlit "` class=`sn-opensn`>" ++ _format_inline text
                   ++ lit "</a></p>"]
  | EndNewSNNode filepath =>
      output ++ [qlit "<div class=`sn-next`><a href=`"
                   ++ html_escape filepath ++ qlit "`>Next: "
                   ++ html_escape filepath ++ lit " " ++ NEXT_GLYPHS
                   ++ lit "</a></div>"]
  | UnknownNode raw_text =>
      output ++ [qlit "<p class=`sn-unknown`>" ++ html_escape raw_text
                   ++ lit "</p>"]
  | MetaNode _ | SignatureNode _ | CloseNode => output
  end.

(** The truth value of [doc.signature]: neither [None] nor empty. *)
Definition truthy (s : option str) : bool :=
  match s with Some (_ :: _) => true | _ => false end.

Definition SEAL_BANNER : str :=
  qlit "<div class=`sn-seal`>" ++ SEAL_GLYPHS
    ++ lit " Document sealed and signed</div>".

Definition render (doc : Document) : str :=
  let title := _extract_title doc in
  let output :=
    [ lit "<!DOCTYPE html>";
      qlit "<html lang=`en`>";
      lit "<head>";
      qlit "    <meta charset=`UTF-8`>";
      qlit "    <meta name=`viewport` content=`width=device-width, initial-scale=1.0`>";
      lit "    <title>" ++ html_escape title ++ lit "</title>";
      lit "    <style>";
      _get_default_css;
      lit "    </style>";
      lit "</head>";
      lit "<body>";
      qlit "<div class=`sn-document`>" ] in
  let output := fold_left _render_node (nodes doc) output in
  let output :=
    if is_closed doc && truthy (signature doc)
    then output ++ [SEAL_BANNER] else output in
  let output := output ++ [lit "</div>"; lit "</body>"; lit "</html>"] in
  join LF output.

(** ** The canonical bytes as the specification words them

    A second definition, written from the text of the specification and
    compared below with [canonical_bytes]. *)

(** "Every CRLF and every lone CR becomes LF", in one pass. *)
Fixpoint normalize_eol_spec (s : bytes) : bytes :=
  match s with
  | [] => []
  | c :: r =>
      if Ascii.eqb c CR then
        LF :: match r with
              | c' :: r' =>
                  if Ascii.eqb c' LF then normalize_eol_spec r'
                  else normalize_eol_spec r
              | [] => []
              end
      else c :: normalize_eol_spec r
  end.

(** "A line whose content, after stripping leading whitespace and
    case-folding, begins with sign:". *)
Definition begins_with_sign (line : bytes) : bool :=
  startswith (lit "sign:") (lower (dropwhile bytes_isspace line)).

(** "All lines strictly before the first such line", when there is one. *)
Fixpoint lines_before_sign (ls : list bytes) : option (list bytes) :=
  match ls with
  | [] => None
  | l :: rest =>
      if begins_with_sign l then Some []
      else option_map (cons l) (lines_before_sign rest)
  end.

Definition canonical_bytes_spec (content : bytes) : bytes :=
  let unmarked :=
    match content with
    | a :: b :: c :: rest =>
        if ((ord a =? 239) && (ord b =? 187) && (ord c =? 191))%N
        then rest else content
    | _ => content
    end in
  let normalized := normalize_eol_spec unmarked in
  match lines_before_sign (split LF normalized) with
  | Some before => join LF before
  | None => normalized
  end.

(** ** Sample files *)

(** The file written by [test_signing] of test_sn.py. *)
Definition test_sign_sn : bytes :=
  file_of [ "<super-notation-v1>"; "";
            "meta: author=Test Author"; "title: Test Document"; "";
            "para: This is a test document for signing."; "" ].

(** A two-line document whose last line has no line terminator. *)
Definition unterminated_sn : bytes :=
  file_of [ "<super-notation-v1>"; "para: x" ].

(** The same document with its last line terminated. *)
Definition terminated_sn : bytes :=
  file_of [ "<super-notation-v1>"; "para: x"; "" ].

(** A signed and sealed file with CRLF line endings before the sign:
    line: the lines before it, then the sign: line and the seal. *)
Definition crlf_prefix : bytes :=
  lit "<super-notation-v1>" ++ [CR; LF] ++ lit "para: x" ++ [CR; LF]
    ++ [CR; LF].
Definition crlf_tail : bytes :=
  lit "sign: "
    ++ lit "SHA256-3C500BC62908EBB077EA3A4E662C0F3BFC6D66176D12013B07DE74E84C162803"
    ++ [LF] ++ lit "close:".
Definition crlf_signed_sn : bytes := crlf_prefix ++ crlf_tail.

(** [crlf_prefix] with the byte at offset 19, the first CR, deleted. *)
Definition crlf_prefix_edited : bytes :=
  firstn 19 crlf_prefix ++ skipn 20 crlf_prefix.

(** The signed test file with a paragraph inserted before the sign: line,
    as [test_signature_invalidation] does. *)
Definition test_sign_modified_sn : bytes :=
  file_of [ "<super-notation-v1>"; "";
            "meta: author=Test Author"; "title: Test Document"; "";
            "para: This is a test document for signing."; "";
            "para: This modification should invalidate the signature.";
            "sign: SHA256-F23EE7C1E059B74B7FA8E9B2A37B0C0F881403EA1ECA3B2D3BEA51A6B8EBE022";
            "close:" ].

(** ** Vocabulary of the statements about the parser and the renderer *)

Definition is_TitleNode (n : ASTNode) : bool :=
  match n with TitleNode _ => true | _ => false end.

Definition is_CloseNode (n : ASTNode) : bool :=
  match n with CloseNode => true | _ => false end.

Definition is_SignatureNode (n : ASTNode) : bool :=
  match n with SignatureNode _ => true | _ => false end.

(** The text of the first Title node of a sequence, or the fallback. *)
Definition first_title_or_fallback (ns : list ASTNode) : str :=
  match find is_TitleNode ns with
  | Some (TitleNode text) => text
  | _ => lit "Untitled Document"
  end.

(** The signature string of the last Signature node of a sequence. *)
Fixpoint last_signature (ns : list ASTNode) : option str :=
  match ns with
  | [] => None
  | n :: rest =>
      match last_signature rest with
      | Some s => Some s
      | None => match n with SignatureNode s => Some s | _ => None end
      end
  end.

(** The sealed flag and the signature field agree with the nodes. *)
Definition seal_and_signature_agree (doc : Document) : Prop :=
  is_closed doc = existsb is_CloseNode (nodes doc)
  /\ signature doc = last_signature (nodes doc).

(** The rendered text up to the content of the title element. *)
Definition HEAD_TO_TITLE : str :=
  join LF
    [ lit "<!DOCTYPE html>";
      qlit "<html lang=`en`>";
      lit "<head>";
      qlit "    <meta charset=`UTF-8`>";
      qlit "    <meta name=`viewport` content=`width=device-width, initial-scale=1.0`>";
      lit "    <title>" ].

(** The fragments of the shell before and after the content. *)
Definition shell_head (title : str) : list str :=
  [ lit "<!DOCTYPE html>";
    qlit "<html lang=`en`>";
    lit "<head>";
    qlit "    <meta charset=`UTF-8`>";
    qlit "    <meta name=`viewport` content=`width=device-width, initial-scale=1.0`>";
    lit "    <title>" ++ html_escape title ++ lit "</title>";
    lit "    <style>";
    _get_default_css;
    lit "    </style>";
    lit "</head>";
    lit "<body>";
    qlit "<div class=`sn-document`>" ].

Definition shell_tail : list str :=
  [ lit "</div>"; lit "</body>"; lit "</html>" ].

(** The fragments one node contributes. *)
Definition fragments_of (n : ASTNode) : list str := _render_node [] n.

(** A signed and sealed document and what it parses to. *)
Definition signed_hi_sn : str :=
  file_of [ "<super-notation-v1>"; ""; "title: Hi"; "para: Body"; "";
            "sign: SHA256-83D171822924A8AD24C88D5C22FB39F8650848A77C1923A6162E1B2979480512";
            "close:" ].

Definition signed_hi_doc : Document :=
  mkDocument (lit "v1") []
    [ TitleNode (lit "Hi"); ParagraphNode (lit "Body");
      SignatureNode
        (lit "SHA256-83D171822924A8AD24C88D5C22FB39F8650848A77C1923A6162E1B2979480512");
      CloseNode ]
    true
    (Some (lit "SHA256-83D171822924A8AD24C88D5C22FB39F8650848A77C1923A6162E1B2979480512")).

(** A line that goes on a list: not blank, and a comment or not a
    command.  Any other line ends the list. *)
Definition continues_list (line : str) : bool :=
  negb (is_blank line)
  && (is_comment line || negb (_looks_like_command line)).

(** The items of a list whose lines, after the first, are [body]. *)
Definition items_of (body : list str) : list str :=
  map strip (filter (fun line => negb (is_comment line)) body).

(** Documents with a malformed section link and with a list. *)
Definition malformed_sec_sn : str :=
  file_of [ "<super-notation-v1>"; "sec=abc"; "para: next"; "para: after" ].

Definition bulletin_sn : str :=
  file_of [ "<super-notation-v1>"; "olist:bulletin"; "first"; "# note";
            " second "; "para: after" ].

(** ** Vocabulary of the statements about signed files *)

(** The lines of a file as [canonical_bytes] and [extract_signature] see
    them. *)
Definition file_lines (content : bytes) : list bytes :=
  split LF (normalize_newlines (strip_bom content)).

(** The signature value a sign: line carries: what follows its first
    colon, trimmed. *)
Definition sign_value (line : bytes) : str :=
  strip (snd (split_once ":" (bytes_strip line))).

(** The lines of [test_sign_modified_sn] before its sign: line, and that
    line. *)
Definition modified_before : list bytes :=
  map lit
    [ "<super-notation-v1>"; "";
      "meta: author=Test Author"; "title: Test Document"; "";
      "para: This is a test document for signing."; "";
      "para: This modification should invalidate the signature." ].

Definition modified_sign_line : bytes :=
  lit "sign: SHA256-F23EE7C1E059B74B7FA8E9B2A37B0C0F881403EA1ECA3B2D3BEA51A6B8EBE022".

(** The paragraph text of the inline-formatting example. *)
Definition formatting_example : str := lit "{b:X} and {{literal}}".

(** What [html.escape] writes for one character. *)
Definition escape_char (c : ascii) : str :=
  if Ascii.eqb c "&" then lit "&amp;"
  else if Ascii.eqb c "<" then lit "&lt;"
  else if Ascii.eqb c ">" then lit "&gt;"
  else if Ascii.eqb c DQ then lit "&quot;"
  else if Ascii.eqb c "'" then lit "&#x27;"
  else [c].

(** The document of the inline-formatting scenario. *)
Definition formatting_sn : str :=
  file_of [ "<super-notation-v1>"; "para: {b:X} and {{literal}} 1 < 2 & 3" ].

(** ** Progress of the parser

    An outcome moves on from [tk]: it is not [OutOfFuel], and when it is a
    result the lines are those of [tk] and the cursor has not gone back;
    with [strictly], the cursor has gone forward. *)
Definition moves_on (strictly : bool) (tk : SNTokenizer) {A : Type}
  (r : result (A * SNTokenizer)) : Prop :=
  match r with
  | Ok (_, tk') =>
      lines tk' = lines tk
      /\ (if strictly then current_line tk < current_line tk'
          else current_line tk <= current_line tk')
  | Raise _ => True
  | OutOfFuel => False
  end.

(** A tokenizer [tk'] reached from [tk] inside one call of [_parse_node]:
    the same lines, and either nothing consumed yet or the cursor
    forward. *)
Definition at_or_after (tk tk' : SNTokenizer) : Prop :=
  lines tk' = lines tk /\ (tk' = tk \/ current_line tk < current_line tk').

(** The outcome of a statement of [_parse_node] run from [tk]: when it
    returned, a line was consumed; when control goes on, the tokenizer is
    still at or after [tk]. *)
Definition statement_moves_on (tk : SNTokenizer) {A : Type}
  (r : result (option A * SNTokenizer)) : Prop :=
  match r with
  | Ok (Some _, tk') =>
      lines tk' = lines tk /\ current_line tk < current_line tk'
  | Ok (None, tk') => at_or_after tk tk'
  | Raise _ => True
  | OutOfFuel => False
  end.

(** ** Vocabulary of the further statements *)

(** The characters of an upper-case hexadecimal digest. *)
Definition HEX_UPPER : str := lit "0123456789ABCDEF".

(** The lines that [sign_file] and [unsign_file] keep: those of the text
    that are neither a sign: line nor a close: line, without the blank
    lines at the end. *)
Definition kept_lines (content : bytes) : list str :=
  drop_trailing_blank
    (filter (fun line => negb (is_sign_or_close line))
            (split LF (read_text content))).

(** A line that, once a byte-order mark at its start is taken off, is a
    sign: line for [canonical_bytes] and [extract_signature], while the
    text-mode test of [sign_file] and [unsign_file] sees none. *)
Definition bom_hides_sign (line : bytes) : bool :=
  startswith BOM line && is_sign_line (skipn 3 line).

(** No line of the text hides a sign: line behind a byte-order mark. *)
Definition no_hidden_sign_in (lines : list str) : bool :=
  forallb (fun line => negb (bom_hides_sign line)) lines.

Definition no_hidden_sign (content : bytes) : bool :=
  no_hidden_sign_in (split LF (read_text content)).

(** What [sign_file] writes: the kept lines, a blank line, the sign: line
    and the close: line. *)
Definition signed_text (kept : list str) (signature : str) : bytes :=
  join LF (kept ++ [[]; lit "sign: " ++ signature; lit "close:"]).

(** The first line without a byte-order mark at its start. *)
Definition unmark_first (ls : list bytes) : list bytes :=
  match ls with
  | [] => []
  | l :: rest => strip_bom l :: rest
  end.

(** The alphabet of a signature string. *)
Definition SIGNATURE_CHARS : str := lit "SHA256-" ++ HEX_UPPER.

(** Lines as [sign_file] and [unsign_file] keep them: without line
    terminator, none a sign: or close: line, the last one not blank. *)
Definition plain_line (l : str) : bool :=
  negb (contains_char LF l) && negb (contains_char CR l)
  && negb (is_sign_or_close l).

Definition ends_unblank (X : list str) : bool :=
  match rev X with
  | [] => true
  | l :: _ => negb (list_eqb (strip l) [])
  end.

Definition kept_ok (X : list str) : bool :=
  forallb plain_line X && ends_unblank X.

(** The two lines [sign_file] appends after the blank one. *)
Definition sign_line_of (signature : str) : str := lit "sign: " ++ signature.
Definition CLOSE_LINE : str := lit "close:".

(** The lines of [test_sign_sn], each of which the file ends by a
    newline. *)
Definition test_sign_lines : list str :=
  map lit [ "<super-notation-v1>"; "";
            "meta: author=Test Author"; "title: Test Document"; "";
            "para: This is a test document for signing." ].

(** [signed_hi_sn] by its lines, and the same file with a paragraph
    added after the seal. *)
Definition signed_hi_before : list bytes :=
  map lit [ "<super-notation-v1>"; ""; "title: Hi"; "para: Body"; "" ].
Definition signed_hi_sign_line : bytes :=
  lit "sign: SHA256-83D171822924A8AD24C88D5C22FB39F8650848A77C1923A6162E1B2979480512".
Definition signed_hi_appended_sn : bytes :=
  signed_hi_sn ++ LF :: lit "para: added after the seal" ++ [LF].

(** ** Outcomes of the parser *)

Definition MISSING_HEADER : str :=
  lit "Missing or invalid <super-notation-v1> header".

(** What a computation answers: [Q] of its value and tokenizer when it
    returns, [P] of its message when it raises. *)
Definition outcome {A : Type} (Q : A -> SNTokenizer -> Prop)
  (P : str -> Prop) (r : result (A * SNTokenizer)) : Prop :=
  match r with
  | Ok (a, tk') => Q a tk'
  | Raise e => P e
  | OutOfFuel => True
  end.

(** The two messages raised while the body is parsed, for the lines
    [ls]: an olist: line with an unknown type, in both modes, and an
    unknown line, in strict mode. *)
Definition node_error (mode : ParseMode) (ls : list str) (e : str) : Prop :=
  (exists line, In line ls /\ e = lit "Invalid list type: " ++ strip line)
  \/ (mode = STRICT
      /\ exists line,
           In line ls /\ e = lit "Unknown command in strict mode: " ++ line).

Definition is_MetaNode (n : ASTNode) : bool :=
  match n with MetaNode _ => true | _ => false end.
Definition is_EndNewSNNode (n : ASTNode) : bool :=
  match n with EndNewSNNode _ => true | _ => false end.

(** The header test of [_parse_header] on the lines of a file: the first
    line that is neither blank nor a comment is the header. *)
Fixpoint has_header (ls : list str) : bool :=
  match ls with
  | [] => false
  | l :: r =>
      if is_blank l || is_comment l then has_header r
      else list_eqb (strip l) (lit "<super-notation-v1>")
  end.

(** No [EndNewSNNode] but, possibly, the last node. *)
Fixpoint endnewsn_only_last (ns : list ASTNode) : bool :=
  match ns with
  | [] => true
  | n :: r =>
      if is_EndNewSNNode n then match r with [] => true | _ => false end
      else endnewsn_only_last r
  end.

(** What [_parse_node], and a statement of it, answer from [tk]: the
    lines are untouched and the node is no [MetaNode]. *)
Definition node_kept (tk : SNTokenizer) (o : option ASTNode)
  (tk' : SNTokenizer) : Prop :=
  lines tk' = lines tk
  /\ match o with Some n => is_MetaNode n = false | None => True end.

Definition statement_kept (tk : SNTokenizer) (o : option (option ASTNode))
  (tk' : SNTokenizer) : Prop :=
  lines tk' = lines tk
  /\ match o with Some (Some n) => is_MetaNode n = false | _ => True end.

Definition no_MetaNode (ns : list ASTNode) : bool :=
  forallb (fun n => negb (is_MetaNode n)) ns.
Definition no_EndNewSNNode (ns : list ASTNode) : bool :=
  forallb (fun n => negb (is_EndNewSNNode n)) ns.

(** What the body loop does to the document [doc] it was given: the
    metadata stay, no [MetaNode] is added, and in strict mode no node
    follows an [EndNewSNNode]. *)
Definition body_kept (mode : ParseMode) (doc d : Document) : Prop :=
  metadata d = metadata doc
  /\ (no_MetaNode (nodes doc) = true -> no_MetaNode (nodes d) = true)
  /\ (mode = STRICT -> no_EndNewSNNode (nodes doc) = true ->
      endnewsn_only_last (nodes d) = true).

(** A file in two parts whose first part goes on after its endnewsn:
    line. *)
Definition part_one_sn : str :=
  file_of [ "<super-notation-v1>"; "meta: author=A"; "title: Part one";
            "endnewsn: part2.sn"; "para: after the end";
            "meta: late=1"; "sign: SHA256-00"; "close:" ].

(** [part_one_sn] as the two modes parse it. *)
Definition part_one_lenient : Document :=
  mkDocument (lit "v1") [MetaNode (lit "author=A")]
    [ TitleNode (lit "Part one"); EndNewSNNode (lit "part2.sn");
      ParagraphNode (lit "after the end"); UnknownNode (lit "meta: late=1");
      SignatureNode (lit "SHA256-00"); CloseNode ]
    true (Some (lit "SHA256-00")).

Definition part_one_strict : Document :=
  mkDocument (lit "v1") [MetaNode (lit "author=A")]
    [ TitleNode (lit "Part one"); EndNewSNNode (lit "part2.sn") ]
    false None.

(** What [_parse_node] answers for a line it does not know, at the
    cursor of [tk]: strict mode raises with the line as it stands,
    lenient mode keeps it as an [UnknownNode] and moves on by one line. *)
Definition unknown_outcome (mode : ParseMode) (tk : SNTokenizer)
  (line : str) : result (option ASTNode * SNTokenizer) :=
  if is_strict mode
  then Raise (lit "Unknown command in strict mode: " ++ line)
  else Ok (Some (UnknownNode line),
           mkTokenizer (lines tk) (S (current_line tk))).

(** A tokenizer on a line that does not look like a command, and one on a
    meta: line. *)
Definition on_plain_text : SNTokenizer :=
  mkTokenizer (map lit ["<super-notation-v1>"; "just some text"; "para: x"]) 1.
Definition on_late_meta : SNTokenizer :=
  mkTokenizer (map lit ["<super-notation-v1>"; "para: x"; "Meta: late=1"]) 2.

Definition is_endcode (line : str) : bool :=
  list_eqb (lower (strip line)) (lit "endcode:").

(** A tokenizer on a code: line whose block is closed, and one whose block
    is not. *)
Definition on_closed_code : SNTokenizer :=
  mkTokenizer
    (map lit ["<super-notation-v1>"; "code:"; "  x = 1"; ""; "para: y";
              " EndCode: "; "para: z"]) 1.
Definition on_open_code : SNTokenizer :=
  mkTokenizer
    (map lit ["<super-notation-v1>"; "code:"; "x = 1"; "sign: SHA256-00";
              "close:"]) 1.

(** The keywords [_parse_node] tests for: those of [commands] but the
    last, meta:. *)
Definition node_keywords : list str :=
  [ lit "title:"; lit "sec:"; lit "sec="; lit "para:"; lit "break-line";
    lit "olist:"; lit "code:"; lit "img:="; lit "link:"; lit "linktxt:";
    lit "opensn="; lit "endnewsn:"; lit "sign:"; lit "close:" ].

(** ** Inline formatting *)

(** A text without braces and without the NUL character of the
    placeholders. *)
Definition plain_text (t : str) : bool :=
  negb (contains_char "{" t) && negb (contains_char "}" t)
  && negb (contains_char NUL t).

(** The five spans of [_format_inline]: the opening, in lower case, and
    the tags put around the text. *)
Definition span_tags : list (str * (str * str)) :=
  [ (lit "{b:", (lit "<strong>", lit "</strong>"));
    (lit "{bold:", (lit "<strong>", lit "</strong>"));
    (lit "{i:", (lit "<em>", lit "</em>"));
    (lit "{italic:", (lit "<em>", lit "</em>"));
    (lit "{u:", (lit "<u>", lit "</u>")) ].

(** A file with a list of an unknown type, and a file without header. *)
Definition bad_list_sn : str :=
  file_of [ "<super-notation-v1>"; "title: T"; " olist:circle "; "x" ].
Definition no_header_sn : str :=
  file_of [ "# a comment"; ""; "title: T"; "<super-notation-v1>" ].

(** * Properties *)

(** ** SHA-256: the published test vectors of the standard *)
Example sha256_empty :
  SHA256.hexdigest [] =
  lit "e3b0c44298fc1c149afbf4c8996fb92427ae41e4649b934ca495991b7852b855".
Proof. vm_compute. reflexivity. Qed.

Example sha256_abc :
  SHA256.hexdigest (lit "abc") =
  lit "ba7816bf8f01cfea414140de5dae2223b00361a396177a9cb410ff61f20015ad".
Proof. vm_compute. reflexivity. Qed.

Example sha256_two_blocks :
  SHA256.hexdigest
    (lit "abcdbcdecdefdefgefghfghighijhijkijkljklmklmnlmnomnopnopq") =
  lit "248d6a61d20638b8e5c026930c3e6039a33ce45964ff2167f6ecedd419db06c1".
Proof. vm_compute. reflexivity. Qed.

(** ** Text primitives *)

Lemma startswith_app : forall p s, startswith p (p ++ s) = true.
Proof.
  induction p as [|x p IH]; intros s; simpl; [reflexivity|].
  now rewrite Ascii.eqb_refl, IH.
Qed.

Lemma startswith_prefix : forall p s,
  startswith p s = true -> exists r, s = p ++ r.
Proof.
  induction p as [|x p IH]; intros s H; simpl in *.
  - now exists s.
  - destruct s as [|y s]; [discriminate|].
    apply andb_true_iff in H as [Hxy Hp].
    apply Ascii.eqb_eq in Hxy; subst y.
    destruct (IH _ Hp) as [r ->]. now exists r.
Qed.

Lemma list_eqb_eq : forall a b, list_eqb a b = true <-> a = b.
Proof.
  induction a as [|x a IH]; destruct b as [|y b]; simpl; split;
    try discriminate; try reflexivity; intros H.
  - apply andb_true_iff in H as [Hxy Hab].
    apply Ascii.eqb_eq in Hxy. apply IH in Hab. now subst.
  - injection H as -> ->. rewrite Ascii.eqb_refl. now apply IH.
Qed.

Lemma list_eqb_refl : forall a, list_eqb a a = true.
Proof. intros a. now apply list_eqb_eq. Qed.

(** The two steps of the rewriting scan. *)
Lemma rewrite_scan_here : forall m c r,
  rewrite_scan m 0 (c :: r) =
  match m (c :: r) with
  | Some (out, n) => out ++ rewrite_scan m (pred n) r
  | None => c :: rewrite_scan m 0 r
  end.
Proof. reflexivity. Qed.

Lemma rewrite_scan_skip : forall m k c r,
  rewrite_scan m (S k) (c :: r) = rewrite_scan m k r.
Proof. reflexivity. Qed.

(** Replacing a single character is a character-wise substitution. *)
Lemma replace_single : forall c new s,
  replace [c] new s =
  flat_map (fun x => if Ascii.eqb c x then new else [x]) s.
Proof.
  intros c new s. unfold replace.
  set (m := fun t : list ascii => _).
  induction s as [|a s IH]; [reflexivity|].
  rewrite rewrite_scan_here. unfold m at 1. cbn [startswith flat_map].
  destruct (Ascii.eqb c a); cbn [andb length pred app]; now rewrite IH.
Qed.

(** The unfolding of the CRLF replacement. *)
Lemma replace_crlf_crlf : forall r,
  replace [CR; LF] [LF] (CR :: LF :: r) = LF :: replace [CR; LF] [LF] r.
Proof. intros r. reflexivity. Qed.

Lemma replace_crlf_other : forall c r,
  startswith [CR; LF] (c :: r) = false ->
  replace [CR; LF] [LF] (c :: r) = c :: replace [CR; LF] [LF] r.
Proof.
  intros c r H. unfold replace. rewrite rewrite_scan_here. now rewrite H.
Qed.

Lemma cr_is_not_lf : Ascii.eqb CR LF = false.
Proof. reflexivity. Qed.

Lemma normalize_newlines_eq : forall s,
  normalize_newlines s = normalize_eol_spec s.
Proof.
  intros s. unfold normalize_newlines. rewrite replace_single.
  remember (length s) as n eqn:Hn.
  assert (Hle : length s <= n) by lia. clear Hn.
  revert s Hle. induction n as [|n IH]; intros s Hle.
  - destruct s; [reflexivity | simpl in Hle; lia].
  - destruct s as [|c r]; [reflexivity|].
    cbn [length] in Hle.
    destruct (Ascii.eqb c CR) eqn:Hc.
    + apply Ascii.eqb_eq in Hc; subst c.
      destruct r as [|c' r']; [reflexivity|].
      cbn [length] in Hle.
      destruct (Ascii.eqb c' LF) eqn:Hc'.
      * apply Ascii.eqb_eq in Hc'; subst c'.
        rewrite replace_crlf_crlf.
        cbn [flat_map normalize_eol_spec].
        rewrite !Ascii.eqb_refl, cr_is_not_lf. cbn [app].
        rewrite IH by lia. reflexivity.
      * rewrite replace_crlf_other
          by (cbn [startswith]; rewrite Ascii.eqb_refl, Ascii.eqb_sym, Hc';
              reflexivity).
        cbn [flat_map]. rewrite Ascii.eqb_refl. cbn [app].
        rewrite IH by (cbn [length]; lia).
        cbn [normalize_eol_spec]. rewrite Ascii.eqb_refl, Hc'. reflexivity.
    + rewrite replace_crlf_other
        by (cbn [startswith]; rewrite Ascii.eqb_sym, Hc; reflexivity).
      cbn [flat_map normalize_eol_spec].
      rewrite Ascii.eqb_sym, Hc. cbn [app].
      f_equal. apply IH. lia.
Qed.

(** ** Canonical bytes *)

Lemma chr_eqb_ord : forall a,
  (Ascii.eqb (chr 239) a = (ord a =? 239)%N) /\
  (Ascii.eqb (chr 187) a = (ord a =? 187)%N) /\
  (Ascii.eqb (chr 191) a = (ord a =? 191)%N).
Proof.
  intros a. destruct a as [[] [] [] [] [] [] [] []]; repeat split; reflexivity.
Qed.

Lemma strip_bom_spec : forall content,
  strip_bom content =
  match content with
  | a :: b :: c :: rest =>
      if ((ord a =? 239) && (ord b =? 187) && (ord c =? 191))%N
      then rest else content
  | _ => content
  end.
Proof.
  intros content. unfold strip_bom, BOM.
  destruct content as [|a [|b [|c rest]]]; cbn [startswith skipn].
  - reflexivity.
  - destruct (Ascii.eqb (chr 239) a); reflexivity.
  - destruct (Ascii.eqb (chr 239) a), (Ascii.eqb (chr 187) b); reflexivity.
  - destruct (chr_eqb_ord a) as [-> _].
    destruct (chr_eqb_ord b) as [_ [-> _]].
    destruct (chr_eqb_ord c) as [_ [_ ->]].
    now rewrite andb_true_r, andb_assoc.
Qed.

Lemma is_sign_line_spec : forall line,
  is_sign_line line = begins_with_sign line.
Proof. reflexivity. Qed.

(** The index found by the loop is the number of lines before the first
    signature line, and those lines are the first ones. *)
Lemma find_sign_line_spec : forall ls k,
  match lines_before_sign ls with
  | Some pre =>
      find_sign_line k ls = Some (k + length pre)
      /\ firstn (length pre) ls = pre
  | None => find_sign_line k ls = None
  end.
Proof.
  induction ls as [|l rest IH]; intros k; cbn [lines_before_sign find_sign_line].
  - reflexivity.
  - change (is_sign_line l) with (begins_with_sign l).
    destruct (begins_with_sign l).
    + cbn [length firstn]. split; [f_equal; lia | reflexivity].
    + specialize (IH (S k)).
      destruct (lines_before_sign rest) as [pre|]; cbn [option_map].
      * destruct IH as [Hf Hp]. cbn [length firstn].
        split; [rewrite Hf; f_equal; lia | now rewrite Hp].
      * exact IH.
Qed.

(** What [lines_before_sign] answers: the lines before the first line
    that begins with sign:, none of which does. *)
Lemma lines_before_sign_some : forall ls pre,
  lines_before_sign ls = Some pre <->
  exists l post,
    ls = pre ++ l :: post /\ begins_with_sign l = true
    /\ forallb (fun x => negb (begins_with_sign x)) pre = true.
Proof.
  induction ls as [|l rest IH]; intros pre; cbn [lines_before_sign].
  - split; [discriminate|].
    intros (l & post & H & _). destruct pre; discriminate.
  - destruct (begins_with_sign l) eqn:Hl.
    + split.
      * intros [= <-]. now exists l, rest.
      * intros (l' & post & H & Hl' & Hpre).
        destruct pre as [|p pre]; [reflexivity|].
        cbn in H. injection H as -> _.
        cbn [forallb] in Hpre. rewrite Hl in Hpre. discriminate.
    + split.
      * destruct (lines_before_sign rest) as [pre'|] eqn:Hr; [|discriminate].
        intros [= <-].
        destruct (proj1 (IH pre') eq_refl) as (l' & post & -> & Hl' & Hpre).
        exists l', post. cbn [forallb]. rewrite Hl. now repeat split.
      * intros (l' & post & H & Hl' & Hpre).
        destruct pre as [|p pre].
        -- cbn in H. injection H as -> _. congruence.
        -- cbn in H. injection H as -> ->.
           cbn [forallb] in Hpre. apply andb_true_iff in Hpre as [_ Hpre].
           assert (Hs : lines_before_sign (pre ++ l' :: post) = Some pre)
             by (apply IH; now exists l', post).
           now rewrite Hs.
Qed.

Lemma lines_before_sign_none : forall ls,
  lines_before_sign ls = None <->
  forallb (fun x => negb (begins_with_sign x)) ls = true.
Proof.
  induction ls as [|l rest IH]; cbn [lines_before_sign forallb].
  - tauto.
  - destruct (begins_with_sign l); cbn [negb andb].
    + split; discriminate.
    + rewrite <- IH. destruct (lines_before_sign rest); cbn; split;
        congruence.
Qed.

(** C4.  For every byte string, [canonical_bytes] computes what the
    specification describes: a leading UTF-8 byte-order mark EF BB BF is
    stripped, every CRLF and every lone CR becomes LF, the result is split
    on LF, and the answer is the lines strictly before the first line that,
    after stripping leading whitespace and case-folding, begins with sign:,
    rejoined with LF; without such a line it is the whole normalised
    content. *)
Theorem canonical_bytes_refines_spec : forall content,
  canonical_bytes content = canonical_bytes_spec content.
Proof.
  intros content. unfold canonical_bytes, canonical_bytes_spec.
  rewrite <- strip_bom_spec, normalize_newlines_eq.
  generalize (split LF (normalize_eol_spec (strip_bom content))).
  intros ls. pose proof (find_sign_line_spec ls 0) as H.
  destruct (lines_before_sign ls) as [pre|].
  - destruct H as [-> Hpre]. simpl. f_equal. exact Hpre.
  - now rewrite H.
Qed.

(** ** Signing: concrete runs *)

(** The file of [test_signing]: signing it in place and verifying the
    result reports a valid, sealed document, as the test expects. *)
Example test_signing_passes :
  let signed := snd (sign_file test_sign_sn true) in
  verify_signature signed = (true, msg_sealed (fst (sign_file test_sign_sn true))).
Proof. vm_compute. reflexivity. Qed.

(** C1, at a file whose last line is not terminated.  [sign_file] computes
    the signature over the bytes as they are, then rewrites the file with a
    line terminator and a blank line before the sign: line; the canonical
    bytes of the rewritten file end in a line feed the signed bytes did not
    have, and [verify_signature] reports a mismatch. *)
Theorem sign_then_verify_unterminated :
  sign_file unterminated_sn true =
    (lit "SHA256-717B5C036FF9D89D1B4EFBF2071133514C703416144E70051B1E3BB1EFD66AF6",
     file_of [ "<super-notation-v1>"; "para: x"; "";
               "sign: SHA256-717B5C036FF9D89D1B4EFBF2071133514C703416144E70051B1E3BB1EFD66AF6";
               "close:" ])
  /\ verify_signature (snd (sign_file unterminated_sn true)) =
       (false,
        msg_mismatch
          (lit "SHA256-3C500BC62908EBB077EA3A4E662C0F3BFC6D66176D12013B07DE74E84C162803")
          (lit "SHA256-717B5C036FF9D89D1B4EFBF2071133514C703416144E70051B1E3BB1EFD66AF6"))
  /\ has_close_marker (snd (sign_file unterminated_sn true)) = true.
Proof. vm_compute. repeat split. Qed.

(** C5, at a file whose last line is terminated.  [unsign_file] removes the
    sign: and close: lines and the line terminator of the last line with
    them, so signing again hashes other bytes than the first signing did. *)
Theorem sign_unsign_sign_terminated :
  fst (sign_file terminated_sn true) =
    lit "SHA256-3C500BC62908EBB077EA3A4E662C0F3BFC6D66176D12013B07DE74E84C162803"
  /\ unsign_file (snd (sign_file terminated_sn true)) = (true, unterminated_sn)
  /\ fst (sign_file (snd (unsign_file (snd (sign_file terminated_sn true)))) true) =
    lit "SHA256-717B5C036FF9D89D1B4EFBF2071133514C703416144E70051B1E3BB1EFD66AF6".
Proof. vm_compute. repeat split. Qed.

(** C2 as stated fails.  [crlf_signed_sn] carries a sign: line and
    verifies; deleting one byte before that line, the CR of its first CRLF,
    leaves the canonical bytes as they were, and the edited file verifies
    too. *)
Lemma tamper_crlf_still_valid :
  crlf_signed_sn = crlf_prefix ++ crlf_tail
  /\ startswith (lit "sign:") crlf_tail = true
  /\ length crlf_prefix_edited + 1 = length crlf_prefix
  /\ firstn 19 crlf_prefix_edited = firstn 19 crlf_prefix
  /\ skipn 19 crlf_prefix_edited = skipn 20 crlf_prefix
  /\ fst (verify_signature crlf_signed_sn) = true
  /\ verify_signature (crlf_prefix_edited ++ crlf_tail) =
       (true,
        msg_sealed
          (lit "SHA256-3C500BC62908EBB077EA3A4E662C0F3BFC6D66176D12013B07DE74E84C162803")).
Proof. vm_compute. repeat split. Qed.

(** ** The renderer *)

Lemma join_cons_cons : forall sep a b r,
  join sep (a :: b :: r) = a ++ sep :: join sep (b :: r).
Proof. reflexivity. Qed.

Lemma fold_left_items : forall (f : str -> str) items out,
  fold_left (fun o item => o ++ [f item]) items out = out ++ map f items.
Proof.
  induction items as [|i items IH]; intros out; cbn [fold_left map].
  - now rewrite app_nil_r.
  - rewrite IH, <- app_assoc. reflexivity.
Qed.

(** [_render_node] only appends to the output. *)
Lemma render_node_appends : forall n out,
  _render_node out n = out ++ fragments_of n.
Proof.
  intros n out. unfold fragments_of.
  destruct n; cbn [_render_node]; try reflexivity;
    try (now rewrite app_nil_r).
  rewrite !(fold_left_items
              (fun item => lit "    <li>" ++ _format_inline item ++ lit "</li>")).
  cbn [app]. now rewrite <- !app_assoc.
Qed.

Lemma render_nodes_appends : forall ns out,
  fold_left _render_node ns out = out ++ flat_map fragments_of ns.
Proof.
  induction ns as [|n ns IH]; intros out; cbn [fold_left flat_map].
  - now rewrite app_nil_r.
  - rewrite IH, render_node_appends, <- app_assoc. reflexivity.
Qed.

(** The loop of [_extract_title] finds the first Title node. *)
Lemma extract_title_first : forall ns,
  _extract_title_loop ns = first_title_or_fallback ns.
Proof.
  unfold first_title_or_fallback.
  induction ns as [|n ns IH]; [reflexivity|].
  destruct n; cbn [_extract_title_loop find is_TitleNode]; auto.
Qed.

(** The fragments of a rendering. *)
Lemma render_fragments : forall doc,
  render doc =
  join LF
    (shell_head (first_title_or_fallback (nodes doc))
       ++ flat_map fragments_of (nodes doc)
       ++ (if is_closed doc && truthy (signature doc)
           then [SEAL_BANNER] else [])
       ++ shell_tail).
Proof.
  intros doc. unfold render, _extract_title.
  rewrite render_nodes_appends, extract_title_first.
  fold (shell_head (first_title_or_fallback (nodes doc))). fold shell_tail.
  f_equal.
  destruct (is_closed doc && truthy (signature doc)).
  - now rewrite <- !app_assoc.
  - reflexivity.
Qed.

(** Escaped text holds no markup character. *)
Lemma html_escape_flat_map : forall s,
  html_escape s =
  flat_map (fun c =>
    if Ascii.eqb c "&" then lit "&amp;"
    else if Ascii.eqb c "<" then lit "&lt;"
    else if Ascii.eqb c ">" then lit "&gt;"
    else if Ascii.eqb c DQ then lit "&quot;"
    else if Ascii.eqb c "'" then lit "&#x27;"
    else [c]) s.
Proof.
  intros s. unfold html_escape, replace_char. rewrite !replace_single.
  induction s as [|c s IH]; [reflexivity|].
  cbn [flat_map]. rewrite !flat_map_app, IH. f_equal.
  destruct c as [[] [] [] [] [] [] [] []]; reflexivity.
Qed.

Lemma html_escape_no_markup : forall s c,
  In c (html_escape s) -> c <> "<"%char /\ c <> ">"%char /\ c <> DQ.
Proof.
  intros s c. rewrite html_escape_flat_map. rewrite in_flat_map.
  intros (x & _ & Hc).
  destruct (Ascii.eqb x "&"); [|destruct (Ascii.eqb x "<") eqn:E1;
    [|destruct (Ascii.eqb x ">") eqn:E2;
      [|destruct (Ascii.eqb x DQ) eqn:E3;
        [|destruct (Ascii.eqb x "'") eqn:E4]]]];
    cbn in Hc;
    try (repeat (destruct Hc as [<- | Hc]; [repeat split; discriminate|]);
         contradiction).
  destruct Hc as [<- | []].
  apply Ascii.eqb_neq in E1, E2, E3. now repeat split.
Qed.

(** C9.  The title element of the rendered head holds the text of the
    first Title node of the node sequence, or "Untitled Document" when
    there is none; the text is HTML-escaped and nothing else is done to it
    (no inline formatting), so it holds no angle bracket and the element
    ends at the closing tag that follows. *)
Theorem render_title_element : forall doc,
  exists rest,
    render doc =
      HEAD_TO_TITLE ++ html_escape (first_title_or_fallback (nodes doc))
        ++ lit "</title>" ++ rest
    /\ (forall c, In c (html_escape (first_title_or_fallback (nodes doc))) ->
        c <> "<"%char /\ c <> ">"%char).
Proof.
  intros doc. rewrite render_fragments.
  unfold shell_head. cbn [app].
  eexists. split.
  - rewrite !join_cons_cons. unfold HEAD_TO_TITLE.
    rewrite !join_cons_cons. cbn [join].
    repeat (rewrite <- app_assoc; cbn [app]).
    reflexivity.
  - intros c Hc. apply html_escape_no_markup in Hc. tauto.
Qed.

(** The seal banner is there exactly for a sealed document whose signature
    is a non-empty string. *)
Lemma banner_condition : forall doc,
  is_closed doc && truthy (signature doc) = true <->
  is_closed doc = true /\ exists c s, signature doc = Some (c :: s).
Proof.
  intros doc. rewrite andb_true_iff. unfold truthy.
  destruct (signature doc) as [[|c s]|]; split; intros [H1 H2];
    try discriminate; try (destruct H2 as (? & ? & ?); discriminate).
  - split; [assumption | now exists c, s].
  - now split.
Qed.

Lemma fragments_without_signature_and_seal : forall ns,
  flat_map fragments_of
    (filter (fun n => negb (is_SignatureNode n || is_CloseNode n)) ns) =
  flat_map fragments_of ns.
Proof.
  induction ns as [|n ns IH]; [reflexivity|].
  destruct n; cbn [filter is_SignatureNode is_CloseNode orb negb flat_map];
    rewrite IH; reflexivity.
Qed.

Lemma first_title_without_signature_and_seal : forall ns,
  first_title_or_fallback
    (filter (fun n => negb (is_SignatureNode n || is_CloseNode n)) ns) =
  first_title_or_fallback ns.
Proof.
  unfold first_title_or_fallback.
  induction ns as [|n ns IH]; [reflexivity|].
  destruct n; cbn [filter is_SignatureNode is_CloseNode orb negb find
                   is_TitleNode]; auto.
Qed.

(** C10.  Signature and SealMarker nodes add no fragment to the output;
    the rendering is the shell around the fragments of the nodes, with the
    single sealed banner after them exactly when the document is sealed
    and its signature is a non-empty string; and taking the Signature and
    SealMarker nodes out of the node sequence changes nothing. *)
Theorem signature_and_seal_render_as_banner_only : forall doc,
  (forall out s, _render_node out (SignatureNode s) = out)
  /\ (forall out, _render_node out CloseNode = out)
  /\ render doc =
       join LF
         (shell_head (first_title_or_fallback (nodes doc))
            ++ flat_map fragments_of (nodes doc)
            ++ (if is_closed doc && truthy (signature doc)
                then [SEAL_BANNER] else [])
            ++ shell_tail)
  /\ (is_closed doc && truthy (signature doc) = true <->
      is_closed doc = true /\ exists c s, signature doc = Some (c :: s))
  /\ render
       (set_nodes doc
          (filter (fun n => negb (is_SignatureNode n || is_CloseNode n))
                  (nodes doc))) =
     render doc.
Proof.
  intros doc. split; [|split; [|split; [|split]]].
  - reflexivity.
  - reflexivity.
  - apply render_fragments.
  - apply banner_condition.
  - rewrite !render_fragments. cbn [set_nodes nodes is_closed signature].
    now rewrite fragments_without_signature_and_seal,
                first_title_without_signature_and_seal.
Qed.

(** ** The parser: the sealed flag and the signature field *)

Lemma last_signature_snoc : forall ns n,
  last_signature (ns ++ [n]) =
  match n with
  | SignatureNode s => Some s
  | _ => last_signature ns
  end.
Proof.
  induction ns as [|m ns IH]; intros n; cbn [app last_signature].
  - destruct n; reflexivity.
  - rewrite IH. destruct n; reflexivity.
Qed.

Lemma existsb_close_snoc : forall ns n,
  existsb is_CloseNode (ns ++ [n]) =
  existsb is_CloseNode ns || is_CloseNode n.
Proof.
  intros ns n. rewrite existsb_app. cbn [existsb]. now rewrite orb_false_r.
Qed.

Lemma parse_body_agrees : forall mode fuel doc tk doc' tk',
  parse_body mode fuel doc tk = Ok (doc', tk') ->
  seal_and_signature_agree doc -> seal_and_signature_agree doc'.
Proof.
  intros mode. induction fuel as [|fuel IH]; intros doc tk doc' tk' H Hinv;
    cbn [parse_body] in H; unfold bind at 1, has_more in H;
    destruct (Nat.ltb (current_line tk) (length (lines tk)));
    try discriminate; try (injection H as <- _; exact Hinv).
  unfold bind at 1 in H.
  destruct (_parse_node mode tk) as [[[node|] tk1]| |]; try discriminate.
  2: { now apply IH in H. }
  destruct Hinv as [Hc Hs].
  assert (Hother :
    is_CloseNode node = false -> is_SignatureNode node = false ->
    seal_and_signature_agree (set_nodes doc (nodes doc ++ [node]))).
  { intros H1 H2. split; cbn [set_nodes is_closed nodes signature].
    - now rewrite existsb_close_snoc, H1, orb_false_r.
    - rewrite last_signature_snoc. destruct node; try assumption.
      discriminate. }
  destruct node;
    try (apply IH in H; [exact H | now apply Hother]).
  - (* EndNewSNNode *)
    destruct (is_strict mode).
    + injection H as <- _. now apply Hother.
    + apply IH in H; [exact H | now apply Hother].
  - (* SignatureNode *)
    apply IH in H; [exact H|].
    split; cbn [set_signature set_nodes is_closed nodes signature].
    + now rewrite existsb_close_snoc, orb_false_r.
    + now rewrite last_signature_snoc.
  - (* CloseNode *)
    apply IH in H; [exact H|].
    split; cbn [set_is_closed set_nodes is_closed nodes signature].
    + rewrite existsb_close_snoc. cbn [is_CloseNode]. now rewrite orb_true_r.
    + now rewrite last_signature_snoc.
Qed.

(** C8.  For every successfully parsed document, the sealed flag is true
    if and only if a SealMarker node is in the node sequence, and the
    signature field is the signature string of the last Signature node of
    the sequence, and None when the sequence has none. *)
Theorem parsed_seal_and_signature : forall mode content doc,
  parse mode content = Ok doc ->
  (is_closed doc = true <-> In CloseNode (nodes doc))
  /\ signature doc = last_signature (nodes doc)
  /\ (signature doc = None <->
      forall s, ~ In (SignatureNode s) (nodes doc)).
Proof.
  intros mode content doc H. unfold parse in H.
  destruct (parse_from mode (new_tokenizer content)) as [[d tk]| |] eqn:Hp;
    try discriminate.
  injection H as ->.
  unfold parse_from, bind in Hp.
  destruct (_parse_header (new_tokenizer content)) as [[ok tk0]| |];
    try discriminate.
  destruct ok; cbn [negb] in Hp; [|discriminate].
  destruct (_parse_metadata tk0) as [[md tk1]| |]; try discriminate.
  apply parse_body_agrees in Hp; [|split; reflexivity].
  destruct Hp as [Hc Hs]. split; [|split].
  - rewrite Hc, existsb_exists. split.
    + intros (n & Hin & Hn). destruct n; try discriminate. exact Hin.
    + intros Hin. now exists CloseNode.
  - exact Hs.
  - rewrite Hs. clear. induction (nodes doc) as [|n ns IH];
      cbn [last_signature].
    + split; [intros _ s [] | reflexivity].
    + destruct (last_signature ns) as [s|].
      * split; [discriminate|]. intros Hn.
        assert (Hsome : Some s = None) by (apply IH; intros s' Hin;
          apply (Hn s'); now right). discriminate.
      * destruct n; try (split; [intros _ s' [Hin|Hin];
          [discriminate | now apply (proj1 IH eq_refl s')]
          | reflexivity]).
        split; [discriminate|]. intros Hn. exfalso.
        apply (Hn signature0). now left.
Qed.

(** An instance: the signed and sealed sample document, parsed in strict
    mode. *)
Lemma parsed_seal_and_signature_witness :
  parse STRICT signed_hi_sn = Ok signed_hi_doc
  /\ ((is_closed signed_hi_doc = true <-> In CloseNode (nodes signed_hi_doc))
      /\ signature signed_hi_doc = last_signature (nodes signed_hi_doc)
      /\ (signature signed_hi_doc = None <->
          forall s, ~ In (SignatureNode s) (nodes signed_hi_doc))).
Proof.
  split.
  - vm_compute. reflexivity.
  - apply (parsed_seal_and_signature STRICT signed_hi_sn).
    vm_compute. reflexivity.
Defined.

(** ** Stripping *)

Lemma takewhile_dropwhile : forall p s, takewhile p s ++ dropwhile p s = s.
Proof.
  induction s as [|c s IH]; [reflexivity|].
  cbn [takewhile dropwhile]. destruct (p c); [cbn; now rewrite IH | reflexivity].
Qed.

Lemma dropwhile_app_stop : forall p u c v,
  p c = false -> dropwhile p (u ++ c :: v) = dropwhile p u ++ c :: v.
Proof.
  induction u as [|x u IH]; intros c v Hc; cbn [app dropwhile].
  - now rewrite Hc.
  - destruct (p x); [now apply IH | reflexivity].
Qed.

(** What [rstrip] removes is a suffix. *)
Lemma rstrip_by_suffix : forall p x, exists w, x = rstrip_by p x ++ w.
Proof.
  intros p x. unfold rstrip_by. exists (rev (takewhile p (rev x))).
  rewrite <- rev_app_distr, takewhile_dropwhile. now rewrite rev_involutive.
Qed.

(** [rstrip] stops at a character that is not white space. *)
Lemma rstrip_by_keep : forall p a c r,
  p c = false -> rstrip_by p (a ++ c :: r) = a ++ c :: rstrip_by p r.
Proof.
  intros p a c r Hc. unfold rstrip_by.
  rewrite rev_app_distr. cbn [rev]. rewrite <- app_assoc. cbn [app].
  rewrite dropwhile_app_stop by assumption.
  rewrite rev_app_distr. cbn [rev]. rewrite rev_involutive, <- app_assoc.
  reflexivity.
Qed.

Lemma startswith_app_l : forall p a b,
  startswith p a = true -> startswith p (a ++ b) = true.
Proof.
  intros p a b H. apply startswith_prefix in H as [r ->].
  rewrite <- app_assoc. apply startswith_app.
Qed.

Lemma lower_app : forall a b, lower (a ++ b) = lower a ++ lower b.
Proof. intros a b. apply map_app. Qed.

(** ** The parser: one node *)

Lemma strip_head : forall line c r,
  strip line = c :: r -> exists r', lstrip line = c :: r'.
Proof.
  intros line c r H. unfold strip, strip_by in H.
  destruct (rstrip_by_suffix str_isspace (lstrip_by str_isspace line))
    as [w Hw].
  rewrite H in Hw. exists (r ++ w). exact Hw.
Qed.

(** A line whose stripped, lower-cased text starts with a letter is
    neither blank nor a comment. *)
Lemma keyword_line_is_content : forall line c r,
  lower (strip line) = c :: r -> c <> "#"%char ->
  is_blank line = false /\ is_comment line = false.
Proof.
  intros line c r H Hc.
  destruct (strip line) as [|c0 s0] eqn:Hs; [discriminate|].
  cbn [lower map] in H. injection H as Hc0 _.
  split.
  - unfold is_blank. now rewrite Hs.
  - unfold is_comment. destruct (strip_head _ Hs) as [r' ->].
    change (startswith (lit "#") (c0 :: r'))
      with (Ascii.eqb "#" c0 && true).
    destruct (Ascii.eqb_spec "#" c0) as [<-|]; [|reflexivity].
    subst c. now contradiction Hc.
Qed.

(** C3, amended.  A line that, trimmed and lower-cased, begins with sec= or
    opensn= and does not match the pattern of its command is consumed and
    then treated as an unrecognised command: in strict mode the parse
    fails with the unknown-command error that quotes the line; in lenient
    mode an Unrecognized node holding the raw line is emitted. *)
Theorem malformed_link_line_is_unknown : forall kw mode tk line,
  kw = lit "sec=" \/ kw = lit "opensn=" ->
  nth_error (lines tk) (current_line tk) = Some line ->
  startswith kw (lower (strip line)) = true ->
  re_match_keyed kw (strip line) = None ->
  match mode with
  | STRICT =>
      _parse_node mode tk =
      Raise (lit "Unknown command in strict mode: " ++ line)
  | LENIENT =>
      exists tk',
        _parse_node mode tk = Ok (Some (UnknownNode line), tk')
        /\ lines tk' = lines tk
        /\ current_line tk < current_line tk'
  end.
Proof.
  intros kw mode tk line Hkw Hpeek Hstart Hnomatch.
  destruct (startswith_prefix _ _ Hstart) as [r Hlower].
  assert (Hcontent : is_blank line = false /\ is_comment line = false).
  { destruct Hkw; subst kw;
      apply (keyword_line_is_content line Hlower); discriminate. }
  destruct Hcontent as [Hblank Hcomment].
  destruct mode; unfold _parse_node;
    unfold bind at 1, peek_line; rewrite Hpeek, Hblank, Hcomment;
    cbn [orb]; rewrite Hlower;
    (destruct Hkw; subst kw; rewrite Hnomatch;
     cbv [lit list_ascii_of_string app startswith list_eqb Ascii.eqb
          Bool.eqb andb orb];
     cbv [and_then bind goes_on returns ret consume_line is_strict
          raise_ValueError];
     rewrite Hpeek; cbn [lines current_line]);
    try reflexivity;
    (destruct (nth_error (lines tk) (S (current_line tk)));
     eexists; (split; [reflexivity | split; [reflexivity | cbn; lia]])).
Qed.

(** An instance: the line sec=abc of the sample document, in strict
    mode. *)
Lemma malformed_link_line_is_unknown_witness :
  nth_error (lines (mkTokenizer (split LF malformed_sec_sn) 1)) 1 =
    Some (lit "sec=abc")
  /\ startswith (lit "sec=") (lower (strip (lit "sec=abc"))) = true
  /\ re_match_keyed (lit "sec=") (strip (lit "sec=abc")) = None
  /\ _parse_node STRICT (mkTokenizer (split LF malformed_sec_sn) 1) =
       Raise (lit "Unknown command in strict mode: sec=abc").
Proof.
  split; [reflexivity | split; [reflexivity | split; [reflexivity|]]].
  apply (@malformed_link_line_is_unknown (lit "sec=") STRICT
           (mkTokenizer (split LF malformed_sec_sn) 1) (lit "sec=abc")).
  - left. reflexivity.
  - reflexivity.
  - reflexivity.
  - reflexivity.
Defined.

(** C3 as stated fails.  The line sec=abc begins with sec= and does not
    match the pattern (it has no colon).  In strict mode the parse raises;
    in lenient mode a node is emitted for the line.  (The lenient run also
    shows the line after the malformed one, para: next, consumed without a
    node.) *)
Lemma malformed_sec_line_not_swallowed :
  startswith (lit "sec=") (lower (strip (lit "sec=abc"))) = true
  /\ re_match_keyed (lit "sec=") (strip (lit "sec=abc")) = None
  /\ parse STRICT malformed_sec_sn =
       Raise (lit "Unknown command in strict mode: sec=abc")
  /\ parse LENIENT malformed_sec_sn =
       Ok (mkDocument (lit "v1") []
             [ UnknownNode (lit "sec=abc"); ParagraphNode (lit "after") ]
             false None).
Proof. vm_compute. repeat split. Qed.

(** ** The parser: lists *)

Lemma skipn_cons_inv : forall (A : Type) (l : list A) n x r,
  skipn n l = x :: r ->
  nth_error l n = Some x /\ skipn (S n) l = r /\ n < length l.
Proof.
  intros A l. induction l as [|a l IH]; intros n x r H.
  - destruct n; discriminate.
  - destruct n as [|n].
    + cbn in H. injection H as -> ->. cbn. repeat split. lia.
    + cbn [skipn] in H. destruct (IH _ _ _ H) as (H1 & H2 & H3).
      cbn [nth_error length]. repeat split; [assumption | assumption | lia].
Qed.

Lemma skipn_nil_inv : forall (A : Type) (l : list A) n,
  skipn n l = [] -> length l <= n.
Proof.
  intros A l n H. apply (f_equal (@length A)) in H.
  rewrite length_skipn in H. cbn in H. lia.
Qed.

(** The loop of [_parse_list] takes the lines that go on the list and
    stops, without consuming it, at the first line that does not. *)
Lemma parse_list_loop_spec : forall body rest ls cur fuel items,
  skipn cur ls = body ++ rest ->
  forallb continues_list body = true ->
  match rest with [] => True | stop :: _ => continues_list stop = false end ->
  length (body ++ rest) <= fuel ->
  _parse_list_loop fuel items (mkTokenizer ls cur) =
  Ok (items ++ items_of body, mkTokenizer ls (cur + length body)).
Proof.
  induction body as [|l body IH]; intros rest ls cur fuel items Hs Hb Hr Hf.
  - cbn [app] in Hs. cbn [length Nat.add items_of filter map].
    rewrite Nat.add_0_r, app_nil_r.
    destruct rest as [|stop rest'].
    + apply skipn_nil_inv in Hs.
      destruct fuel; cbn [_parse_list_loop]; unfold bind, has_more;
        cbv beta iota delta [lines current_line];
        (replace (Nat.ltb cur (length ls)) with false
           by (symmetry; apply Nat.ltb_ge; lia)); reflexivity.
    + destruct (skipn_cons_inv _ _ Hs) as (Hn & _ & Hlt).
      destruct fuel as [|fuel]; [cbn in Hf; lia|].
      cbn [_parse_list_loop]. unfold bind, has_more, peek_line, ret.
      cbv beta iota delta [lines current_line].
      replace (Nat.ltb cur (length ls)) with true
        by (symmetry; apply Nat.ltb_lt; lia).
      rewrite Hn. unfold continues_list in Hr.
      destruct (is_blank stop); [reflexivity|].
      destruct (is_comment stop); [discriminate|].
      destruct (_looks_like_command stop); [reflexivity | discriminate].
  - cbn [app] in Hs. destruct (skipn_cons_inv _ _ Hs) as (Hn & Hs' & Hlt).
    cbn [forallb] in Hb. apply andb_true_iff in Hb as [Hl Hb].
    destruct fuel as [|fuel]; [cbn in Hf; lia|].
    cbn [app length] in Hf.
    cbn [_parse_list_loop].
    unfold bind at 1, has_more. cbv beta iota delta [lines current_line].
    replace (Nat.ltb cur (length ls)) with true
      by (symmetry; apply Nat.ltb_lt; lia).
    unfold bind at 1, peek_line. cbv beta iota delta [lines current_line]. rewrite Hn.
    unfold continues_list in Hl. unfold items_of. cbn [filter length].
    destruct (is_blank l); [discriminate|].
    destruct (is_comment l).
    + unfold bind at 1, consume_line. cbv beta iota delta [lines current_line]; cbn [negb].
      rewrite Hn.
      rewrite (IH rest ls (S cur) fuel items Hs' Hb Hr) by lia.
      do 3 f_equal. lia.
    + destruct (_looks_like_command l); [discriminate|].
      unfold bind at 1, consume_line. cbv beta iota delta [lines current_line]; cbn [negb map].
      rewrite Hn.
      rewrite (IH rest ls (S cur) fuel (items ++ [strip l]) Hs' Hb Hr) by lia.
      unfold items_of. rewrite <- app_assoc. cbn [app].
      do 3 f_equal. lia.
Qed.

Lemma lower_firstn : forall n s, lower (firstn n s) = firstn n (lower s).
Proof. intros n s. unfold lower. now rewrite firstn_map. Qed.

Lemma lower_skipn : forall n s, lower (skipn n s) = skipn n (lower s).
Proof. intros n s. unfold lower. now rewrite skipn_map. Qed.

(** [_parse_list]: the pattern is matched at the start of the line, and
    the text after the keyword is ignored. *)
Lemma parse_list_spec : forall first_line tk line body rest,
  skipn (current_line tk) (lines tk) = line :: body ++ rest ->
  forallb continues_list body = true ->
  match rest with [] => True | stop :: _ => continues_list stop = false end ->
  _parse_list first_line tk =
  let tk' := mkTokenizer (lines tk) (current_line tk + 1 + length body) in
  if startswith (lit "olist:bullet") (lower first_line)
  then Ok (ListNode (lit "bullet") (items_of body), tk')
  else if startswith (lit "olist:numbers") (lower first_line)
       then Ok (ListNode (lit "numbers") (items_of body), tk')
       else Raise (lit "Invalid list type: " ++ first_line).
Proof.
  intros first_line tk line body rest Hs Hb Hr.
  destruct (skipn_cons_inv _ _ Hs) as (Hn & Hs' & Hlt).
  assert (Hloop : forall items,
    _parse_list_loop
      (remaining (mkTokenizer (lines tk) (S (current_line tk)))) items
      (mkTokenizer (lines tk) (S (current_line tk))) =
    Ok (items ++ items_of body,
        mkTokenizer (lines tk) (current_line tk + 1 + length body))).
  { intros items.
    rewrite (@parse_list_loop_spec body rest (lines tk) (S (current_line tk))
               _ items Hs' Hb Hr).
    - replace (current_line tk + 1 + length body)
        with (S (current_line tk) + length body) by lia.
      reflexivity.
    - unfold remaining. cbn [lines current_line].
      rewrite <- Hs', length_skipn. lia. }
  unfold _parse_list, re_match_olist.
  destruct (startswith (lit "olist:bullet") (lower first_line)) eqn:Hbul;
    [|destruct (startswith (lit "olist:numbers") (lower first_line)) eqn:Hnum].
  - unfold bind, consume_line, ret. rewrite Hn, Hloop. cbn [app].
    rewrite lower_firstn, lower_skipn.
    apply startswith_prefix in Hbul as [r ->]. reflexivity.
  - unfold bind, consume_line, ret. rewrite Hn, Hloop. cbn [app].
    rewrite lower_firstn, lower_skipn.
    apply startswith_prefix in Hnum as [r ->]. reflexivity.
  - reflexivity.
Qed.

(** A line that begins with olist: goes to [_parse_list]. *)
Lemma parse_node_olist : forall mode tk line,
  nth_error (lines tk) (current_line tk) = Some line ->
  startswith (lit "olist:") (lower (strip line)) = true ->
  _parse_node mode tk =
  match _parse_list (strip line) tk with
  | Ok (node, tk') => Ok (Some node, tk')
  | Raise e => Raise e
  | OutOfFuel => OutOfFuel
  end.
Proof.
  intros mode tk line Hpeek Hstart.
  destruct (startswith_prefix _ _ Hstart) as [r Hlower].
  destruct (keyword_line_is_content line Hlower) as [Hblank Hcomment];
    [discriminate|].
  unfold _parse_node.
  unfold bind at 1, peek_line. rewrite Hpeek, Hblank, Hcomment.
  cbn [orb]. rewrite Hlower.
  cbv [lit list_ascii_of_string app startswith list_eqb Ascii.eqb
       Bool.eqb andb orb].
  cbv [and_then bind goes_on returns ret].
  destruct (_parse_list (strip line) tk) as [[node tk']| |]; reflexivity.
Qed.

(** C7, amended.  Among lines of ASCII characters, a body line that
    begins (case-insensitively) with olist: parses if and only if,
    trimmed, it begins with olist:bullet or olist:numbers
    (case-insensitively; what follows the keyword on the line is
    ignored), and fails otherwise with the invalid-list-type error that
    quotes the trimmed line.  On success the lines after it that go on the
    list (neither blank nor a command, comments included) are consumed,
    those that are not comments becoming the items, trimmed; the blank
    line or command line that ends the list is not consumed.  The olist:
    line, the lines of the list and the line that ends it are taken to be
    ASCII: they are trimmed, folded and matched as text. *)
Theorem olist_line_parses : forall mode tk line body rest,
  skipn (current_line tk) (lines tk) = line :: body ++ rest ->
  startswith (lit "olist:") (lower (strip line)) = true ->
  forallb continues_list body = true ->
  match rest with [] => True | stop :: _ => continues_list stop = false end ->
  ascii_text line = true ->
  forallb ascii_text body = true ->
  ascii_text (hd [] rest) = true ->
  _parse_node mode tk =
  let tk' := mkTokenizer (lines tk) (current_line tk + 1 + length body) in
  if startswith (lit "olist:bullet") (lower (strip line))
  then Ok (Some (ListNode (lit "bullet") (items_of body)), tk')
  else if startswith (lit "olist:numbers") (lower (strip line))
       then Ok (Some (ListNode (lit "numbers") (items_of body)), tk')
       else Raise (lit "Invalid list type: " ++ strip line).
Proof.
  intros mode tk line body rest Hs Hstart Hb Hr _ _ _.
  destruct (skipn_cons_inv _ _ Hs) as (Hn & _ & _).
  rewrite (@parse_node_olist mode tk line Hn Hstart).
  rewrite (@parse_list_spec (strip line) tk line body rest Hs Hb Hr).
  cbv zeta.
  destruct (startswith (lit "olist:bullet") (lower (strip line)));
    [reflexivity|].
  destruct (startswith (lit "olist:numbers") (lower (strip line)));
    reflexivity.
Qed.

(** An instance: the list of the sample document, whose first line is
    olist:bulletin. *)
Lemma olist_line_parses_witness :
  skipn 1 (split LF bulletin_sn) =
    lit "olist:bulletin"
      :: [lit "first"; lit "# note"; lit " second "] ++ [lit "para: after"]
  /\ startswith (lit "olist:") (lower (strip (lit "olist:bulletin"))) = true
  /\ forallb continues_list [lit "first"; lit "# note"; lit " second "] = true
  /\ continues_list (lit "para: after") = false
  /\ ascii_text (lit "olist:bulletin") = true
  /\ forallb ascii_text [lit "first"; lit "# note"; lit " second "] = true
  /\ ascii_text (hd [] [lit "para: after"]) = true
  /\ _parse_node STRICT (mkTokenizer (split LF bulletin_sn) 1) =
       Ok (Some (ListNode (lit "bullet") [lit "first"; lit "second"]),
           mkTokenizer (split LF bulletin_sn) 5).
Proof.
  split; [reflexivity | split; [reflexivity | split; [reflexivity |
    split; [reflexivity | split; [reflexivity | split; [reflexivity |
    split; [reflexivity|]]]]]]].
  apply (@olist_line_parses STRICT (mkTokenizer (split LF bulletin_sn) 1)
           (lit "olist:bulletin")
           [lit "first"; lit "# note"; lit " second "]
           [lit "para: after"]); reflexivity.
Defined.

(** C7 as stated fails.  The line olist:bulletin is neither olist:bullet
    nor olist:numbers, and it parses, in both modes, as a bulleted list. *)
Lemma olist_prefix_match_accepted :
  list_eqb (lower (strip (lit "olist:bulletin"))) (lit "olist:bullet") = false
  /\ list_eqb (lower (strip (lit "olist:bulletin"))) (lit "olist:numbers")
     = false
  /\ parse STRICT bulletin_sn =
       Ok (mkDocument (lit "v1") []
             [ ListNode (lit "bullet") [lit "first"; lit "second"];
               ParagraphNode (lit "after") ]
             false None)
  /\ parse LENIENT bulletin_sn = parse STRICT bulletin_sn.
Proof. vm_compute. repeat split. Qed.

(** ** Verification *)

Lemma lower_char_colon : forall c, lower_char c = ":"%char -> c = ":"%char.
Proof.
  intros c. destruct c as [[] [] [] [] [] [] [] []]; vm_compute;
    intros H; try reflexivity; discriminate.
Qed.

(** A text that begins with sign:, whatever the case of its letters. *)
Lemma sign_line_shape : forall x,
  startswith (lit "sign:") (lower x) = true ->
  exists a r, x = a ++ ":"%char :: r /\ lower a = lit "sign".
Proof.
  intros x H. apply startswith_prefix in H as [r0 H].
  destruct x as [|c1 [|c2 [|c3 [|c4 [|c5 r]]]]]; try discriminate.
  cbn in H. injection H as H1 H2 H3 H4 H5 _.
  apply lower_char_colon in H5. subst c5.
  exists [c1; c2; c3; c4], r. split; [reflexivity|].
  cbn. now rewrite H1, H2, H3, H4.
Qed.

(** Stripping on the right does not change whether a line begins with
    sign:, so [extract_signature] and [canonical_bytes] pick the same
    line. *)
Lemma sign_line_strip : forall l,
  startswith (lit "sign:") (lower (bytes_strip l)) = is_sign_line l.
Proof.
  intros l. unfold is_sign_line, bytes_strip, strip_by, bytes_lstrip.
  set (x := lstrip_by bytes_isspace l).
  destruct (startswith (lit "sign:") (lower x)) eqn:Hx.
  - destruct (sign_line_shape x Hx) as (a & r & Hxa & Ha).
    rewrite Hxa, rstrip_by_keep by reflexivity.
    rewrite lower_app, Ha. reflexivity.
  - destruct (startswith (lit "sign:") (lower (rstrip_by bytes_isspace x)))
      eqn:Hr; [|reflexivity].
    destruct (rstrip_by_suffix bytes_isspace x) as [w Hw].
    rewrite Hw, lower_app, (startswith_app_l _ _ _ Hr) in Hx. discriminate.
Qed.

Lemma sign_line_has_colon : forall l,
  is_sign_line l = true -> contains_char ":" (bytes_strip l) = true.
Proof.
  intros l H. rewrite <- sign_line_strip in H.
  destruct (sign_line_shape _ H) as (a & r & -> & _).
  unfold contains_char. rewrite existsb_app. cbn [existsb].
  rewrite Ascii.eqb_refl. now rewrite orb_true_r.
Qed.

(** [extract_signature] answers with the value of the first sign: line. *)
Lemma extract_signature_first : forall before sign_line after,
  forallb (fun l => negb (is_sign_line l)) before = true ->
  is_sign_line sign_line = true ->
  extract_signature_loop (before ++ sign_line :: after) =
  Some (sign_value sign_line).
Proof.
  induction before as [|l before IH]; intros sl after Hb Hs;
    cbn [app extract_signature_loop].
  - rewrite sign_line_strip, Hs, (sign_line_has_colon _ Hs). reflexivity.
  - cbn [forallb] in Hb. apply andb_true_iff in Hb as [Hl Hb].
    rewrite sign_line_strip. apply negb_true_iff in Hl. rewrite Hl.
    now apply IH.
Qed.

(** [canonical_bytes] answers with the lines before the first sign:
    line. *)
Lemma canonical_bytes_first : forall content before sign_line after,
  file_lines content = before ++ sign_line :: after ->
  forallb (fun l => negb (is_sign_line l)) before = true ->
  is_sign_line sign_line = true ->
  canonical_bytes content = join LF before.
Proof.
  intros content before sl after Hl Hb Hs.
  unfold canonical_bytes. fold (file_lines content). rewrite Hl.
  assert (H : lines_before_sign (before ++ sl :: after) = Some before)
    by (apply lines_before_sign_some; now exists sl, after).
  pose proof (find_sign_line_spec (before ++ sl :: after) 0) as Hf.
  rewrite H in Hf. destruct Hf as [-> Hfirst]. cbn [Nat.add].
  f_equal. exact Hfirst.
Qed.

(** C2, amended.  Take a file, edited before its sign: line: its lines
    are the edited lines [before], none of them a sign: line, then the
    sign: line, of ASCII characters, then whatever followed.  The
    signature is recomputed over the lines before the sign: line, and when
    it differs from the value on that line, [verify_signature] reports the
    file invalid with the mismatch message that shows the expected
    (recomputed) value and the found (extracted) one.  The sign: line is
    taken to be ASCII because its value is decoded and trimmed as text;
    the lines before it and after it are any bytes. *)
Theorem edit_before_sign_line_detected :
  forall edited before sign_line after,
  file_lines edited = before ++ sign_line :: after ->
  forallb (fun l => negb (is_sign_line l)) before = true ->
  is_sign_line sign_line = true ->
  ascii_text sign_line = true ->
  compute_signature edited <> sign_value sign_line ->
  compute_signature edited =
    lit "SHA256-" ++ upper (SHA256.hexdigest (join LF before))
  /\ verify_signature edited =
     (false,
      msg_mismatch (compute_signature edited) (sign_value sign_line)).
Proof.
  intros edited before sl after Hl Hb Hs _ Hne. split.
  - unfold compute_signature.
    now rewrite (@canonical_bytes_first edited before sl after Hl Hb Hs).
  - unfold verify_signature, extract_signature.
    fold (file_lines edited). rewrite Hl.
    rewrite (@extract_signature_first before sl after Hb Hs).
    destruct (list_eqb (sign_value sl) (compute_signature edited)) eqn:He;
      [|reflexivity].
    apply list_eqb_eq in He. now contradiction Hne.
Qed.

(** The other side: an edit that leaves the recomputed signature equal to
    the value on the sign: line leaves the file valid. *)
Lemma edit_before_sign_line_undetected :
  forall edited before sign_line after,
  file_lines edited = before ++ sign_line :: after ->
  forallb (fun l => negb (is_sign_line l)) before = true ->
  is_sign_line sign_line = true ->
  compute_signature edited = sign_value sign_line ->
  fst (verify_signature edited) = true.
Proof.
  intros edited before sl after Hl Hb Hs He.
  unfold verify_signature, extract_signature.
  fold (file_lines edited). rewrite Hl.
  rewrite (@extract_signature_first before sl after Hb Hs), He, list_eqb_refl.
  now destruct (has_close_marker edited).
Qed.

(** An instance: the signed test file with a paragraph inserted before
    its sign: line. *)
Lemma edit_before_sign_line_detected_witness :
  file_lines test_sign_modified_sn =
    modified_before ++ modified_sign_line :: [lit "close:"]
  /\ forallb (fun l => negb (is_sign_line l)) modified_before = true
  /\ is_sign_line modified_sign_line = true
  /\ ascii_text modified_sign_line = true
  /\ compute_signature test_sign_modified_sn <> sign_value modified_sign_line
  /\ (compute_signature test_sign_modified_sn =
        lit "SHA256-" ++ upper (SHA256.hexdigest (join LF modified_before))
      /\ verify_signature test_sign_modified_sn =
           (false,
            msg_mismatch (compute_signature test_sign_modified_sn)
                         (sign_value modified_sign_line))).
Proof.
  assert (Hne : compute_signature test_sign_modified_sn
                <> sign_value modified_sign_line)
    by (vm_compute; intros H; discriminate H).
  split; [reflexivity | split; [reflexivity | split; [reflexivity |
    split; [reflexivity | split; [exact Hne|]]]]].
  apply (@edit_before_sign_line_detected test_sign_modified_sn
           modified_before modified_sign_line [lit "close:"]).
  - reflexivity.
  - reflexivity.
  - reflexivity.
  - reflexivity.
  - exact Hne.
Defined.

(** The run of [test_signature_invalidation], spelled out. *)
Example test_signature_invalidation_passes :
  verify_signature test_sign_modified_sn =
  (false,
   msg_mismatch
     (lit "SHA256-CD4307DC7DDEE92E211216ECA04C05EB13A5B2CF892DA0D90B295FAD8B02911A")
     (lit "SHA256-F23EE7C1E059B74B7FA8E9B2A37B0C0F881403EA1ECA3B2D3BEA51A6B8EBE022")).
Proof. vm_compute. reflexivity. Qed.

(** ** Inline formatting *)

(** A scan whose pattern cannot start at any character of the text leaves
    the text as it is. *)
Lemma rewrite_scan_inert : forall m s,
  (forall c r, In c s -> m (c :: r) = None) -> rewrite_scan m 0 s = s.
Proof.
  intros m. induction s as [|a s IH]; intros H; [reflexivity|].
  rewrite rewrite_scan_here, (H a s (or_introl eq_refl)).
  f_equal. apply IH. intros c r Hc. apply H. now right.
Qed.

Lemma contains_char_false : forall c s,
  contains_char c s = false -> forall x, In x s -> Ascii.eqb c x = false.
Proof.
  intros c s H x Hx. unfold contains_char in H.
  destruct (Ascii.eqb c x) eqn:E; [|reflexivity].
  assert (Ht : existsb (Ascii.eqb c) s = true)
    by (apply existsb_exists; now exists x).
  congruence.
Qed.

Lemma contains_char_app : forall c a b,
  contains_char c (a ++ b) = contains_char c a || contains_char c b.
Proof. intros c a b. apply existsb_app. Qed.

Lemma replace_inert : forall c old new s,
  contains_char c s = false -> replace (c :: old) new s = s.
Proof.
  intros c old new s H. unfold replace. apply rewrite_scan_inert.
  intros x r Hx. cbn [startswith].
  now rewrite (contains_char_false _ _ H x Hx).
Qed.

Lemma lower_char_brace : forall c,
  Ascii.eqb "{" c = false -> Ascii.eqb "{" (lower_char c) = false.
Proof.
  intros c. destruct c as [[] [] [] [] [] [] [] []]; vm_compute;
    intros H; try reflexivity; discriminate.
Qed.

Lemma sub_span_inert : forall open before after s,
  contains_char "{" s = false ->
  sub_span ("{"%char :: open) before after s = s.
Proof.
  intros open before after s H. unfold sub_span. apply rewrite_scan_inert.
  intros x r Hx. unfold span_match. cbn [lower map startswith].
  now rewrite (lower_char_brace _ (contains_char_false _ _ H x Hx)).
Qed.

Lemma sub_color_inert : forall s,
  contains_char "{" s = false -> sub_color s = s.
Proof.
  intros s H. unfold sub_color. apply rewrite_scan_inert.
  intros x r Hx. unfold color_match.
  change (lit "{color=") with ("{"%char :: lit "color=").
  cbn [lower map startswith].
  now rewrite (lower_char_brace _ (contains_char_false _ _ H x Hx)).
Qed.

Lemma startswith_needs : forall p s c,
  In c p -> contains_char c s = false -> startswith p s = false.
Proof.
  intros p s c Hp Hs.
  destruct (startswith p s) eqn:E; [|reflexivity].
  apply startswith_prefix in E as [r ->].
  rewrite contains_char_app in Hs. apply orb_false_iff in Hs as [Hs _].
  apply (contains_char_false _ _ Hs) in Hp.
  now rewrite Ascii.eqb_refl in Hp.
Qed.

Lemma html_escape_app : forall a b,
  html_escape (a ++ b) = html_escape a ++ html_escape b.
Proof. intros a b. rewrite !html_escape_flat_map. apply flat_map_app. Qed.

(** Escaping brings in none of the characters the formatting looks
    for. *)
Lemma html_escape_keeps_absent : forall c s,
  contains_char c (lit "&amp;&lt;&gt;&quot;&#x27;") = false ->
  contains_char c s = false -> contains_char c (html_escape s) = false.
Proof.
  intros c s Hent Hs. rewrite html_escape_flat_map.
  induction s as [|x s IH]; [reflexivity|].
  cbn [flat_map]. rewrite contains_char_app.
  unfold contains_char in Hs. cbn [existsb] in Hs.
  apply orb_false_iff in Hs as [Hx Hs]. rewrite (IH Hs), orb_false_r.
  clear IH Hs.
  repeat match goal with
         | |- context [if ?b then _ else _] => destruct b
         end;
    try (revert Hent; destruct c as [[] [] [] [] [] [] [] []];
         vm_compute; intros Hent; try reflexivity; discriminate).
  unfold contains_char. cbn [existsb]. now rewrite Hx.
Qed.

(** The passes of [_format_inline] over the example followed by a text
    [e]: each goes through the example and leaves [e] to be scanned. *)
Lemma example_left_braces : forall e,
  replace (lit "{{") LEFTBRACE (formatting_example ++ e) =
  lit "{b:X} and " ++ LEFTBRACE ++ lit "literal}}"
    ++ replace (lit "{{") LEFTBRACE e.
Proof. reflexivity. Qed.

Lemma example_right_braces : forall e,
  replace (lit "}}") RIGHTBRACE
    (lit "{b:X} and " ++ LEFTBRACE ++ lit "literal}}" ++ e) =
  lit "{b:X} and " ++ LEFTBRACE ++ lit "literal" ++ RIGHTBRACE
    ++ replace (lit "}}") RIGHTBRACE e.
Proof. reflexivity. Qed.

Lemma example_bold : forall e,
  sub_span (lit "{b:") (lit "<strong>") (lit "</strong>")
    (lit "{b:X} and " ++ LEFTBRACE ++ lit "literal" ++ RIGHTBRACE ++ e) =
  lit "<strong>X</strong> and " ++ LEFTBRACE ++ lit "literal" ++ RIGHTBRACE
    ++ sub_span (lit "{b:") (lit "<strong>") (lit "</strong>") e.
Proof. reflexivity. Qed.

Lemma example_restore_left : forall e,
  replace LEFTBRACE (lit "{")
    (lit "<strong>X</strong> and " ++ LEFTBRACE ++ lit "literal"
       ++ RIGHTBRACE ++ e) =
  lit "<strong>X</strong> and {literal" ++ [NUL] ++ lit "RIGHTBRACE"
    ++ replace LEFTBRACE (lit "{") (NUL :: e).
Proof. reflexivity. Qed.

Lemma example_restore_right : forall e,
  replace RIGHTBRACE (lit "}")
    (lit "<strong>X</strong> and {literal" ++ RIGHTBRACE ++ e) =
  lit "<strong>X</strong> and {literal}" ++ replace RIGHTBRACE (lit "}") e.
Proof. reflexivity. Qed.

(** The text of the example, formatted, before any text free of braces
    and of the NUL character of the placeholders. *)
Lemma format_inline_example : forall t,
  contains_char "{" t = false ->
  contains_char "}" t = false ->
  contains_char NUL t = false ->
  _format_inline (formatting_example ++ t) =
  lit "<strong>X</strong> and {literal}" ++ html_escape t.
Proof.
  intros t Hl Hr Hn. unfold _format_inline.
  rewrite html_escape_app.
  change (html_escape formatting_example) with formatting_example.
  assert (El : contains_char "{" (html_escape t) = false)
    by (now apply html_escape_keeps_absent).
  assert (Er : contains_char "}" (html_escape t) = false)
    by (now apply html_escape_keeps_absent).
  assert (En : contains_char NUL (html_escape t) = false)
    by (now apply html_escape_keeps_absent).
  set (e := html_escape t) in *.
  assert (S1 : replace (lit "{{") LEFTBRACE e = e)
    by exact (@replace_inert "{" (lit "{") LEFTBRACE e El).
  assert (S2 : replace (lit "}}") RIGHTBRACE e = e)
    by exact (@replace_inert "}" (lit "}") RIGHTBRACE e Er).
  assert (S3 : sub_span (lit "{b:") (lit "<strong>") (lit "</strong>") e = e)
    by exact (@sub_span_inert (lit "b:") _ _ e El).
  rewrite example_left_braces, S1, example_right_braces, S2,
          example_bold, S3.
  assert (Hfree :
    contains_char "{"
      (lit "<strong>X</strong> and " ++ LEFTBRACE ++ lit "literal"
         ++ RIGHTBRACE ++ e) = false).
  { rewrite !contains_char_app, El. reflexivity. }
  set (T := lit "<strong>X</strong> and " ++ LEFTBRACE ++ lit "literal"
              ++ RIGHTBRACE ++ e) in *.
  assert (S4 : sub_span (lit "{bold:") (lit "<strong>") (lit "</strong>") T
               = T)
    by exact (@sub_span_inert (lit "bold:") _ _ T Hfree).
  assert (S5 : sub_span (lit "{i:") (lit "<em>") (lit "</em>") T = T)
    by exact (@sub_span_inert (lit "i:") _ _ T Hfree).
  assert (S6 : sub_span (lit "{italic:") (lit "<em>") (lit "</em>") T = T)
    by exact (@sub_span_inert (lit "italic:") _ _ T Hfree).
  assert (S7 : sub_span (lit "{u:") (lit "<u>") (lit "</u>") T = T)
    by exact (@sub_span_inert (lit "u:") _ _ T Hfree).
  rewrite S4, S5, S6, S7, (@sub_color_inert T Hfree). subst T.
  rewrite example_restore_left.
  assert (Hnul : replace LEFTBRACE (lit "{") (NUL :: e) = NUL :: e).
  { unfold replace at 1. rewrite rewrite_scan_here.
    replace (startswith LEFTBRACE (NUL :: e)) with false.
    - f_equal. exact (@replace_inert NUL (lit "LEFTBRACE" ++ [NUL]) _ e En).
    - symmetry. change LEFTBRACE with (NUL :: lit "LEFTBRACE" ++ [NUL]).
      cbn [startswith]. rewrite Ascii.eqb_refl. cbn [andb].
      apply (@startswith_needs _ _ NUL); [|exact En].
      apply in_or_app. right. now left. }
  rewrite Hnul.
  change (lit "<strong>X</strong> and {literal" ++ [NUL] ++ lit "RIGHTBRACE"
            ++ NUL :: e)
    with (lit "<strong>X</strong> and {literal" ++ RIGHTBRACE ++ e).
  rewrite example_restore_right. do 2 f_equal.
  exact (@replace_inert NUL (lit "RIGHTBRACE" ++ [NUL]) _ e En).
Qed.

Lemma contains_infix : forall n a b, contains n (a ++ n ++ b) = true.
Proof.
  intros n a b. induction a as [|x a IH].
  - destruct (n ++ b) eqn:E; cbn [app contains]; rewrite <- E;
      now rewrite startswith_app.
  - cbn [app contains]. rewrite IH. apply orb_true_r.
Qed.

Lemma join_has : forall sep f fs,
  In f fs -> exists a b, join sep fs = a ++ f ++ b.
Proof.
  intros sep f fs. induction fs as [|f0 rest IH]; intros H; [contradiction|].
  destruct H as [->|H].
  - exists []. destruct rest as [|f1 rest].
    + exists []. cbn. now rewrite app_nil_r.
    + exists (sep :: join sep (f1 :: rest)). reflexivity.
  - destruct (IH H) as (a & b & E).
    destruct rest as [|f1 rest]; [contradiction|].
    exists (f0 ++ sep :: a), b. rewrite join_cons_cons, E.
    rewrite <- app_assoc. reflexivity.
Qed.

(** The rendering holds every fragment of every node. *)
Lemma render_has_fragment : forall doc n f,
  In n (nodes doc) -> In f (fragments_of n) ->
  exists a b, render doc = a ++ f ++ b.
Proof.
  intros doc n f Hn Hf. rewrite render_fragments. apply join_has.
  apply in_or_app. right. apply in_or_app. left.
  apply in_flat_map. now exists n.
Qed.

Lemma html_escape_chars : forall s, html_escape s = flat_map escape_char s.
Proof. exact html_escape_flat_map. Qed.

(** C6.  A paragraph whose text is the example, followed by any text free
    of braces (and of the NUL of the placeholders), renders with the bold
    span as a strong element and the doubled braces as single literal
    braces; the text that follows appears escaped character by character,
    so none of its angle brackets or ampersands reaches the output
    unescaped. *)
Theorem inline_formatting_example : forall doc t,
  In (ParagraphNode (formatting_example ++ t)) (nodes doc) ->
  contains_char "{" t = false ->
  contains_char "}" t = false ->
  contains_char NUL t = false ->
  (exists a b,
     render doc =
     a ++ (qlit "<p class=`sn-para`>"
             ++ lit "<strong>X</strong> and {literal}" ++ html_escape t
             ++ lit "</p>") ++ b)
  /\ contains (lit "<strong>X</strong>") (render doc) = true
  /\ contains (lit "{literal}") (render doc) = true
  /\ html_escape t = flat_map escape_char t
  /\ (forall c, In c (html_escape t) -> c <> "<"%char /\ c <> ">"%char).
Proof.
  intros doc t Hin Hl Hr Hn.
  assert (Hfrag : exists a b,
     render doc =
     a ++ (qlit "<p class=`sn-para`>"
             ++ lit "<strong>X</strong> and {literal}" ++ html_escape t
             ++ lit "</p>") ++ b).
  { apply (render_has_fragment doc _ _ Hin).
    cbn [fragments_of _render_node app].
    rewrite (format_inline_example t Hl Hr Hn). left.
    now rewrite <- app_assoc. }
  split; [exact Hfrag|].
  destruct Hfrag as (a & b & ->).
  split; [|split; [|split]].
  - replace (a ++ (qlit "<p class=`sn-para`>"
                     ++ lit "<strong>X</strong> and {literal}"
                     ++ html_escape t ++ lit "</p>") ++ b)
      with ((a ++ qlit "<p class=`sn-para`>") ++ lit "<strong>X</strong>"
              ++ (lit " and {literal}" ++ html_escape t ++ lit "</p>" ++ b)).
    + apply contains_infix.
    + rewrite <- !app_assoc. reflexivity.
  - replace (a ++ (qlit "<p class=`sn-para`>"
                     ++ lit "<strong>X</strong> and {literal}"
                     ++ html_escape t ++ lit "</p>") ++ b)
      with ((a ++ qlit "<p class=`sn-para`>" ++ lit "<strong>X</strong> and ")
              ++ lit "{literal}" ++ (html_escape t ++ lit "</p>" ++ b)).
    + apply contains_infix.
    + rewrite <- !app_assoc. reflexivity.
  - apply html_escape_chars.
  - intros c Hc. apply html_escape_no_markup in Hc. tauto.
Qed.

(** An instance: the example followed by a comparison with an angle
    bracket and an ampersand. *)
Lemma inline_formatting_example_witness :
  In (ParagraphNode (formatting_example ++ lit " 1 < 2 & 3"))
     [ParagraphNode (formatting_example ++ lit " 1 < 2 & 3")]
  /\ contains_char "{" (lit " 1 < 2 & 3") = false
  /\ contains_char "}" (lit " 1 < 2 & 3") = false
  /\ contains_char NUL (lit " 1 < 2 & 3") = false
  /\ contains (lit "<strong>X</strong>")
       (render (mkDocument (lit "v1") []
          [ParagraphNode (formatting_example ++ lit " 1 < 2 & 3")]
          false None)) = true.
Proof.
  split; [now left | split; [reflexivity | split; [reflexivity |
    split; [reflexivity|]]]].
  apply (@inline_formatting_example
           (mkDocument (lit "v1") []
              [ParagraphNode (formatting_example ++ lit " 1 < 2 & 3")]
              false None)
           (lit " 1 < 2 & 3")); [now left | reflexivity..].
Defined.

(** The scenario from the source line to the page: the paragraph line
    parses to a Paragraph node, and the page holds the strong element,
    the literal braces and the escaped comparison. *)
Example inline_formatting_scenario :
  parse STRICT formatting_sn =
    Ok (mkDocument (lit "v1") []
          [ParagraphNode (formatting_example ++ lit " 1 < 2 & 3")]
          false None)
  /\ fragments_of (ParagraphNode (formatting_example ++ lit " 1 < 2 & 3")) =
     [ qlit "<p class=`sn-para`>"
         ++ lit "<strong>X</strong> and {literal} 1 &lt; 2 &amp; 3</p>" ].
Proof. vm_compute. split; reflexivity. Qed.

(** ** The bound on the loops is never met *)

Unset Implicit Arguments.

Lemma moves_on_weaken : forall (A : Type) tk (r : result (A * SNTokenizer)),
  moves_on true tk r -> moves_on false tk r.
Proof.
  intros A tk [[a tk']| |] H; cbn in *; try exact H.
  destruct H as [H1 H2]. split; [assumption | lia].
Qed.

Lemma moves_on_trans :
  forall (A : Type) b tk tk1 (r : result (A * SNTokenizer)),
  lines tk1 = lines tk -> current_line tk < current_line tk1 ->
  moves_on b tk1 r -> moves_on true tk r.
Proof.
  intros A b tk tk1 [[a tk']| |] Hl Hc H; cbn in *; try exact H.
  destruct H as [H1 H2]. split; [congruence|]. destruct b; lia.
Qed.

Lemma moves_on_trans_le :
  forall (A : Type) tk tk1 (r : result (A * SNTokenizer)),
  lines tk1 = lines tk -> current_line tk <= current_line tk1 ->
  moves_on false tk1 r -> moves_on false tk r.
Proof.
  intros A tk tk1 [[a tk']| |] Hl Hc H; cbn in *; try exact H.
  destruct H as [H1 H2]. split; [congruence | lia].
Qed.

Lemma has_more_peek : forall tk,
  Nat.ltb (current_line tk) (length (lines tk)) = true ->
  exists line, nth_error (lines tk) (current_line tk) = Some line.
Proof.
  intros tk H. apply Nat.ltb_lt in H.
  destruct (nth_error (lines tk) (current_line tk)) as [l|] eqn:E.
  - now exists l.
  - apply nth_error_None in E. lia.
Qed.

Lemma consume_line_moves_on : forall tk,
  moves_on false tk (consume_line tk).
Proof.
  intros tk. unfold consume_line.
  destruct (nth_error (lines tk) (current_line tk)); cbn; split;
    try reflexivity; lia.
Qed.

Lemma remaining_after_consume : forall tk fuel,
  Nat.ltb (current_line tk) (length (lines tk)) = true ->
  remaining tk <= S fuel ->
  remaining (mkTokenizer (lines tk) (S (current_line tk))) <= fuel.
Proof.
  intros tk fuel H Hf. apply Nat.ltb_lt in H. unfold remaining in *.
  cbn [lines current_line]. lia.
Qed.

Lemma no_fuel_no_more : forall tk,
  remaining tk <= 0 ->
  Nat.ltb (current_line tk) (length (lines tk)) = false.
Proof.
  intros tk H. unfold remaining in H. apply Nat.ltb_ge. lia.
Qed.

(** One turn of a loop: the head is tested, and the loop goes on after
    consuming a line. *)
Ltac loop_turn IH :=
  cbv [ret];
  match goal with
  | |- moves_on false _ (Ok _) => cbn; split; [reflexivity | lia]
  | |- moves_on false ?tk (?f ?fuel ?acc (mkTokenizer _ (S _))) =>
      apply (@moves_on_trans_le _ tk (mkTokenizer (lines tk) (S (current_line tk))));
        [reflexivity | cbn; lia | apply IH; now apply remaining_after_consume]
  | |- moves_on false ?tk (?f ?fuel (mkTokenizer _ (S _))) =>
      apply (@moves_on_trans_le _ tk (mkTokenizer (lines tk) (S (current_line tk))));
        [reflexivity | cbn; lia | apply IH; now apply remaining_after_consume]
  end.

Ltac loop_start Hf :=
  unfold bind at 1, has_more;
  match goal with
  | |- context [Nat.ltb (current_line ?tk) (length (lines ?tk))] =>
      destruct (Nat.ltb (current_line tk) (length (lines tk))) eqn:Hmore
  end;
  [| cbn; split; [reflexivity | lia]].

Lemma parse_list_loop_moves_on : forall fuel items tk,
  remaining tk <= fuel ->
  moves_on false tk (_parse_list_loop fuel items tk).
Proof.
  induction fuel as [|fuel IH]; intros items tk Hf; cbn [_parse_list_loop].
  - unfold bind, has_more. rewrite (no_fuel_no_more tk Hf).
    cbn. split; [reflexivity | lia].
  - loop_start Hf.
    destruct (has_more_peek tk Hmore) as [line Hline].
    unfold bind at 1, peek_line. rewrite Hline.
    destruct (is_blank line); [loop_turn IH|].
    destruct (is_comment line);
      [|destruct (_looks_like_command line); [loop_turn IH|]];
      unfold bind, consume_line; rewrite Hline; loop_turn IH.
Qed.

Lemma parse_code_block_loop_moves_on : forall fuel code_lines tk,
  remaining tk <= fuel ->
  moves_on false tk (_parse_code_block_loop fuel code_lines tk).
Proof.
  induction fuel as [|fuel IH]; intros code_lines tk Hf;
    cbn [_parse_code_block_loop].
  - unfold bind, has_more. rewrite (no_fuel_no_more tk Hf).
    cbn. split; [reflexivity | lia].
  - loop_start Hf.
    destruct (has_more_peek tk Hmore) as [line Hline].
    unfold bind at 1, peek_line. rewrite Hline.
    destruct (list_eqb (lower (strip line)) (lit "endcode:"));
      unfold bind, consume_line; rewrite Hline; [|loop_turn IH].
    cbn. split; [reflexivity | lia].
Qed.

Lemma parse_header_loop_moves_on : forall fuel tk,
  remaining tk <= fuel ->
  moves_on false tk (_parse_header_loop fuel tk).
Proof.
  induction fuel as [|fuel IH]; intros tk Hf; cbn [_parse_header_loop].
  - unfold bind, has_more. rewrite (no_fuel_no_more tk Hf).
    cbn. split; [reflexivity | lia].
  - loop_start Hf.
    destruct (has_more_peek tk Hmore) as [line Hline].
    unfold bind at 1, peek_line. rewrite Hline.
    destruct (is_blank line || is_comment line);
      [unfold bind, consume_line; rewrite Hline; loop_turn IH|].
    destruct (list_eqb (strip line) (lit "<super-notation-v1>"));
      [|loop_turn IH].
    unfold bind, consume_line. rewrite Hline.
    cbn. split; [reflexivity | lia].
Qed.

Lemma parse_metadata_loop_moves_on : forall fuel metadata tk,
  remaining tk <= fuel ->
  moves_on false tk (_parse_metadata_loop fuel metadata tk).
Proof.
  induction fuel as [|fuel IH]; intros metadata tk Hf;
    cbn [_parse_metadata_loop].
  - unfold bind, has_more. rewrite (no_fuel_no_more tk Hf).
    cbn. split; [reflexivity | lia].
  - loop_start Hf.
    destruct (has_more_peek tk Hmore) as [line Hline].
    unfold bind at 1, peek_line. rewrite Hline.
    destruct (is_blank line || is_comment line);
      [unfold bind, consume_line; rewrite Hline; loop_turn IH|].
    destruct (startswith (lit "meta:") (lower (strip line)));
      [|loop_turn IH].
    unfold bind, consume_line. rewrite Hline. loop_turn IH.
Qed.

(** After a line is consumed the two block parsers move on. *)
Lemma parse_list_moves_on : forall first_line tk,
  moves_on false tk (_parse_list first_line tk).
Proof.
  intros first_line tk. unfold _parse_list.
  destruct (re_match_olist first_line); [|exact I].
  unfold bind at 1. pose proof (consume_line_moves_on tk) as Hc.
  destruct (consume_line tk) as [[l tk1]| |]; cbn in Hc; try contradiction; try exact I.
  destruct Hc as [Hl Hle].
  unfold bind at 1.
  pose proof (parse_list_loop_moves_on (remaining tk1) [] tk1 (le_n _)) as Hp.
  destruct (_parse_list_loop (remaining tk1) [] tk1) as [[items tk2]| |];
    cbn in Hp; try contradiction; try exact I.
  cbn. destruct Hp. split; [congruence | lia].
Qed.

Lemma parse_code_block_moves_on : forall tk,
  moves_on false tk (_parse_code_block tk).
Proof.
  intros tk. unfold _parse_code_block.
  unfold bind at 1. pose proof (consume_line_moves_on tk) as Hc.
  destruct (consume_line tk) as [[l tk1]| |]; cbn in Hc; try contradiction; try exact I.
  destruct Hc as [Hl Hle].
  unfold bind at 1.
  pose proof (parse_code_block_loop_moves_on (remaining tk1) [] tk1 (le_n _))
    as Hp.
  destruct (_parse_code_block_loop (remaining tk1) [] tk1) as [[cl tk2]| |];
    cbn in Hp; try contradiction; try exact I.
  cbn. destruct Hp. split; [congruence | lia].
Qed.

Section OneNode.
Variable tk : SNTokenizer.
Hypothesis Hmore :
  Nat.ltb (current_line tk) (length (lines tk)) = true.

Lemma consume_line_forward : forall tk',
  at_or_after tk tk' ->
  exists l tk'',
    consume_line tk' = Ok (l, tk'')
    /\ lines tk'' = lines tk /\ current_line tk < current_line tk''.
Proof.
  intros tk' [Hl [-> | Hlt]].
  - destruct (has_more_peek tk Hmore) as [line Hline].
    unfold consume_line. rewrite Hline.
    eexists _, _. split; [reflexivity|]. cbn. split; [reflexivity | lia].
  - unfold consume_line.
    destruct (nth_error (lines tk') (current_line tk'));
      eexists _, _; (split; [reflexivity|]); cbn;
      (split; [assumption | lia]).
Qed.

Lemma and_then_moves_on :
  forall (A : Type) (s : M (option A)) (rest : M A) tk',
  statement_moves_on tk (s tk') ->
  (forall tk'', at_or_after tk tk'' -> moves_on true tk (rest tk'')) ->
  moves_on true tk ((s ;;; rest) tk').
Proof.
  intros A s rest tk' Hs Hrest. unfold and_then, bind.
  destruct (s tk') as [[[v|] tk'']| |]; cbn in Hs; try contradiction.
  - exact Hs.
  - now apply Hrest.
  - exact I.
Qed.

Lemma consume_then_moves_on : forall (A : Type) (o : option A) tk',
  at_or_after tk tk' ->
  statement_moves_on tk ((consume_line ;; ret o) tk').
Proof.
  intros A o tk' Hat.
  destruct (consume_line_forward tk' Hat) as (l & tk'' & Hc & Hl & Hlt).
  unfold bind. rewrite Hc. cbn.
  destruct o; [now split | split; [assumption | now right]].
Qed.

Lemma goes_on_moves_on : forall (A : Type) tk',
  at_or_after tk tk' -> statement_moves_on tk (@goes_on A tk').
Proof. intros A tk' Hat. exact Hat. Qed.

Lemma parse_list_forward : forall first_line tk',
  at_or_after tk tk' ->
  statement_moves_on tk
    ((node <- _parse_list first_line ;; returns (Some node)) tk').
Proof.
  intros first_line tk' Hat. unfold bind at 1, _parse_list.
  destruct (re_match_olist first_line); [|exact I].
  destruct (consume_line_forward tk' Hat) as (l & tk1 & Hc & Hl & Hlt).
  unfold bind at 1. rewrite Hc. unfold bind at 1.
  pose proof (parse_list_loop_moves_on (remaining tk1) [] tk1 (le_n _))
    as Hp.
  destruct (_parse_list_loop (remaining tk1) [] tk1) as [[items tk2]| |];
    cbn in Hp; try contradiction; try exact I.
  cbn. destruct Hp. split; [congruence | lia].
Qed.

Lemma parse_code_block_forward : forall tk',
  at_or_after tk tk' ->
  statement_moves_on tk
    ((node <- _parse_code_block ;; returns (Some node)) tk').
Proof.
  intros tk' Hat. unfold bind at 1, _parse_code_block.
  destruct (consume_line_forward tk' Hat) as (l & tk1 & Hc & Hl & Hlt).
  unfold bind at 1. rewrite Hc. unfold bind at 1.
  pose proof (parse_code_block_loop_moves_on (remaining tk1) [] tk1
                (le_n _)) as Hp.
  destruct (_parse_code_block_loop (remaining tk1) [] tk1)
    as [[cl tk2]| |]; cbn in Hp; try contradiction; try exact I.
  cbn. destruct Hp. split; [congruence | lia].
Qed.

(** Every call of [_parse_node] with a line left consumes a line or
    raises. *)
Lemma parse_node_moves_on : forall mode,
  moves_on true tk (_parse_node mode tk).
Proof.
  intros mode.
  destruct (has_more_peek tk Hmore) as [line Hline].
  assert (Hat : at_or_after tk tk) by (split; [reflexivity | now left]).
  unfold _parse_node. unfold bind at 1, peek_line. rewrite Hline.
  destruct (is_blank line || is_comment line).
  { destruct (consume_line_forward tk Hat) as (l & tk1 & Hc & Hl & Hlt).
    unfold bind, ret. rewrite Hc. cbn. now split. }
  revert Hat. generalize tk at 2 4 as tk'. intros tk' Hat.
  repeat (apply and_then_moves_on;
    [ match goal with
      | |- statement_moves_on _ ((if ?c then _ else _) _) =>
          destruct c;
          [ first
              [ apply consume_then_moves_on; assumption
              | apply parse_list_forward; assumption
              | apply parse_code_block_forward; assumption
              | match goal with
                | |- context [re_match_keyed ?k ?s] =>
                    destruct (re_match_keyed k s) as [[g1 g2]|];
                    apply consume_then_moves_on; assumption
                end ]
          | apply goes_on_moves_on; assumption ]
      end
    | clear tk' Hat; intros tk' Hat ]).
  destruct (is_strict mode); [exact I|].
  destruct (consume_line_forward tk' Hat) as (l & tk1 & Hc & Hl & Hlt).
  unfold bind, ret. rewrite Hc. cbn. now split.
Qed.
End OneNode.

Lemma parse_body_moves_on : forall mode fuel doc tk,
  remaining tk <= fuel ->
  moves_on false tk (parse_body mode fuel doc tk).
Proof.
  intros mode. induction fuel as [|fuel IH]; intros doc tk Hf;
    cbn [parse_body].
  - unfold bind, has_more. rewrite (no_fuel_no_more tk Hf).
    cbn. split; [reflexivity | lia].
  - loop_start Hf.
    unfold bind at 1.
    pose proof (parse_node_moves_on tk Hmore mode) as Hn.
    destruct (_parse_node mode tk) as [[node tk1]| |];
      cbn in Hn; try contradiction; try exact I.
    destruct Hn as [Hl Hlt].
    assert (Hf1 : remaining tk1 <= fuel).
    { unfold remaining in *. rewrite Hl. apply Nat.ltb_lt in Hmore. lia. }
    assert (Hnext : forall d, moves_on false tk (parse_body mode fuel d tk1)).
    { intros d. apply (moves_on_trans_le _ tk tk1); [assumption | lia|].
      now apply IH. }
    destruct node as [node|]; [|apply Hnext].
    destruct node; try apply Hnext.
    destruct (is_strict mode); [|apply Hnext].
    cbn. split; [assumption | lia].
Qed.

(** [parse] always comes to an end: it returns a document or raises. *)
Theorem parse_terminates : forall mode content,
  (exists doc, parse mode content = Ok doc)
  \/ (exists message, parse mode content = Raise message).
Proof.
  intros mode content. unfold parse, parse_from.
  set (tk := new_tokenizer content).
  unfold bind, _parse_header, _parse_metadata. cbv beta.
  pose proof (parse_header_loop_moves_on (remaining tk) tk (le_n _)) as Hh.
  destruct (_parse_header_loop (remaining tk) tk) as [[ok tk0]| |];
    cbn in Hh; try contradiction.
  2: { right. eexists. reflexivity. }
  destruct ok; cbn [negb].
  2: { right. eexists. reflexivity. }
  pose proof (parse_metadata_loop_moves_on (remaining tk0) [] tk0 (le_n _))
    as Hm.
  destruct (_parse_metadata_loop (remaining tk0) [] tk0) as [[md tk1]| |];
    cbn in Hm; try contradiction.
  2: { right. eexists. reflexivity. }
  pose proof (parse_body_moves_on mode (remaining tk1)
                (set_metadata new_document md) tk1 (le_n _)) as Hb.
  destruct (parse_body mode (remaining tk1) (set_metadata new_document md)
              tk1) as [[doc tk2]| |]; cbn in Hb; try contradiction.
  - left. eexists. reflexivity.
  - right. eexists. reflexivity.
Qed.

(** * Further properties *)

(** ** Lines: split and join *)

Lemma split_not_nil : forall sep s, split sep s <> [].
Proof.
  intros sep s. destruct s as [|c r]; cbn [split]; [discriminate|].
  destruct (Ascii.eqb c sep); [discriminate|].
  destruct (split sep r); discriminate.
Qed.

(** A text without the separator is one line. *)
Lemma split_free : forall sep l,
  contains_char sep l = false -> split sep l = [l].
Proof.
  intros sep. induction l as [|c l IH]; intros H; [reflexivity|].
  unfold contains_char in H. cbn [existsb] in H.
  apply orb_false_iff in H as [Hc Hl]. cbn [split].
  rewrite Ascii.eqb_sym, Hc, (IH Hl). reflexivity.
Qed.

Lemma split_app_sep : forall sep l t,
  contains_char sep l = false ->
  split sep (l ++ sep :: t) = l :: split sep t.
Proof.
  intros sep. induction l as [|c l IH]; intros t H.
  - cbn [app split]. now rewrite Ascii.eqb_refl.
  - unfold contains_char in H. cbn [existsb] in H.
    apply orb_false_iff in H as [Hc Hl]. cbn [app split].
    rewrite Ascii.eqb_sym, Hc, (IH t Hl). reflexivity.
Qed.

(** The lines of a text do not hold the separator. *)
Lemma split_lines_free : forall sep s l,
  In l (split sep s) -> contains_char sep l = false.
Proof.
  intros sep. induction s as [|c r IH]; intros l H.
  - destruct H as [<-|[]]. reflexivity.
  - cbn [split] in H. destruct (Ascii.eqb c sep) eqn:Hc.
    + destruct H as [<-|H]; [reflexivity | now apply IH].
    + destruct (split sep r) as [|l0 ls] eqn:Hs.
      * destruct H as [<-|[]]. unfold contains_char. cbn [existsb].
        now rewrite Ascii.eqb_sym, Hc.
      * destruct H as [<-|H].
        -- unfold contains_char. cbn [existsb].
           rewrite Ascii.eqb_sym, Hc. cbn [orb].
           apply IH. now left.
        -- apply IH. now right.
Qed.

Lemma join_split : forall sep s, join sep (split sep s) = s.
Proof.
  intros sep. induction s as [|c r IH]; [reflexivity|].
  cbn [split]. destruct (Ascii.eqb_spec c sep) as [->|Hc].
  - pose proof (split_not_nil sep r) as Hn.
    destruct (split sep r) as [|l ls]; [contradiction|].
    rewrite join_cons_cons. cbn [app]. now rewrite IH.
  - destruct (split sep r) as [|l ls] eqn:Hs.
    + now destruct (split_not_nil sep r).
    + destruct ls as [|l' ls'].
      * cbn [join] in *. now rewrite IH.
      * rewrite join_cons_cons in *. cbn [app]. now rewrite IH.
Qed.

Lemma split_join : forall sep ls,
  ls <> [] ->
  (forall l, In l ls -> contains_char sep l = false) ->
  split sep (join sep ls) = ls.
Proof.
  intros sep. induction ls as [|l rest IH]; intros Hne Hfree;
    [contradiction|].
  destruct rest as [|l' rest'].
  - cbn [join]. apply split_free. apply Hfree. now left.
  - rewrite join_cons_cons, split_app_sep by (apply Hfree; now left).
    f_equal. apply IH; [discriminate|].
    intros x Hx. apply Hfree. now right.
Qed.

Lemma join_snoc : forall sep ls l,
  ls <> [] -> join sep (ls ++ [l]) = join sep ls ++ sep :: l.
Proof.
  intros sep. induction ls as [|a rest IH]; intros l Hne; [contradiction|].
  destruct rest as [|b rest'].
  - reflexivity.
  - cbn [app]. rewrite !join_cons_cons.
    change (b :: rest' ++ [l]) with ((b :: rest') ++ [l]).
    rewrite IH by discriminate. now rewrite <- app_assoc.
Qed.

(** ** Line endings *)

Lemma contains_char_cons : forall c x s,
  contains_char c (x :: s) = Ascii.eqb c x || contains_char c s.
Proof. reflexivity. Qed.

Lemma normalize_newlines_no_cr : forall s,
  contains_char CR (normalize_newlines s) = false.
Proof.
  intros s. unfold normalize_newlines. rewrite replace_single.
  induction (replace [CR; LF] [LF] s) as [|c r IH]; [reflexivity|].
  cbn [flat_map]. rewrite contains_char_app, IH, orb_false_r.
  destruct (Ascii.eqb CR c) eqn:Hc; [reflexivity|].
  rewrite contains_char_cons, Hc. reflexivity.
Qed.

Lemma normalize_newlines_id : forall s,
  contains_char CR s = false -> normalize_newlines s = s.
Proof.
  intros s H. unfold normalize_newlines.
  rewrite (@replace_inert CR [LF] [LF] s H).
  exact (@replace_inert CR [] [LF] s H).
Qed.

Lemma read_text_no_cr : forall s, contains_char CR (read_text s) = false.
Proof. exact normalize_newlines_no_cr. Qed.

Lemma read_text_id : forall s, contains_char CR s = false -> read_text s = s.
Proof. exact normalize_newlines_id. Qed.

Lemma contains_char_join : forall c sep ls,
  Ascii.eqb c sep = false ->
  (forall l, In l ls -> contains_char c l = false) ->
  contains_char c (join sep ls) = false.
Proof.
  intros c sep. induction ls as [|l rest IH]; intros Hsep H; [reflexivity|].
  destruct rest as [|l' rest'].
  - cbn [join]. apply H. now left.
  - rewrite join_cons_cons, contains_char_app, contains_char_cons, Hsep.
    rewrite (H l (or_introl eq_refl)). cbn [orb].
    apply IH; [assumption|]. intros x Hx. apply H. now right.
Qed.

(** A line of a text without [c] is without [c]. *)
Lemma split_keeps_absent : forall c sep s l,
  contains_char c s = false -> In l (split sep s) ->
  contains_char c l = false.
Proof.
  intros c sep. induction s as [|x r IH]; intros l Hs Hl.
  - destruct Hl as [<-|[]]. reflexivity.
  - rewrite contains_char_cons in Hs. apply orb_false_iff in Hs as [Hx Hr].
    cbn [split] in Hl. destruct (Ascii.eqb x sep).
    + destruct Hl as [<-|Hl]; [reflexivity | now apply IH].
    + destruct (split sep r) as [|l0 ls] eqn:E.
      * destruct Hl as [<-|[]]. rewrite contains_char_cons, Hx. reflexivity.
      * destruct Hl as [<-|Hl].
        -- rewrite contains_char_cons, Hx. cbn [orb]. apply IH;
             [assumption | now left].
        -- apply IH; [assumption | now right].
Qed.

(** ** The signature string *)

Lemma be_bytes_length : forall n x, length (SHA256.be_bytes n x) = n.
Proof.
  induction n as [|n IH]; intros x; cbn [SHA256.be_bytes]; [reflexivity|].
  rewrite length_app, IH. cbn. lia.
Qed.

Lemma be_bytes_bound : forall n x b,
  In b (SHA256.be_bytes n x) -> (b < 256)%N.
Proof.
  induction n as [|n IH]; intros x b H; cbn [SHA256.be_bytes] in H;
    [contradiction|].
  apply in_app_or in H as [H|[<-|[]]].
  - now apply IH in H.
  - apply N.mod_lt. discriminate.
Qed.

Lemma digest_length : forall data, length (SHA256.digest data) = 32.
Proof.
  intros data. unfold SHA256.digest. cbv zeta.
  cbn [flat_map]. rewrite !length_app, !be_bytes_length. reflexivity.
Qed.

Lemma digest_bound : forall data b,
  In b (SHA256.digest data) -> (b < 256)%N.
Proof.
  intros data b H. unfold SHA256.digest in H. cbv zeta in H.
  apply in_flat_map in H as (x & _ & H). now apply be_bytes_bound in H.
Qed.

Lemma hex_digit_upper : forall n,
  (n < 16)%N -> In (upper_char (SHA256.hex_digit n)) HEX_UPPER.
Proof.
  intros n H.
  assert (Hn : In (N.to_nat n) (seq 0 16)) by (apply in_seq; lia).
  rewrite <- (N2Nat.id n).
  revert Hn. generalize (N.to_nat n). intros k Hk.
  cbn [seq] in Hk.
  repeat (destruct Hk as [<-|Hk]; [vm_compute; tauto|]).
  contradiction.
Qed.

Lemma hexdigest_length : forall data, length (SHA256.hexdigest data) = 64.
Proof.
  intros data. unfold SHA256.hexdigest.
  pose proof (digest_length data) as H.
  revert H. generalize (SHA256.digest data) as d. intros d.
  assert (G : forall d : list N,
    length (flat_map (fun b => [SHA256.hex_digit (b / 16);
                                SHA256.hex_digit (b mod 16)]) d)
    = 2 * length d).
  { induction d0 as [|b d0 IH]; [reflexivity|].
    cbn [flat_map length app]. rewrite IH. lia. }
  intros H. rewrite G, H. reflexivity.
Qed.

Lemma hexdigest_upper_chars : forall data c,
  In c (upper (SHA256.hexdigest data)) -> In c HEX_UPPER.
Proof.
  intros data c H. unfold upper in H. apply in_map_iff in H as (x & <- & H).
  unfold SHA256.hexdigest in H. apply in_flat_map in H as (b & Hb & H).
  apply digest_bound in Hb.
  destruct H as [<-|[<-|[]]]; apply hex_digit_upper.
  - apply N.Div0.div_lt_upper_bound. exact Hb.
  - apply N.mod_lt. discriminate.
Qed.

(** X1.  The signature string of any file is [SHA256-] followed by
    sixty-four digits taken from 0-9 and A-F: seventy-one characters. *)
Theorem compute_signature_format : forall content,
  exists digits,
    compute_signature content = lit "SHA256-" ++ digits
    /\ length digits = 64
    /\ (forall c, In c digits -> In c HEX_UPPER)
    /\ length (compute_signature content) = 71.
Proof.
  intros content. unfold compute_signature. cbv zeta.
  exists (upper (SHA256.hexdigest (canonical_bytes content))).
  assert (L : length (upper (SHA256.hexdigest (canonical_bytes content)))
              = 64)
    by (unfold upper; rewrite length_map; apply hexdigest_length).
  split; [reflexivity | split; [exact L | split]].
  - apply hexdigest_upper_chars.
  - rewrite length_app, L. reflexivity.
Qed.

Lemma signature_chars : forall content c,
  In c (compute_signature content) -> In c SIGNATURE_CHARS.
Proof.
  intros content c H. unfold compute_signature in H. cbv zeta in H.
  unfold SIGNATURE_CHARS.
  apply in_app_or in H as [H|H]; apply in_or_app; [now left|].
  right. now apply (hexdigest_upper_chars (canonical_bytes content)).
Qed.

Lemma contains_char_absent : forall x s alphabet,
  (forall c, In c s -> In c alphabet) ->
  contains_char x alphabet = false -> contains_char x s = false.
Proof.
  intros x s alphabet H Ha. unfold contains_char.
  destruct (existsb (Ascii.eqb x) s) eqn:E; [|reflexivity].
  apply existsb_exists in E as (c & Hc & Hx).
  apply Ascii.eqb_eq in Hx. subst c.
  apply H in Hc.
  assert (T : contains_char x alphabet = true)
    by (apply existsb_exists; exists x; split;
        [assumption | apply Ascii.eqb_refl]).
  congruence.
Qed.

Lemma signature_free_of : forall content x,
  contains_char x SIGNATURE_CHARS = false ->
  contains_char x (compute_signature content) = false.
Proof.
  intros content x H.
  apply (contains_char_absent x _ SIGNATURE_CHARS); [|exact H].
  apply signature_chars.
Qed.

(** A text that holds no white space is its own strip. *)
Lemma dropwhile_none : forall p s,
  (forall c, In c s -> p c = false) -> dropwhile p s = s.
Proof.
  intros p s H. destruct s as [|c r]; [reflexivity|].
  cbn [dropwhile]. now rewrite (H c (or_introl eq_refl)).
Qed.

Lemma strip_by_none : forall p s,
  (forall c, In c s -> p c = false) -> strip_by p s = s.
Proof.
  intros p s H. unfold strip_by, lstrip_by, rstrip_by.
  rewrite (dropwhile_none p s H).
  rewrite dropwhile_none, rev_involutive; [reflexivity|].
  intros c Hc. apply H. now apply in_rev.
Qed.

Lemma signature_no_space : forall content c,
  In c (compute_signature content) ->
  str_isspace c = false /\ bytes_isspace c = false.
Proof.
  intros content c H. apply signature_chars in H.
  vm_compute in H.
  repeat (destruct H as [<-|H]; [split; reflexivity|]). contradiction.
Qed.

Lemma signature_not_nil : forall content, compute_signature content <> [].
Proof. intros content. unfold compute_signature. discriminate. Qed.

Lemma strip_by_ends : forall p c a d,
  p c = false -> p d = false ->
  strip_by p (c :: a ++ [d]) = c :: a ++ [d].
Proof.
  intros p c a d Hc Hd. unfold strip_by, lstrip_by.
  cbn [dropwhile]. rewrite Hc.
  change (c :: a ++ [d]) with ((c :: a) ++ d :: []).
  now rewrite rstrip_by_keep.
Qed.

Lemma signature_last : forall content,
  exists a d, compute_signature content = a ++ [d]
              /\ str_isspace d = false /\ bytes_isspace d = false.
Proof.
  intros content.
  destruct (exists_last (signature_not_nil content)) as (a & d & E).
  exists a, d. split; [exact E|].
  apply (signature_no_space content). rewrite E.
  apply in_or_app. right. now left.
Qed.

(** The sign: line that [sign_file] writes is left as it is by both
    strips. *)
Lemma written_sign_line_strip : forall content,
  strip (lit "sign: " ++ compute_signature content) =
    lit "sign: " ++ compute_signature content
  /\ bytes_strip (lit "sign: " ++ compute_signature content) =
    lit "sign: " ++ compute_signature content.
Proof.
  intros content. destruct (signature_last content) as (a & d & -> & H1 & H2).
  change (lit "sign: " ++ a ++ [d])
    with ("s"%char :: (lit "ign: " ++ a) ++ [d]).
  split; apply strip_by_ends; try assumption; reflexivity.
Qed.

(** The sign: line that [sign_file] writes carries the signature. *)
Lemma sign_value_written : forall content,
  sign_value (lit "sign: " ++ compute_signature content) =
  compute_signature content.
Proof.
  intros content. unfold sign_value.
  rewrite (proj2 (written_sign_line_strip content)).
  change (snd (split_once ":" (lit "sign: " ++ compute_signature content)))
    with (" "%char :: compute_signature content).
  unfold strip, strip_by, lstrip_by. cbn [dropwhile].
  change (str_isspace " ") with true. cbv iota.
  fold (lstrip_by str_isspace (compute_signature content)).
  fold (strip_by str_isspace (compute_signature content)).
  apply strip_by_none. intros c Hc. now apply signature_no_space in Hc.
Qed.

Lemma written_sign_line_is_sign : forall content,
  is_sign_line (lit "sign: " ++ compute_signature content) = true
  /\ is_sign_or_close (lit "sign: " ++ compute_signature content) = true.
Proof.
  intros content. split.
  - reflexivity.
  - unfold is_sign_or_close.
    rewrite (proj1 (written_sign_line_strip content)). reflexivity.
Qed.

(** ** What [sign_file] and [unsign_file] keep *)

Lemma pop_blank_idem : forall L, pop_blank (pop_blank L) = pop_blank L.
Proof.
  induction L as [|l L IH]; [reflexivity|]. cbn [pop_blank].
  destruct (list_eqb (strip l) []) eqn:E; [exact IH|].
  cbn [pop_blank]. now rewrite E.
Qed.

Lemma pop_blank_incl : forall L l, In l (pop_blank L) -> In l L.
Proof.
  induction L as [|x L IH]; intros l H; [contradiction|].
  cbn [pop_blank] in H. destruct (list_eqb (strip x) []);
    [right; now apply IH | exact H].
Qed.

Lemma drop_trailing_blank_idem : forall X,
  drop_trailing_blank (drop_trailing_blank X) = drop_trailing_blank X.
Proof.
  intros X. unfold drop_trailing_blank.
  now rewrite rev_involutive, pop_blank_idem.
Qed.

Lemma drop_trailing_blank_incl : forall X l,
  In l (drop_trailing_blank X) -> In l X.
Proof.
  intros X l H. unfold drop_trailing_blank in H.
  apply in_rev in H. apply pop_blank_incl in H. now apply in_rev.
Qed.

Lemma drop_trailing_blank_snoc_blank : forall X,
  drop_trailing_blank (X ++ [[]]) = drop_trailing_blank X.
Proof.
  intros X. unfold drop_trailing_blank. rewrite rev_app_distr. reflexivity.
Qed.

Lemma filter_all : forall (A : Type) (f : A -> bool) l,
  (forall x, In x l -> f x = true) -> filter f l = l.
Proof.
  intros A f. induction l as [|x l IH]; intros H; [reflexivity|].
  cbn [filter]. rewrite (H x (or_introl eq_refl)). f_equal.
  apply IH. intros y Hy. apply H. now right.
Qed.

Lemma pop_blank_head : forall L,
  match pop_blank L with
  | [] => True
  | l :: _ => list_eqb (strip l) [] = false
  end.
Proof.
  induction L as [|x L IH]; [exact I|]. cbn [pop_blank].
  destruct (list_eqb (strip x) []) eqn:E; [exact IH | exact E].
Qed.

Lemma pop_blank_fix : forall L,
  match L with [] => true | l :: _ => negb (list_eqb (strip l) []) end = true ->
  pop_blank L = L.
Proof.
  intros [|l L] H; [reflexivity|]. cbn [pop_blank].
  apply negb_true_iff in H. now rewrite H.
Qed.

Lemma ends_unblank_fix : forall X,
  ends_unblank X = true -> drop_trailing_blank X = X.
Proof.
  intros X H. unfold drop_trailing_blank, ends_unblank in *.
  rewrite (pop_blank_fix _ H). apply rev_involutive.
Qed.

Lemma plain_line_spec : forall l,
  plain_line l = true ->
  contains_char LF l = false /\ contains_char CR l = false
  /\ is_sign_or_close l = false.
Proof.
  intros l H. unfold plain_line in H.
  apply andb_true_iff in H as [H H3]. apply andb_true_iff in H as [H1 H2].
  now rewrite negb_true_iff in H1, H2, H3.
Qed.

Lemma kept_ok_spec : forall X,
  kept_ok X = true ->
  (forall l, In l X -> plain_line l = true) /\ drop_trailing_blank X = X.
Proof.
  intros X H. unfold kept_ok in H. apply andb_true_iff in H as [H1 H2].
  split; [|now apply ends_unblank_fix].
  intros l Hl. rewrite forallb_forall in H1. now apply H1.
Qed.

(** The lines kept from any file are as described. *)
Lemma kept_lines_ok : forall content, kept_ok (kept_lines content) = true.
Proof.
  intros content. unfold kept_ok. apply andb_true_iff. split.
  - apply forallb_forall. intros l H. unfold kept_lines in H.
    apply drop_trailing_blank_incl in H.
    apply filter_In in H as [Hin Hf]. unfold plain_line.
    rewrite Hf, andb_true_r.
    rewrite (split_lines_free LF (read_text content) l Hin).
    rewrite (split_keeps_absent CR LF (read_text content) l
               (read_text_no_cr content) Hin).
    reflexivity.
  - unfold kept_lines, ends_unblank, drop_trailing_blank.
    rewrite rev_involutive.
    match goal with |- context [pop_blank ?L] =>
      pose proof (pop_blank_head L) as Hh; destruct (pop_blank L) end;
      [reflexivity | now rewrite Hh].
Qed.

(** [sign_file] in place writes the kept lines and the two new lines;
    [unsign_file] writes the kept lines when it removed something. *)
Lemma sign_file_writes : forall content,
  sign_file content true =
  (compute_signature content,
   signed_text (kept_lines content) (compute_signature content)).
Proof. reflexivity. Qed.

Lemma unsign_file_writes : forall content,
  unsign_file content =
  if existsb is_sign_or_close (split LF (read_text content))
  then (true, join LF (kept_lines content))
  else (false, content).
Proof. reflexivity. Qed.

(** ** Texts of ASCII characters *)

Lemma ascii_text_spec : forall s,
  ascii_text s = true <-> forall x, In x s -> is_ascii x = true.
Proof. intros s. apply forallb_forall. Qed.

(** A text of ASCII characters does not begin with a byte-order mark. *)
Lemma ascii_not_bom : forall l, ascii_text l = true -> startswith BOM l = false.
Proof.
  intros [|c l] H; [reflexivity|].
  cbn [ascii_text forallb] in H. apply andb_true_iff in H as [Hc _].
  unfold BOM. cbn [startswith].
  destruct (Ascii.eqb (chr 239) c) eqn:E; [|reflexivity].
  apply Ascii.eqb_eq in E. subst c. vm_compute in Hc. discriminate Hc.
Qed.

Lemma split_ascii : forall sep s l,
  ascii_text s = true -> In l (split sep s) -> ascii_text l = true.
Proof.
  intros sep. induction s as [|c r IH]; intros l H Hl.
  - destruct Hl as [<-|[]]. reflexivity.
  - cbn [ascii_text forallb] in H. apply andb_true_iff in H as [Hc Hr].
    cbn [split] in Hl. destruct (Ascii.eqb c sep).
    + destruct Hl as [<-|Hl]; [reflexivity | now apply IH].
    + destruct (split sep r) as [|l0 ls] eqn:E.
      * destruct Hl as [<-|[]]. cbn. now rewrite Hc.
      * destruct Hl as [<-|Hl].
        -- cbn [ascii_text forallb]. rewrite Hc. cbn [andb].
           apply IH; [exact Hr | now left].
        -- apply IH; [exact Hr | now right].
Qed.

Lemma join_ascii : forall ls,
  forallb ascii_text ls = true -> ascii_text (join LF ls) = true.
Proof.
  induction ls as [|l ls IH]; intros H; [reflexivity|].
  cbn [forallb] in H. apply andb_true_iff in H as [Hl Hls].
  destruct ls as [|l' ls]; [exact Hl|].
  rewrite join_cons_cons. unfold ascii_text in *.
  rewrite forallb_app, Hl. cbn [forallb andb].
  change (is_ascii LF) with true. cbn [andb]. now apply IH.
Qed.

Lemma normalize_eol_spec_ascii : forall n s,
  length s <= n -> ascii_text s = true ->
  ascii_text (normalize_eol_spec s) = true.
Proof.
  induction n as [|n IH]; intros s Hn H.
  - destruct s; [reflexivity | inversion Hn].
  - destruct s as [|c r]; [reflexivity|].
    cbn [ascii_text forallb] in H. apply andb_true_iff in H as [Hc Hr].
    cbn [length] in Hn. cbn [normalize_eol_spec].
    destruct (Ascii.eqb c CR).
    + cbn [ascii_text forallb]. change (is_ascii LF) with true. cbn [andb].
      destruct r as [|c' r']; [reflexivity|].
      destruct (Ascii.eqb c' LF).
      * cbn [ascii_text forallb] in Hr. apply andb_true_iff in Hr as [_ Hr].
        apply IH; [cbn [length] in Hn; lia | exact Hr].
      * apply IH; [lia | exact Hr].
    + cbn [ascii_text forallb]. rewrite Hc. cbn [andb].
      apply IH; [lia | exact Hr].
Qed.

(** Reading an ASCII file as text gives an ASCII text. *)
Lemma read_text_ascii : forall s,
  ascii_text s = true -> ascii_text (read_text s) = true.
Proof.
  intros s H. change (read_text s) with (normalize_newlines s).
  rewrite normalize_newlines_eq.
  now apply (normalize_eol_spec_ascii (length s)).
Qed.

Lemma text_lines_ascii : forall content l,
  ascii_text content = true -> In l (split LF (read_text content)) ->
  ascii_text l = true.
Proof.
  intros content l H Hl.
  apply (split_ascii LF (read_text content)); [now apply read_text_ascii|exact Hl].
Qed.

(** In an ASCII file no line hides a sign: line behind a byte-order
    mark. *)
Lemma ascii_lines_hide_nothing : forall X,
  forallb ascii_text X = true -> no_hidden_sign_in X = true.
Proof.
  intros X H. unfold no_hidden_sign_in. apply forallb_forall.
  intros l Hl. rewrite forallb_forall in H.
  unfold bom_hides_sign. now rewrite (ascii_not_bom l (H l Hl)).
Qed.

Lemma ascii_hides_nothing : forall content,
  ascii_text content = true -> no_hidden_sign content = true.
Proof.
  intros content H. unfold no_hidden_sign. apply ascii_lines_hide_nothing.
  apply forallb_forall. intros l Hl. now apply (text_lines_ascii content).
Qed.

Lemma unmark_first_ascii : forall X,
  forallb ascii_text X = true -> unmark_first X = X.
Proof.
  intros [|l X] H; [reflexivity|].
  cbn [forallb] in H. apply andb_true_iff in H as [Hl _].
  cbn [unmark_first]. unfold strip_bom. now rewrite (ascii_not_bom l Hl).
Qed.

Lemma kept_lines_ascii : forall content,
  ascii_text content = true -> forallb ascii_text (kept_lines content) = true.
Proof.
  intros content H. apply forallb_forall. intros l Hl.
  unfold kept_lines in Hl. apply drop_trailing_blank_incl in Hl.
  apply filter_In in Hl as [Hl _]. now apply (text_lines_ascii content).
Qed.

Lemma compute_signature_ascii : forall content,
  ascii_text (compute_signature content) = true.
Proof.
  intros content. apply forallb_forall. intros c Hc.
  apply signature_chars in Hc.
  assert (A : forallb is_ascii SIGNATURE_CHARS = true) by reflexivity.
  rewrite forallb_forall in A. now apply A.
Qed.

(** [sign_file] and [unsign_file] leave an ASCII file ASCII, so that what
    is said of a second call on their output is said of an ASCII file
    again. *)
Lemma sign_file_keeps_ascii : forall content,
  ascii_text content = true ->
  ascii_text (snd (sign_file content true)) = true.
Proof.
  intros content H. rewrite sign_file_writes. cbn [snd].
  unfold signed_text. apply join_ascii. apply forallb_forall.
  intros l Hl. apply in_app_or in Hl as [Hl|Hl].
  - pose proof (kept_lines_ascii content H) as K.
    rewrite forallb_forall in K. now apply K.
  - destruct Hl as [<-|[<-|[<-|[]]]]; [reflexivity | | reflexivity].
    unfold ascii_text. rewrite forallb_app.
    fold (ascii_text (compute_signature content)).
    now rewrite compute_signature_ascii.
Qed.

Lemma unsign_file_keeps_ascii : forall content,
  ascii_text content = true ->
  ascii_text (snd (unsign_file content)) = true.
Proof.
  intros content H. rewrite unsign_file_writes.
  destruct (existsb is_sign_or_close (split LF (read_text content)));
    cbn [snd]; [|exact H].
  apply join_ascii. now apply kept_lines_ascii.
Qed.

(** ** The text after [sign_file] and after [unsign_file] *)

Lemma sign_line_of_free : forall c,
  contains_char LF (sign_line_of (compute_signature c)) = false
  /\ contains_char CR (sign_line_of (compute_signature c)) = false.
Proof.
  intros c. unfold sign_line_of. rewrite !contains_char_app.
  rewrite (signature_free_of c LF), (signature_free_of c CR) by reflexivity.
  split; reflexivity.
Qed.

Lemma signed_lines_free : forall X c ch,
  kept_ok X = true -> ch = LF \/ ch = CR ->
  forall l,
    In l (X ++ [[]; sign_line_of (compute_signature c); CLOSE_LINE]) ->
    contains_char ch l = false.
Proof.
  intros X c ch H Hch l Hl. apply kept_ok_spec in H as [Hp _].
  apply in_app_or in Hl as [Hl|Hl].
  - apply Hp, plain_line_spec in Hl. destruct Hch; subst; tauto.
  - destruct (sign_line_of_free c) as [A B].
    destruct Hl as [<-|[<-|[<-|[]]]]; destruct Hch; subst;
      try reflexivity; assumption.
Qed.

Lemma signed_text_lines : forall X c,
  kept_ok X = true ->
  read_text (signed_text X (compute_signature c)) =
    signed_text X (compute_signature c)
  /\ split LF (signed_text X (compute_signature c)) =
     X ++ [[]; sign_line_of (compute_signature c); CLOSE_LINE].
Proof.
  intros X c H. split.
  - apply read_text_id. apply contains_char_join; [reflexivity|].
    apply (signed_lines_free X c CR H). now right.
  - apply split_join; [now destruct X|].
    apply (signed_lines_free X c LF H). now left.
Qed.

Lemma kept_lines_signed : forall X c,
  kept_ok X = true -> kept_lines (signed_text X (compute_signature c)) = X.
Proof.
  intros X c H. unfold kept_lines.
  destruct (signed_text_lines X c H) as [-> ->].
  apply kept_ok_spec in H as [Hp Hd].
  rewrite filter_app, (filter_all _ _ X).
  2:{ intros l Hl. apply Hp, plain_line_spec in Hl.
      destruct Hl as (_ & _ & ->). reflexivity. }
  cbn [filter]. destruct (written_sign_line_is_sign c) as [_ Hs].
  unfold sign_line_of. rewrite Hs.
  change (is_sign_or_close []) with false.
  change (is_sign_or_close CLOSE_LINE) with true. cbn [negb].
  rewrite drop_trailing_blank_snoc_blank. exact Hd.
Qed.

Lemma signed_text_marked : forall X c,
  kept_ok X = true ->
  existsb is_sign_or_close
    (split LF (read_text (signed_text X (compute_signature c)))) = true.
Proof.
  intros X c H. destruct (signed_text_lines X c H) as [-> ->].
  rewrite existsb_app. apply orb_true_iff. right.
  cbn [existsb]. destruct (written_sign_line_is_sign c) as [_ Hs].
  unfold sign_line_of. rewrite Hs. apply orb_true_r.
Qed.

Lemma unsigned_text_lines : forall X,
  kept_ok X = true ->
  read_text (join LF X) = join LF X
  /\ split LF (join LF X) = match X with [] => [[]] | _ => X end.
Proof.
  intros X H. apply kept_ok_spec in H as [Hp _]. split.
  - apply read_text_id. apply contains_char_join; [reflexivity|].
    intros l Hl. now apply Hp, plain_line_spec in Hl.
  - destruct X as [|x X]; [reflexivity|].
    apply split_join; [discriminate|].
    intros l Hl. now apply Hp, plain_line_spec in Hl.
Qed.

Lemma unsigned_text_unmarked : forall X,
  kept_ok X = true ->
  existsb is_sign_or_close (split LF (read_text (join LF X))) = false.
Proof.
  intros X H. destruct (unsigned_text_lines X H) as [-> ->].
  apply kept_ok_spec in H as [Hp _].
  destruct X as [|x X]; [reflexivity|].
  apply not_true_is_false. intros E. apply existsb_exists in E as (l & Hl & E).
  apply Hp, plain_line_spec in Hl. destruct Hl as (_ & _ & Hl). congruence.
Qed.

(** X2.  Unsigning an ASCII file that was just signed in place gives back
    the kept lines of the original, joined by newlines. *)
Theorem unsign_after_sign : forall content,
  ascii_text content = true ->
  unsign_file (snd (sign_file content true)) =
  (true, join LF (kept_lines content)).
Proof.
  intros content _. rewrite sign_file_writes. cbn [snd].
  rewrite unsign_file_writes.
  rewrite (signed_text_marked _ content (kept_lines_ok content)).
  now rewrite (kept_lines_signed _ content (kept_lines_ok content)).
Qed.

(** An instance: the signed file with CRLF line endings. *)
Lemma unsign_after_sign_witness :
  ascii_text crlf_signed_sn = true
  /\ unsign_file (snd (sign_file crlf_signed_sn true)) =
     (true, join LF (kept_lines crlf_signed_sn)).
Proof.
  split; [vm_compute; reflexivity|].
  apply (unsign_after_sign crlf_signed_sn). vm_compute; reflexivity.
Defined.

(** X3.  [unsign_file] is idempotent on ASCII files: on its own output it
    finds nothing to remove and leaves the file as it is. *)
Theorem unsign_file_idempotent : forall content,
  ascii_text content = true ->
  unsign_file (snd (unsign_file content)) =
  (false, snd (unsign_file content)).
Proof.
  intros content _. rewrite (unsign_file_writes content).
  destruct (existsb is_sign_or_close (split LF (read_text content))) eqn:E;
    cbn [snd].
  - rewrite unsign_file_writes.
    now rewrite (unsigned_text_unmarked _ (kept_lines_ok content)).
  - rewrite unsign_file_writes. now rewrite E.
Qed.

(** An instance: a signed and sealed file. *)
Lemma unsign_file_idempotent_witness :
  ascii_text signed_hi_sn = true
  /\ unsign_file (snd (unsign_file signed_hi_sn)) =
     (false, snd (unsign_file signed_hi_sn)).
Proof.
  split; [vm_compute; reflexivity|].
  apply (unsign_file_idempotent signed_hi_sn). vm_compute; reflexivity.
Defined.

(** ** Line by line reading and the seal *)

Lemma readlines_free : forall l,
  l <> [] -> contains_char LF l = false -> readlines l = [l].
Proof.
  induction l as [|c l IH]; intros Hn H; [congruence|].
  rewrite contains_char_cons in H. apply orb_false_iff in H as [Hc Hl].
  cbn [readlines]. rewrite Ascii.eqb_sym, Hc.
  destruct l as [|d l]; [reflexivity|].
  rewrite (IH ltac:(discriminate) Hl). reflexivity.
Qed.

Lemma readlines_app : forall s t,
  exists l L, readlines (s ++ LF :: t) = (l :: L) ++ readlines t.
Proof.
  induction s as [|c s IH]; intros t.
  - exists [LF], []. reflexivity.
  - destruct (IH t) as (l & L & E). cbn [app readlines]. rewrite E.
    destruct (Ascii.eqb c LF).
    + exists [c], (l :: L). reflexivity.
    + exists (c :: l), L. reflexivity.
Qed.

Lemma readlines_split_shape : forall s,
  match split LF s, readlines s with
  | x :: xs, [] => x = [] /\ xs = []
  | x :: xs, y :: ys =>
      (y = x \/ y = x ++ [LF])
      /\ forall l, In l ys ->
           exists l0, In l0 xs /\ (l = l0 ++ [LF] \/ l = l0)
  | [], _ => False
  end.
Proof.
  induction s as [|c s IH]; [now split|].
  cbn [readlines split]. destruct (Ascii.eqb c LF) eqn:E.
  - apply Ascii.eqb_eq in E. subst c. split; [now right|].
    intros l Hl. destruct (split LF s) as [|x xs]; [contradiction|].
    destruct (readlines s) as [|y ys]; [contradiction|].
    destruct IH as [Hy Hys]. destruct Hl as [<-|Hl].
    + exists x. split; [now left | tauto].
    + destruct (Hys l Hl) as (l0 & H0 & Hl0). exists l0. split; [now right|tauto].
  - destruct (split LF s) as [|x xs]; [contradiction|].
    destruct (readlines s) as [|y ys].
    + destruct IH as [-> ->]. split; [now left | intros l []].
    + destruct IH as [Hy Hys]. split; [|exact Hys].
      destruct Hy as [->| ->]; [now left | now right].
Qed.

Lemma readlines_split : forall s l,
  In l (readlines s) ->
  exists l0, In l0 (split LF s) /\ (l = l0 ++ [LF] \/ l = l0).
Proof.
  intros s l H. pose proof (readlines_split_shape s) as S.
  destruct (split LF s) as [|x xs]; [contradiction|].
  destruct (readlines s) as [|y ys]; [contradiction|].
  destruct S as [Hy Hys]. destruct H as [<-|H].
  - exists x. split; [now left | tauto].
  - destruct (Hys l H) as (l0 & H0 & Hl0). exists l0. split; [now right|tauto].
Qed.

Lemma dropwhile_snoc : forall p s d,
  dropwhile p (s ++ [d]) = dropwhile p s ++ [d]
  \/ (p d = true /\ dropwhile p (s ++ [d]) = [] /\ dropwhile p s = []).
Proof.
  intros p s d. induction s as [|c s IH]; cbn [app dropwhile].
  - destruct (p d) eqn:E; [right; now repeat split | now left].
  - destruct (p c); [exact IH | now left].
Qed.

Lemma rstrip_by_snoc : forall p s d,
  p d = true -> rstrip_by p (s ++ [d]) = rstrip_by p s.
Proof.
  intros p s d H. unfold rstrip_by. rewrite rev_app_distr.
  cbn [rev app dropwhile]. now rewrite H.
Qed.

Lemma strip_by_snoc : forall p s d,
  p d = true -> strip_by p (s ++ [d]) = strip_by p s.
Proof.
  intros p s d H. unfold strip_by, lstrip_by.
  destruct (dropwhile_snoc p s d) as [->|(_ & -> & ->)];
    [now apply rstrip_by_snoc | reflexivity].
Qed.

Lemma close_line_is_marked : forall l,
  list_eqb (lower (strip l)) (lit "close:") = true ->
  is_sign_or_close l = true.
Proof. intros l H. unfold is_sign_or_close. rewrite H. apply orb_true_r. Qed.

(** A close: line found reading line by line is a line that [sign_file]
    and [unsign_file] remove. *)
Lemma has_close_marker_marked : forall content,
  has_close_marker content = true ->
  existsb is_sign_or_close (split LF (read_text content)) = true.
Proof.
  intros content H. unfold has_close_marker in H.
  apply existsb_exists in H as (l & Hl & H).
  apply readlines_split in Hl as (l0 & H0 & Hl).
  apply existsb_exists. exists l0. split; [exact H0|].
  apply close_line_is_marked.
  destruct Hl as [->| ->]; [|exact H].
  unfold strip in H. now rewrite strip_by_snoc in H by reflexivity.
Qed.

Lemma signed_text_sealed : forall X c,
  kept_ok X = true ->
  has_close_marker (signed_text X (compute_signature c)) = true.
Proof.
  intros X c K. destruct (signed_text_lines X c K) as [R _].
  unfold has_close_marker. rewrite R. unfold signed_text.
  set (sl := lit "sign: " ++ compute_signature c).
  assert (E0 : join LF (X ++ [[]; sl; lit "close:"]) =
               join LF (X ++ [[]; sl]) ++ LF :: CLOSE_LINE).
  { rewrite <- (join_snoc LF (X ++ [[]; sl]) CLOSE_LINE).
    - exact (f_equal (join LF) (app_assoc X [[]; sl] [CLOSE_LINE])).
    - intros E. apply app_eq_nil in E as [_ E]. discriminate E. }
  rewrite E0.
  destruct (readlines_app (join LF (X ++ [[]; sl])) CLOSE_LINE)
    as (l & L & E).
  rewrite E, existsb_app. apply orb_true_iff. right. reflexivity.
Qed.

(** X4.  After [sign_file] in place an ASCII file always carries the
    close: marker. *)
Theorem signed_file_has_close_marker : forall content,
  ascii_text content = true ->
  has_close_marker (snd (sign_file content true)) = true.
Proof.
  intros content _. rewrite sign_file_writes. cbn [snd].
  apply signed_text_sealed, kept_lines_ok.
Qed.

(** An instance: the two-line file whose last line has no newline. *)
Lemma signed_file_has_close_marker_witness :
  ascii_text unterminated_sn = true
  /\ has_close_marker (snd (sign_file unterminated_sn true)) = true.
Proof.
  split; [vm_compute; reflexivity|].
  apply (signed_file_has_close_marker unterminated_sn).
  vm_compute; reflexivity.
Defined.

(** X5.  After [unsign_file] an ASCII file has no close: marker, whether
    or not something was removed. *)
Theorem unsigned_file_has_no_close_marker : forall content,
  ascii_text content = true ->
  has_close_marker (snd (unsign_file content)) = false.
Proof.
  intros content _. apply not_true_is_false. intros H.
  apply has_close_marker_marked in H. revert H.
  rewrite (unsign_file_writes content).
  destruct (existsb is_sign_or_close (split LF (read_text content))) eqn:E;
    cbn [snd]; [|congruence].
  now rewrite (unsigned_text_unmarked _ (kept_lines_ok content)).
Qed.

(** An instance: a signed and sealed file. *)
Lemma unsigned_file_has_no_close_marker_witness :
  ascii_text signed_hi_sn = true
  /\ has_close_marker (snd (unsign_file signed_hi_sn)) = false.
Proof.
  split; [vm_compute; reflexivity|].
  apply (unsigned_file_has_no_close_marker signed_hi_sn).
  vm_compute; reflexivity.
Defined.

(** ** The lines [canonical_bytes] and [extract_signature] see *)

Lemma bytes_space_is_str_space : forall ch,
  bytes_isspace ch = true -> str_isspace ch = true.
Proof.
  intros [b0 b1 b2 b3 b4 b5 b6 b7];
    destruct b0, b1, b2, b3, b4, b5, b6, b7; vm_compute; congruence.
Qed.

Lemma lower_char_s_not_space : forall ch,
  lower_char ch = "s"%char -> str_isspace ch = false.
Proof.
  intros [b0 b1 b2 b3 b4 b5 b6 b7];
    destruct b0, b1, b2, b3, b4, b5, b6, b7; vm_compute; congruence.
Qed.

Lemma takewhile_all : forall p s c, In c (takewhile p s) -> p c = true.
Proof.
  intros p. induction s as [|x s IH]; intros c H; [contradiction|].
  cbn [takewhile] in H. destruct (p x) eqn:E; [|contradiction].
  destruct H as [<-|H]; [exact E | now apply IH].
Qed.

Lemma dropwhile_app_all : forall p u v,
  (forall c, In c u -> p c = true) -> dropwhile p (u ++ v) = dropwhile p v.
Proof.
  intros p. induction u as [|x u IH]; intros v H; [reflexivity|].
  cbn [app dropwhile]. rewrite (H x (or_introl eq_refl)).
  apply IH. intros c Hc. apply H. now right.
Qed.

(** A sign: line of the bytes test is one of the text test: the text test
    strips more. *)
Lemma sign_line_is_marked : forall l,
  is_sign_line l = true -> is_sign_or_close l = true.
Proof.
  intros l H. unfold is_sign_line, bytes_lstrip, lstrip_by in H.
  destruct (sign_line_shape _ H) as (a & r & Hx & Ha).
  destruct a as [|a0 a]; [discriminate Ha|].
  assert (Hs : str_isspace a0 = false).
  { apply lower_char_s_not_space. cbn [lower map] in Ha. now injection Ha. }
  assert (E : dropwhile str_isspace l = (a0 :: a) ++ ":"%char :: r).
  { rewrite <- (takewhile_dropwhile bytes_isspace l).
    rewrite dropwhile_app_all.
    - rewrite Hx. cbn [app dropwhile]. now rewrite Hs.
    - intros c Hc. apply bytes_space_is_str_space.
      now apply (takewhile_all bytes_isspace l). }
  unfold is_sign_or_close, strip, strip_by, lstrip_by. rewrite E.
  rewrite rstrip_by_keep by reflexivity.
  rewrite lower_app, Ha. reflexivity.
Qed.

Lemma normalize_eol_spec_starts : forall p s,
  (forall c, In c p -> Ascii.eqb c CR = false /\ Ascii.eqb c LF = false) ->
  startswith p (normalize_eol_spec s) = startswith p s.
Proof.
  induction p as [|x p IH]; intros s H; [reflexivity|].
  destruct s as [|c r]; [reflexivity|].
  destruct (H x (or_introl eq_refl)) as [Hcr Hlf].
  cbn [normalize_eol_spec]. destruct (Ascii.eqb c CR) eqn:E.
  - apply Ascii.eqb_eq in E. subst c. cbn [startswith].
    now rewrite Hcr, Hlf.
  - cbn [startswith]. f_equal. apply IH. intros y Hy. apply H. now right.
Qed.

Lemma normalize_newlines_bom : forall r,
  normalize_newlines (BOM ++ r) = BOM ++ normalize_newlines r.
Proof. intros r. rewrite !normalize_newlines_eq. reflexivity. Qed.

Lemma split_head_prefix : forall sep s l ls,
  split sep s = l :: ls -> exists t, s = l ++ t.
Proof.
  intros sep s l ls H. rewrite <- (join_split sep s), H.
  destruct ls as [|x ls].
  - exists []. cbn [join]. now rewrite app_nil_r.
  - exists (sep :: join sep (x :: ls)). reflexivity.
Qed.

Lemma split_bom : forall r,
  split LF (BOM ++ r) =
  match split LF r with
  | [] => [BOM]
  | l :: ls => (BOM ++ l) :: ls
  end.
Proof.
  intros r. unfold BOM. cbn [app split].
  change (Ascii.eqb (chr 239) LF) with false.
  change (Ascii.eqb (chr 187) LF) with false.
  change (Ascii.eqb (chr 191) LF) with false.
  cbv iota. destruct (split LF r); reflexivity.
Qed.

(** The bytes functions see the lines of the text, the first one without
    its byte-order mark. *)
Lemma file_lines_text : forall content,
  file_lines content = unmark_first (split LF (read_text content)).
Proof.
  intros content. unfold file_lines, read_text.
  fold (normalize_newlines content).
  unfold strip_bom at 1. destruct (startswith BOM content) eqn:E.
  - apply startswith_prefix in E as [r ->].
    change (skipn 3 (BOM ++ r)) with r.
    rewrite normalize_newlines_bom, split_bom.
    pose proof (split_not_nil LF (normalize_newlines r)) as Hn.
    destruct (split LF (normalize_newlines r)) as [|l ls]; [congruence|].
    reflexivity.
  - pose proof (split_not_nil LF (normalize_newlines content)) as Hn.
    destruct (split LF (normalize_newlines content)) as [|l ls] eqn:Es;
      [congruence|].
    cbn [unmark_first]. unfold strip_bom.
    destruct (startswith BOM l) eqn:El; [|reflexivity].
    exfalso. apply split_head_prefix in Es as [t Et].
    assert (Hb : startswith BOM (normalize_newlines content) = true)
      by (rewrite Et; now apply startswith_app_l).
    rewrite normalize_newlines_eq, normalize_eol_spec_starts in Hb.
    + congruence.
    + intros c [<-|[<-|[<-|[]]]]; split; reflexivity.
Qed.

Lemma unmark_first_app : forall X Z,
  unmark_first (X ++ [] :: Z) = unmark_first X ++ [] :: Z.
Proof. intros [|x X] Z; reflexivity. Qed.

Lemma unmark_first_clean : forall X,
  (forall l, In l X -> is_sign_or_close l = false) ->
  no_hidden_sign_in X = true ->
  forallb (fun l => negb (is_sign_line l)) (unmark_first X) = true.
Proof.
  intros X H Hh.
  assert (Hn : forall l, In l X -> is_sign_line l = false).
  { intros l Hl. destruct (is_sign_line l) eqn:E; [|reflexivity].
    apply sign_line_is_marked in E. rewrite (H l Hl) in E. discriminate E. }
  destruct X as [|l X]; [reflexivity|].
  unfold no_hidden_sign_in in Hh. cbn [unmark_first forallb] in *.
  apply andb_true_iff in Hh as [H1 H2]. apply andb_true_iff. split.
  - unfold strip_bom. unfold bom_hides_sign in H1.
    destruct (startswith BOM l); [exact H1|].
    now rewrite (Hn l (or_introl eq_refl)).
  - apply forallb_forall. intros x Hx. now rewrite (Hn x (or_intror Hx)).
Qed.

Lemma kept_ok_unmarked : forall X l,
  kept_ok X = true -> In l X -> is_sign_or_close l = false.
Proof.
  intros X l H Hl. apply kept_ok_spec in H as [Hp _].
  now apply Hp, plain_line_spec in Hl.
Qed.

Lemma signed_file_lines : forall X c,
  kept_ok X = true ->
  file_lines (signed_text X (compute_signature c)) =
  unmark_first X ++ [[]; sign_line_of (compute_signature c); CLOSE_LINE].
Proof.
  intros X c H. rewrite file_lines_text.
  destruct (signed_text_lines X c H) as [-> ->]. apply unmark_first_app.
Qed.

Lemma lines_before_sign_app : forall A sl B,
  begins_with_sign sl = true ->
  lines_before_sign (A ++ sl :: B) =
  Some (match lines_before_sign A with Some p => p | None => A end).
Proof.
  induction A as [|a A IH]; intros sl B H; cbn [app lines_before_sign].
  - now rewrite H.
  - destruct (begins_with_sign a); [reflexivity|].
    rewrite (IH sl B H). destruct (lines_before_sign A); reflexivity.
Qed.

Lemma canonical_bytes_lines : forall c pre,
  lines_before_sign (file_lines c) = Some pre ->
  canonical_bytes c = join LF pre.
Proof.
  intros c pre H. unfold canonical_bytes. fold (file_lines c).
  pose proof (find_sign_line_spec (file_lines c) 0) as Hf.
  rewrite H in Hf. destruct Hf as [-> Hfirst]. cbn [Nat.add].
  f_equal. exact Hfirst.
Qed.

Lemma canonical_bytes_unsigned : forall c,
  lines_before_sign (file_lines c) = None ->
  canonical_bytes c = join LF (file_lines c).
Proof.
  intros c H. unfold canonical_bytes. fold (file_lines c).
  pose proof (find_sign_line_spec (file_lines c) 0) as Hf.
  rewrite H in Hf. rewrite Hf. unfold file_lines.
  now rewrite join_split.
Qed.

Lemma extract_signature_none : forall c,
  lines_before_sign (file_lines c) = None -> extract_signature c = None.
Proof.
  intros c H. apply lines_before_sign_none in H.
  unfold extract_signature. fold (file_lines c).
  induction (file_lines c) as [|l ls IH]; [reflexivity|].
  cbn [forallb] in H. apply andb_true_iff in H as [Hl H].
  cbn [extract_signature_loop]. rewrite sign_line_strip.
  change (is_sign_line l) with (begins_with_sign l).
  apply negb_true_iff in Hl. rewrite Hl. now apply IH.
Qed.

Lemma extract_signature_some : forall c pre,
  lines_before_sign (file_lines c) = Some pre ->
  exists s, extract_signature c = Some s.
Proof.
  intros c pre H. apply lines_before_sign_some in H as (l & post & E & Hl & Hp).
  unfold extract_signature. fold (file_lines c). rewrite E.
  exists (sign_value l). now apply extract_signature_first.
Qed.

Lemma clean_lines_before_sign : forall ls,
  forallb (fun l => negb (is_sign_line l)) ls = true ->
  lines_before_sign ls = None.
Proof. intros ls H. now apply lines_before_sign_none. Qed.

(** What is hashed in a file written by [sign_file] does not depend on
    the signature written. *)
Lemma signed_text_canonical : forall X c,
  kept_ok X = true ->
  canonical_bytes (signed_text X (compute_signature c)) =
  join LF (match lines_before_sign (unmark_first X ++ [[]]) with
           | Some p => p
           | None => unmark_first X ++ [[]]
           end).
Proof.
  intros X c H. apply canonical_bytes_lines.
  rewrite (signed_file_lines X c H).
  destruct (written_sign_line_is_sign c) as [Hs _].
  exact (eq_trans
           (f_equal lines_before_sign
              (app_assoc (unmark_first X) [[]]
                 [sign_line_of (compute_signature c); CLOSE_LINE]))
           (lines_before_sign_app (unmark_first X ++ [[]])
              (sign_line_of (compute_signature c)) [CLOSE_LINE] Hs)).
Qed.

Lemma clean_with_blank : forall X,
  kept_ok X = true -> no_hidden_sign_in X = true ->
  forallb (fun l => negb (is_sign_line l)) (unmark_first X ++ [[]]) = true.
Proof.
  intros X H Hh. rewrite forallb_app. apply andb_true_iff. split.
  - apply unmark_first_clean; [|exact Hh].
    intros l Hl. now apply (kept_ok_unmarked X).
  - reflexivity.
Qed.

Lemma signed_text_canonical_clean : forall X c,
  kept_ok X = true -> no_hidden_sign_in X = true ->
  canonical_bytes (signed_text X (compute_signature c)) =
  join LF (unmark_first X ++ [[]]).
Proof.
  intros X c H Hh. rewrite (signed_text_canonical X c H).
  now rewrite (clean_lines_before_sign _ (clean_with_blank X H Hh)).
Qed.

Lemma signed_text_signature : forall X c,
  kept_ok X = true -> no_hidden_sign_in X = true ->
  extract_signature (signed_text X (compute_signature c)) =
  Some (compute_signature c).
Proof.
  intros X c H Hh. unfold extract_signature.
  fold (file_lines (signed_text X (compute_signature c))).
  rewrite (signed_file_lines X c H).
  destruct (written_sign_line_is_sign c) as [Hs _].
  exact (eq_trans
           (eq_trans
              (f_equal extract_signature_loop
                 (app_assoc (unmark_first X) [[]]
                    [sign_line_of (compute_signature c); CLOSE_LINE]))
              (extract_signature_first (unmark_first X ++ [[]])
                 (sign_line_of (compute_signature c)) [CLOSE_LINE]
                 (clean_with_blank X H Hh) Hs))
           (f_equal Some (sign_value_written c))).
Qed.

Lemma kept_lines_incl : forall content l,
  In l (kept_lines content) -> In l (split LF (read_text content)).
Proof.
  intros content l H. unfold kept_lines in H.
  apply drop_trailing_blank_incl in H. now apply filter_In in H as [H _].
Qed.

Lemma kept_lines_hide_nothing : forall content,
  no_hidden_sign content = true ->
  no_hidden_sign_in (kept_lines content) = true.
Proof.
  intros content H. unfold no_hidden_sign, no_hidden_sign_in in *.
  rewrite forallb_forall in H. apply forallb_forall.
  intros l Hl. apply H. now apply kept_lines_incl.
Qed.

(** A signed text that verifies. *)
Lemma signed_text_verifies : forall X c,
  kept_ok X = true -> no_hidden_sign_in X = true ->
  canonical_bytes c = join LF (unmark_first X ++ [[]]) ->
  verify_signature (signed_text X (compute_signature c)) =
  (true, msg_sealed (compute_signature c)).
Proof.
  intros X c H Hh Hc. unfold verify_signature.
  rewrite (signed_text_signature X c H Hh).
  assert (E : compute_signature (signed_text X (compute_signature c)) =
              compute_signature c).
  { unfold compute_signature at 1 3.
    now rewrite (signed_text_canonical_clean X c H Hh), Hc. }
  rewrite E, list_eqb_refl, (signed_text_sealed X c H). reflexivity.
Qed.

(** X6.  The value found on the sign: line of an ASCII file signed in
    place is the signature [sign_file] returned. *)
Theorem signed_file_signature : forall content,
  ascii_text content = true ->
  extract_signature (snd (sign_file content true)) =
  Some (fst (sign_file content true)).
Proof.
  intros content H. apply ascii_hides_nothing in H.
  rewrite sign_file_writes. cbn [fst snd].
  apply signed_text_signature;
    [apply kept_lines_ok | now apply kept_lines_hide_nothing].
Qed.

(** An instance: the two-line file whose last line has no newline. *)
Lemma signed_file_signature_witness :
  ascii_text unterminated_sn = true
  /\ extract_signature (snd (sign_file unterminated_sn true)) =
     Some (fst (sign_file unterminated_sn true)).
Proof.
  split; [vm_compute; reflexivity|].
  apply (signed_file_signature unterminated_sn). vm_compute; reflexivity.
Defined.

(** X7.  What [canonical_bytes] hashes in an ASCII file signed in place is
    the kept lines, each ended by a newline: whatever the end of the file
    was before. *)
Theorem signed_file_canonical : forall content,
  ascii_text content = true ->
  canonical_bytes (snd (sign_file content true)) =
  join LF (kept_lines content ++ [[]]).
Proof.
  intros content H.
  rewrite <- (unmark_first_ascii _ (kept_lines_ascii content H)) at 1.
  apply ascii_hides_nothing in H.
  rewrite sign_file_writes. cbn [snd].
  apply signed_text_canonical_clean;
    [apply kept_lines_ok | now apply kept_lines_hide_nothing].
Qed.

(** An instance: the signed file with CRLF line endings, signed again. *)
Lemma signed_file_canonical_witness :
  ascii_text crlf_signed_sn = true
  /\ canonical_bytes (snd (sign_file crlf_signed_sn true)) =
     join LF (kept_lines crlf_signed_sn ++ [[]]).
Proof.
  split; [vm_compute; reflexivity|].
  apply (signed_file_canonical crlf_signed_sn). vm_compute; reflexivity.
Defined.

(** X8.  Signing an ASCII file in place a second time always gives a file
    that verifies, sealed, with the signature the second call returned. *)
Theorem resign_verifies : forall content,
  ascii_text content = true ->
  verify_signature
    (snd (sign_file (snd (sign_file content true)) true)) =
  (true, msg_sealed (fst (sign_file (snd (sign_file content true)) true))).
Proof.
  intros content H. apply ascii_hides_nothing in H.
  rewrite (sign_file_writes content). cbn [snd].
  set (K := kept_lines content).
  set (T1 := signed_text K (compute_signature content)).
  rewrite (sign_file_writes T1). cbn [fst snd].
  pose proof (kept_lines_ok content) as HK. fold K in HK.
  pose proof (kept_lines_hide_nothing content H) as Hh. fold K in Hh.
  unfold T1 at 1. rewrite (kept_lines_signed K content HK).
  apply signed_text_verifies; [exact HK | exact Hh |].
  apply signed_text_canonical_clean; assumption.
Qed.

(** An instance: the two-line file whose last line has no newline, for
    which the first signing does not verify. *)
Lemma resign_verifies_witness :
  ascii_text unterminated_sn = true
  /\ verify_signature
       (snd (sign_file (snd (sign_file unterminated_sn true)) true)) =
     (true,
      msg_sealed
        (fst (sign_file (snd (sign_file unterminated_sn true)) true))).
Proof.
  split; [vm_compute; reflexivity|].
  apply (resign_verifies unterminated_sn). vm_compute; reflexivity.
Defined.

(** X9.  From the second signing on, [sign_file] in place on an ASCII file
    is at a fixed point: a further call returns the same signature and
    writes the same bytes. *)
Theorem resign_fixed_point : forall content,
  ascii_text content = true ->
  sign_file (snd (sign_file (snd (sign_file content true)) true)) true =
  sign_file (snd (sign_file content true)) true.
Proof.
  intros content _. rewrite (sign_file_writes content). cbn [snd].
  set (K := kept_lines content).
  set (T1 := signed_text K (compute_signature content)).
  pose proof (kept_lines_ok content) as HK. fold K in HK.
  assert (K1 : kept_lines T1 = K) by apply (kept_lines_signed K content HK).
  rewrite (sign_file_writes T1). cbn [snd]. rewrite K1.
  set (T2 := signed_text K (compute_signature T1)).
  rewrite (sign_file_writes T2).
  assert (K2 : kept_lines T2 = K) by apply (kept_lines_signed K T1 HK).
  assert (E : compute_signature T2 = compute_signature T1).
  { unfold compute_signature. unfold T2 at 1. unfold T1 at 2.
    now rewrite !(signed_text_canonical K _ HK). }
  now rewrite K2, E.
Qed.

(** An instance: the two-line file whose last line has no newline. *)
Lemma resign_fixed_point_witness :
  ascii_text unterminated_sn = true
  /\ sign_file
       (snd (sign_file (snd (sign_file unterminated_sn true)) true)) true =
     sign_file (snd (sign_file unterminated_sn true)) true.
Proof.
  split; [vm_compute; reflexivity|].
  apply (resign_fixed_point unterminated_sn). vm_compute; reflexivity.
Defined.

(** ** Files whose lines all end in a newline *)

Lemma terminated_text : forall X,
  kept_ok X = true ->
  split LF (read_text (join LF (X ++ [[]]))) = X ++ [[]].
Proof.
  intros X H. apply kept_ok_spec in H as [Hp _].
  assert (Hl : forall ch, ch = LF \/ ch = CR ->
               forall l, In l (X ++ [[]]) -> contains_char ch l = false).
  { intros ch Hch l Hl. apply in_app_or in Hl as [Hl|[<-|[]]]; [|reflexivity].
    apply Hp, plain_line_spec in Hl. destruct Hch; subst; tauto. }
  rewrite read_text_id.
  - apply split_join; [now destruct X | apply Hl; now left].
  - apply contains_char_join; [reflexivity | apply Hl; now right].
Qed.

Lemma terminated_kept : forall X,
  kept_ok X = true -> kept_lines (join LF (X ++ [[]])) = X.
Proof.
  intros X H. unfold kept_lines. rewrite (terminated_text X H).
  rewrite filter_app, (filter_all _ _ X).
  - cbn [filter]. change (is_sign_or_close []) with false. cbn [negb].
    rewrite drop_trailing_blank_snoc_blank.
    now apply kept_ok_spec in H as [_ H].
  - intros l Hl. now rewrite (kept_ok_unmarked X l H Hl).
Qed.

Lemma terminated_canonical : forall X,
  kept_ok X = true -> no_hidden_sign_in X = true ->
  canonical_bytes (join LF (X ++ [[]])) = join LF (unmark_first X ++ [[]]).
Proof.
  intros X H Hh.
  assert (E : file_lines (join LF (X ++ [[]])) = unmark_first X ++ [[]]).
  { rewrite file_lines_text, (terminated_text X H). apply unmark_first_app. }
  rewrite canonical_bytes_unsigned; [now rewrite E|].
  rewrite E. apply clean_lines_before_sign. now apply clean_with_blank.
Qed.

(** X10.  A file of plain ASCII lines, each ended by a newline and the
    last one not blank, verifies, sealed, once signed in place; the
    signature is the one of the file as it was. *)
Theorem sign_terminated_verifies : forall X,
  kept_ok X = true -> forallb ascii_text X = true ->
  verify_signature (snd (sign_file (join LF (X ++ [[]])) true)) =
  (true, msg_sealed (compute_signature (join LF (X ++ [[]])))).
Proof.
  intros X H Ha. pose proof (ascii_lines_hide_nothing X Ha) as Hh.
  rewrite sign_file_writes. cbn [snd].
  rewrite (terminated_kept X H).
  apply signed_text_verifies; [exact H | exact Hh |].
  now apply terminated_canonical.
Qed.

(** An instance: the file written by [test_signing] of test_sn.py. *)
Lemma sign_terminated_verifies_witness :
  kept_ok test_sign_lines = true
  /\ forallb ascii_text test_sign_lines = true
  /\ join LF (test_sign_lines ++ [[]]) = test_sign_sn
  /\ verify_signature
       (snd (sign_file (join LF (test_sign_lines ++ [[]])) true)) =
     (true, msg_sealed (compute_signature (join LF (test_sign_lines ++ [[]])))).
Proof.
  split; [vm_compute; reflexivity|].
  split; [vm_compute; reflexivity|].
  split; [vm_compute; reflexivity|].
  apply (sign_terminated_verifies test_sign_lines); vm_compute; reflexivity.
Defined.

(** ** Files without a signature *)

Lemma unsigned_file_clean : forall content,
  no_hidden_sign content = true ->
  lines_before_sign (file_lines (snd (unsign_file content))) = None.
Proof.
  intros content H. apply clean_lines_before_sign.
  rewrite file_lines_text, (unsign_file_writes content).
  destruct (existsb is_sign_or_close (split LF (read_text content))) eqn:E;
    cbn [snd].
  - pose proof (kept_lines_ok content) as HK.
    destruct (unsigned_text_lines _ HK) as [-> ->].
    destruct (kept_lines content) as [|k K] eqn:EK; [reflexivity|].
    rewrite <- EK in *. apply unmark_first_clean.
    + intros l Hl. now apply (kept_ok_unmarked (kept_lines content)).
    + now apply kept_lines_hide_nothing.
  - apply unmark_first_clean; [|exact H].
    intros l Hl. apply not_true_is_false. intros Hm.
    assert (Hex : existsb is_sign_or_close (split LF (read_text content))
                  = true) by (apply existsb_exists; now exists l).
    congruence.
Qed.

(** X11.  After [unsign_file] on an ASCII file, [verify_signature] finds
    no signature, whether or not something was removed. *)
Theorem unsigned_file_has_no_signature : forall content,
  ascii_text content = true ->
  verify_signature (snd (unsign_file content)) =
  (false, lit "No signature found in file").
Proof.
  intros content H. apply ascii_hides_nothing in H.
  unfold verify_signature.
  now rewrite (extract_signature_none _ (unsigned_file_clean content H)).
Qed.

(** An instance: a signed and sealed file. *)
Lemma unsigned_file_has_no_signature_witness :
  ascii_text signed_hi_sn = true
  /\ verify_signature (snd (unsign_file signed_hi_sn)) =
     (false, lit "No signature found in file").
Proof.
  split; [vm_compute; reflexivity|].
  apply (unsigned_file_has_no_signature signed_hi_sn). vm_compute; reflexivity.
Defined.

(** X12.  [verify_signature] answers that no signature was found exactly
    when no line of the file is a sign: line. *)
Theorem verify_no_signature_iff : forall content,
  verify_signature content = (false, lit "No signature found in file")
  <-> forallb (fun l => negb (is_sign_line l)) (file_lines content) = true.
Proof.
  intros content. split; intros H.
  - apply lines_before_sign_none.
    destruct (lines_before_sign (file_lines content)) as [pre|] eqn:E;
      [|reflexivity].
    exfalso. destruct (extract_signature_some content pre E) as [s Hs].
    unfold verify_signature in H. rewrite Hs in H.
    destruct (list_eqb s (compute_signature content));
      [destruct (has_close_marker content); discriminate H|].
    discriminate H.
  - unfold verify_signature.
    now rewrite (extract_signature_none _ (clean_lines_before_sign _ H)).
Qed.

(** X13.  What follows the first sign: line is not protected: two files
    with the same lines up to and including it are both valid or both
    invalid. *)
Theorem lines_after_sign_line_unprotected :
  forall content content' before sign_line after after',
  file_lines content = before ++ sign_line :: after ->
  file_lines content' = before ++ sign_line :: after' ->
  forallb (fun l => negb (is_sign_line l)) before = true ->
  is_sign_line sign_line = true ->
  fst (verify_signature content) = fst (verify_signature content').
Proof.
  intros c c' before sl after after' Hc Hc' Hb Hs.
  assert (V : forall d aft, file_lines d = before ++ sl :: aft ->
              fst (verify_signature d) =
              list_eqb (sign_value sl)
                (lit "SHA256-" ++ upper (SHA256.hexdigest (join LF before)))).
  { intros d aft Hd. unfold verify_signature, extract_signature.
    fold (file_lines d). rewrite Hd.
    rewrite (extract_signature_first before sl aft Hb Hs).
    unfold compute_signature.
    rewrite (canonical_bytes_first d before sl aft Hd Hb Hs).
    destruct (list_eqb _ _); [|reflexivity].
    destruct (has_close_marker d); reflexivity. }
  now rewrite (V c after Hc), (V c' after' Hc').
Qed.

(** An instance: a signed and sealed file, and the same file with a
    paragraph added after the seal. *)
Lemma lines_after_sign_line_unprotected_witness :
  file_lines signed_hi_sn =
    signed_hi_before ++ signed_hi_sign_line :: [lit "close:"]
  /\ file_lines signed_hi_appended_sn =
     signed_hi_before ++ signed_hi_sign_line
       :: [lit "close:"; lit "para: added after the seal"; []]
  /\ forallb (fun l => negb (is_sign_line l)) signed_hi_before = true
  /\ is_sign_line signed_hi_sign_line = true
  /\ fst (verify_signature signed_hi_sn) =
     fst (verify_signature signed_hi_appended_sn).
Proof.
  split; [vm_compute; reflexivity|].
  split; [vm_compute; reflexivity|].
  split; [vm_compute; reflexivity|].
  split; [vm_compute; reflexivity|].
  apply (lines_after_sign_line_unprotected signed_hi_sn signed_hi_appended_sn
           signed_hi_before signed_hi_sign_line [lit "close:"]
           [lit "close:"; lit "para: added after the seal"; []]);
    vm_compute; reflexivity.
Defined.

(** ** Line endings *)

Lemma canonical_bytes_by_lines : forall c,
  canonical_bytes c =
  join LF (match lines_before_sign (file_lines c) with
           | Some p => p
           | None => file_lines c
           end).
Proof.
  intros c. destruct (lines_before_sign (file_lines c)) as [p|] eqn:E.
  - now apply canonical_bytes_lines.
  - now apply canonical_bytes_unsigned.
Qed.

(** X14.  [verify_signature] and [compute_signature] see a file only
    through its text with universal newlines: two files that read as the
    same text have the same signature and get the same answer. *)
Theorem verify_depends_on_text : forall content content',
  read_text content = read_text content' ->
  compute_signature content = compute_signature content'
  /\ verify_signature content = verify_signature content'.
Proof.
  intros c c' H.
  assert (L : file_lines c = file_lines c')
    by (now rewrite !file_lines_text, H).
  assert (S : compute_signature c = compute_signature c')
    by (unfold compute_signature; now rewrite !canonical_bytes_by_lines, L).
  split; [exact S|].
  unfold verify_signature, extract_signature, has_close_marker.
  fold (file_lines c). fold (file_lines c'). now rewrite L, S, H.
Qed.

(** An instance: the signed file with CRLF line endings, and the same file
    with its first CR deleted. *)
Lemma verify_depends_on_text_witness :
  read_text crlf_signed_sn = read_text (crlf_prefix_edited ++ crlf_tail)
  /\ compute_signature crlf_signed_sn =
     compute_signature (crlf_prefix_edited ++ crlf_tail)
  /\ verify_signature crlf_signed_sn =
     verify_signature (crlf_prefix_edited ++ crlf_tail).
Proof.
  split; [vm_compute; reflexivity|].
  apply (verify_depends_on_text crlf_signed_sn
           (crlf_prefix_edited ++ crlf_tail)).
  vm_compute; reflexivity.
Defined.

(** * The parser *)

(** ** What [parse] can raise *)

Lemma bind_outcome :
  forall (A B : Type) (Q0 : A -> SNTokenizer -> Prop)
         (Q : B -> SNTokenizer -> Prop) (P : str -> Prop)
         (c : M A) (k : A -> M B) tk,
  outcome Q0 P (c tk) ->
  (forall a tk', Q0 a tk' -> outcome Q P (k a tk')) ->
  outcome Q P (bind c k tk).
Proof.
  intros A B Q0 Q P c k tk Hc Hk. unfold bind.
  destruct (c tk) as [[a tk']| |]; cbn in *; [now apply Hk | exact Hc | exact I].
Qed.

Lemma consume_line_outcome : forall (P : str -> Prop) tk,
  outcome (fun _ tk' => lines tk' = lines tk) P (consume_line tk).
Proof.
  intros P tk. unfold consume_line.
  destruct (nth_error (lines tk) (current_line tk)); reflexivity.
Qed.

Lemma parse_list_loop_outcome : forall (P : str -> Prop) fuel items tk,
  outcome (fun _ tk' => lines tk' = lines tk) P
          (_parse_list_loop fuel items tk).
Proof.
  intros P. induction fuel as [|fuel IH]; intros items tk;
    cbn [_parse_list_loop]; unfold bind at 1, has_more;
    destruct (Nat.ltb (current_line tk) (length (lines tk)));
    try reflexivity; try exact I.
  unfold bind at 1, peek_line.
  destruct (is_blank _); [reflexivity|].
  destruct (is_comment _).
  - unfold bind, consume_line.
    destruct (nth_error (lines tk) (current_line tk));
      [ exact (IH _ (mkTokenizer (lines tk) (S (current_line tk))))
      | exact (IH _ tk) ].
  - destruct (_looks_like_command _); [reflexivity|].
    unfold bind, consume_line.
    destruct (nth_error (lines tk) (current_line tk));
      [ exact (IH _ (mkTokenizer (lines tk) (S (current_line tk))))
      | exact (IH _ tk) ].
Qed.

Lemma parse_code_block_loop_outcome : forall (P : str -> Prop) fuel acc tk,
  outcome (fun _ tk' => lines tk' = lines tk) P
          (_parse_code_block_loop fuel acc tk).
Proof.
  intros P. induction fuel as [|fuel IH]; intros acc tk;
    cbn [_parse_code_block_loop]; unfold bind at 1, has_more;
    destruct (Nat.ltb (current_line tk) (length (lines tk)));
    try reflexivity; try exact I.
  unfold bind at 1, peek_line.
  destruct (list_eqb _ _).
  - unfold bind, consume_line, ret.
    destruct (nth_error (lines tk) (current_line tk)); reflexivity.
  - unfold bind, consume_line.
    destruct (nth_error (lines tk) (current_line tk));
      [ exact (IH _ (mkTokenizer (lines tk) (S (current_line tk))))
      | exact (IH _ tk) ].
Qed.

Lemma parse_header_loop_outcome : forall (P : str -> Prop) fuel tk,
  outcome (fun _ tk' => lines tk' = lines tk) P (_parse_header_loop fuel tk).
Proof.
  intros P. induction fuel as [|fuel IH]; intros tk;
    cbn [_parse_header_loop]; unfold bind at 1, has_more;
    destruct (Nat.ltb (current_line tk) (length (lines tk)));
    try reflexivity; try exact I.
  unfold bind at 1, peek_line.
  destruct (is_blank _ || is_comment _).
  - unfold bind, consume_line.
    destruct (nth_error (lines tk) (current_line tk));
      [ exact (IH (mkTokenizer (lines tk) (S (current_line tk))))
      | exact (IH tk) ].
  - destruct (list_eqb _ _); [|reflexivity].
    unfold bind, consume_line, ret.
    destruct (nth_error (lines tk) (current_line tk)); reflexivity.
Qed.

Lemma parse_metadata_loop_outcome : forall (P : str -> Prop) fuel md tk,
  outcome (fun m tk' =>
             lines tk' = lines tk
             /\ (forallb is_MetaNode md = true -> forallb is_MetaNode m = true))
          P (_parse_metadata_loop fuel md tk).
Proof.
  intros P. induction fuel as [|fuel IH]; intros md tk;
    cbn [_parse_metadata_loop]; unfold bind at 1, has_more;
    destruct (Nat.ltb (current_line tk) (length (lines tk)));
    try (now split); try exact I.
  unfold bind at 1, peek_line.
  destruct (is_blank _ || is_comment _).
  - unfold bind, consume_line.
    destruct (nth_error (lines tk) (current_line tk));
      [ exact (IH _ (mkTokenizer (lines tk) (S (current_line tk))))
      | exact (IH _ tk) ].
  - destruct (startswith _ _); [|now split].
    unfold bind at 1, consume_line.
    set (c := strip (skipn 5 _)).
    assert (Hc : forall tk1, lines tk1 = lines tk ->
              outcome (fun m tk' =>
                 lines tk' = lines tk
                 /\ (forallb is_MetaNode md = true ->
                     forallb is_MetaNode m = true)) P
                (_parse_metadata_loop fuel (md ++ [MetaNode c]) tk1)).
    { intros tk1 H1. pose proof (IH (md ++ [MetaNode c]) tk1) as H.
      destruct (_parse_metadata_loop fuel (md ++ [MetaNode c]) tk1)
        as [[m tk']| |]; cbn in *; try assumption.
      destruct H as [Hl Hm]. split; [congruence|].
      intros Hmd. apply Hm. rewrite forallb_app, Hmd. reflexivity. }
    destruct (nth_error (lines tk) (current_line tk)); now apply Hc.
Qed.

Section NodeOutcome.
Variable tk : SNTokenizer.
Variable P : str -> Prop.

Lemma and_then_outcome :
  forall (s : M (option (option ASTNode))) (rest : M (option ASTNode)) tk',
  outcome (statement_kept tk) P (s tk') ->
  (forall tk'', lines tk'' = lines tk -> outcome (node_kept tk) P (rest tk'')) ->
  outcome (node_kept tk) P ((s ;;; rest) tk').
Proof.
  intros s rest tk' Hs Hrest. unfold and_then, bind.
  destruct (s tk') as [[[v|] tk'']| |]; cbn in Hs |- *;
    [exact Hs | apply Hrest; apply Hs | exact Hs | exact I].
Qed.

Lemma consume_ret_outcome : forall (o : option (option ASTNode)) tk',
  lines tk' = lines tk ->
  match o with Some (Some n) => is_MetaNode n = false | _ => True end ->
  outcome (statement_kept tk) P ((consume_line ;; ret o) tk').
Proof.
  intros o tk' Hl Ho. unfold bind, consume_line, ret.
  destruct (nth_error (lines tk') (current_line tk')); cbn; now split.
Qed.

Lemma goes_on_outcome : forall tk',
  lines tk' = lines tk -> outcome (statement_kept tk) P (@goes_on (option ASTNode) tk').
Proof. intros tk' Hl. cbn. now split. Qed.

Lemma parse_list_outcome : forall first_line tk',
  lines tk' = lines tk ->
  P (lit "Invalid list type: " ++ first_line) ->
  outcome (statement_kept tk) P ((node <- _parse_list first_line ;; returns (Some node)) tk').
Proof.
  intros first_line tk' Hl HP. unfold bind at 1, _parse_list.
  destruct (re_match_olist first_line) as [g|]; [|exact HP].
  unfold bind at 1, consume_line.
  assert (H : forall tk1, lines tk1 = lines tk ->
            outcome (statement_kept tk) P
              match
                (items <- (fun t => _parse_list_loop (remaining t) [] t) ;;
                 ret (ListNode (lower g) items)) tk1
              with
              | Ok (a, tk2) => returns (Some a) tk2
              | Raise e => Raise e
              | OutOfFuel => OutOfFuel
              end).
  { intros tk1 H1. unfold bind.
    pose proof (parse_list_loop_outcome P (remaining tk1) [] tk1) as Hp.
    destruct (_parse_list_loop (remaining tk1) [] tk1) as [[items tk2]| |];
      cbn in *; [|exact Hp | exact I].
    split; [congruence | reflexivity]. }
  destruct (nth_error (lines tk') (current_line tk')); now apply H.
Qed.

Lemma parse_code_block_outcome : forall tk',
  lines tk' = lines tk ->
  outcome (statement_kept tk) P ((node <- _parse_code_block ;; returns (Some node)) tk').
Proof.
  intros tk' Hl. unfold bind at 1, _parse_code_block.
  unfold bind at 1, consume_line.
  assert (H : forall tk1, lines tk1 = lines tk ->
            outcome (statement_kept tk) P
              match
                (code_lines <-
                   (fun t => _parse_code_block_loop (remaining t) [] t) ;;
                 ret (CodeBlockNode (join LF code_lines))) tk1
              with
              | Ok (a, tk2) => returns (Some a) tk2
              | Raise e => Raise e
              | OutOfFuel => OutOfFuel
              end).
  { intros tk1 H1. unfold bind.
    pose proof (parse_code_block_loop_outcome P (remaining tk1) [] tk1) as Hp.
    destruct (_parse_code_block_loop (remaining tk1) [] tk1)
      as [[cl tk2]| |]; cbn in *; [|exact Hp | exact I].
    split; [congruence | reflexivity]. }
  destruct (nth_error (lines tk') (current_line tk')); now apply H.
Qed.
End NodeOutcome.

Lemma parse_image_kind : forall c, is_MetaNode (_parse_image c) = false.
Proof. intros c. unfold _parse_image. now destruct (contains_char _ _). Qed.

Lemma parse_link_text_kind : forall c, is_MetaNode (_parse_link_text c) = false.
Proof.
  intros c. unfold _parse_link_text.
  destruct (contains_char "|" c); [reflexivity|].
  now destruct (contains_char ":" c).
Qed.

(** [_parse_node] leaves the lines as they are, never answers with a
    [MetaNode], and raises one of the two messages of [node_error]. *)
Lemma parse_node_outcome : forall mode tk,
  outcome (node_kept tk) (node_error mode (lines tk)) (_parse_node mode tk).
Proof.
  intros mode tk. unfold _parse_node. unfold bind at 1, peek_line.
  destruct (nth_error (lines tk) (current_line tk)) as [line|] eqn:Hline;
    [|now split].
  apply nth_error_In in Hline.
  destruct (is_blank line || is_comment line).
  { unfold bind, consume_line, ret.
    destruct (nth_error (lines tk) (current_line tk)); now split. }
  assert (Hl : lines tk = lines tk) by reflexivity.
  revert Hl. generalize tk at 1 5 as tk'. intros tk' Hl.
  repeat (apply and_then_outcome;
    [ match goal with
      | |- outcome _ _ ((if ?c then _ else _) _) =>
          destruct c;
          [ first
              [ apply consume_ret_outcome;
                  [assumption
                  | first [ reflexivity | apply parse_image_kind
                          | apply parse_link_text_kind ] ]
              | apply parse_list_outcome;
                  [assumption | left; exists line; now split]
              | apply parse_code_block_outcome; assumption
              | match goal with
                | |- context [re_match_keyed ?k ?s] =>
                    destruct (re_match_keyed k s) as [[g1 g2]|];
                    (apply consume_ret_outcome;
                       [assumption | first [reflexivity | exact I]])
                end ]
          | apply goes_on_outcome; assumption ]
      end
    | clear tk' Hl; intros tk' Hl ]).
  destruct mode; cbn [is_strict].
  - unfold bind, consume_line, ret.
    destruct (nth_error (lines tk') (current_line tk')); cbn; now split.
  - right. split; [reflexivity|]. exists line. now split.
Qed.

Lemma no_EndNewSNNode_snoc : forall ns n,
  no_EndNewSNNode ns = true -> is_EndNewSNNode n = false ->
  no_EndNewSNNode (ns ++ [n]) = true.
Proof.
  intros ns n H Hn. unfold no_EndNewSNNode in *.
  rewrite forallb_app, H. cbn. now rewrite Hn.
Qed.

Lemma endnewsn_only_last_snoc : forall ns n,
  no_EndNewSNNode ns = true -> endnewsn_only_last (ns ++ [n]) = true.
Proof.
  induction ns as [|x ns IH]; intros n H.
  - cbn. now destruct (is_EndNewSNNode n).
  - cbn [no_EndNewSNNode forallb] in H. apply andb_true_iff in H as [Hx H].
    apply negb_true_iff in Hx. cbn [app endnewsn_only_last]. rewrite Hx.
    now apply IH.
Qed.

Lemma endnewsn_only_last_none : forall ns,
  no_EndNewSNNode ns = true -> endnewsn_only_last ns = true.
Proof.
  induction ns as [|x ns IH]; intros H; [reflexivity|].
  cbn [no_EndNewSNNode forallb] in H. apply andb_true_iff in H as [Hx H].
  apply negb_true_iff in Hx. cbn [endnewsn_only_last]. rewrite Hx.
  now apply IH.
Qed.

Lemma outcome_weaken :
  forall (A : Type) (Q Q' : A -> SNTokenizer -> Prop) (P P' : str -> Prop) r,
  outcome Q P r ->
  (forall a t, Q a t -> Q' a t) -> (forall e, P e -> P' e) ->
  outcome Q' P' r.
Proof.
  intros A Q Q' P P' r H HQ HP.
  destruct r as [[a t]| |]; cbn in *; auto.
Qed.

(** One more node: what holds of the rest of the loop from the extended
    document holds from the document before. *)
Lemma body_kept_step : forall mode doc doc1 node d,
  metadata doc1 = metadata doc ->
  nodes doc1 = nodes doc ++ [node] ->
  is_MetaNode node = false ->
  (mode = STRICT -> is_EndNewSNNode node = false) ->
  body_kept mode doc1 d -> body_kept mode doc d.
Proof.
  intros mode doc doc1 node d Hm Hn Hk He (H1 & H2 & H3).
  split; [congruence|]. split.
  - intros H. apply H2. rewrite Hn. unfold no_MetaNode in *.
    rewrite forallb_app, H. cbn. now rewrite Hk.
  - intros Hs H. apply H3; [exact Hs|]. rewrite Hn.
    apply no_EndNewSNNode_snoc; [exact H | now apply He].
Qed.

Lemma parse_body_outcome : forall mode fuel doc tk,
  outcome (fun d _ => body_kept mode doc d) (node_error mode (lines tk))
          (parse_body mode fuel doc tk).
Proof.
  intros mode. induction fuel as [|fuel IH]; intros doc tk;
    cbn [parse_body]; unfold bind at 1, has_more;
    destruct (Nat.ltb (current_line tk) (length (lines tk)));
    try exact I;
    try (cbn; split; [reflexivity | split; [tauto |]];
         intros _ H; now apply endnewsn_only_last_none).
  unfold bind at 1. pose proof (parse_node_outcome mode tk) as Hn.
  destruct (_parse_node mode tk) as [[node tk1]| |]; cbn in Hn;
    [|exact Hn | exact I].
  destruct Hn as [Hl Hk].
  assert (Hnext : forall doc1,
            outcome (fun d _ => body_kept mode doc1 d)
                    (node_error mode (lines tk))
                    (parse_body mode fuel doc1 tk1))
    by (intros doc1; rewrite <- Hl; apply IH).
  destruct node as [node|]; [|apply Hnext].
  assert (Hstep : forall doc1,
            metadata doc1 = metadata doc ->
            nodes doc1 = nodes doc ++ [node] ->
            (mode = STRICT -> is_EndNewSNNode node = false) ->
            outcome (fun d _ => body_kept mode doc d)
                    (node_error mode (lines tk))
                    (parse_body mode fuel doc1 tk1)).
  { intros doc1 Hm Hd He.
    apply (outcome_weaken _ _ _ _ _ _ (Hnext doc1)); [|tauto].
    intros d _. now apply (body_kept_step mode doc doc1 node d). }
  destruct node; try (apply Hstep; [reflexivity | reflexivity | intros _; reflexivity]).
  destruct mode; cbn [is_strict].
  - apply Hstep; [reflexivity | reflexivity | discriminate].
  - cbn. split; [reflexivity|]. split.
    + intros H. unfold no_MetaNode in *. cbn [nodes set_nodes].
      rewrite forallb_app, H. reflexivity.
    + intros _ H. cbn [nodes set_nodes].
      now apply endnewsn_only_last_snoc.
Qed.

(** [parse] as a whole: the kinds of nodes of the document it returns and
    the messages it raises. *)
Lemma parse_outcome : forall mode content,
  match parse mode content with
  | Ok doc =>
      forallb is_MetaNode (metadata doc) = true
      /\ no_MetaNode (nodes doc) = true
      /\ (mode = STRICT -> endnewsn_only_last (nodes doc) = true)
  | Raise e => e = MISSING_HEADER \/ node_error mode (split LF content) e
  | OutOfFuel => True
  end.
Proof.
  intros mode content. unfold parse, parse_from.
  set (tk := new_tokenizer content).
  unfold bind, _parse_header, _parse_metadata. cbv beta.
  pose proof (parse_header_loop_outcome (fun _ => False) (remaining tk) tk)
    as Hh.
  destruct (_parse_header_loop (remaining tk) tk) as [[ok tk0]| |];
    cbn in Hh; [|contradiction | exact I].
  destruct ok; cbn [negb]; [|now left].
  pose proof (parse_metadata_loop_outcome (fun _ => False) (remaining tk0)
                [] tk0) as Hm.
  destruct (_parse_metadata_loop (remaining tk0) [] tk0) as [[md tk1]| |];
    cbn in Hm; [|contradiction | exact I].
  destruct Hm as [Hl1 Hmd].
  pose proof (parse_body_outcome mode (remaining tk1)
                (set_metadata new_document md) tk1) as Hb.
  destruct (parse_body mode (remaining tk1) (set_metadata new_document md)
              tk1) as [[doc tk2]| |]; cbn in Hb; [| |exact I].
  - destruct Hb as (H1 & H2 & H3). split; [|split].
    + rewrite H1. cbn. now apply Hmd.
    + now apply H2.
    + intros Hs. now apply H3.
  - right. rewrite Hl1, Hh in Hb. exact Hb.
Qed.

(** X15.  On an ASCII text [parse] returns a document or raises one of
    three messages: the header is missing; an olist: line, named in the
    message without its surrounding blanks, has an unknown type; or, in
    strict mode only, a line, named as it stands, is an unknown
    command. *)
Theorem parse_returns_or_raises_known : forall mode content,
  ascii_text content = true ->
  (exists doc, parse mode content = Ok doc)
  \/ parse mode content = Raise MISSING_HEADER
  \/ (exists line,
        In line (split LF content)
        /\ parse mode content =
           Raise (lit "Invalid list type: " ++ strip line))
  \/ (mode = STRICT
      /\ exists line,
           In line (split LF content)
           /\ parse mode content =
              Raise (lit "Unknown command in strict mode: " ++ line)).
Proof.
  intros mode content _. pose proof (parse_outcome mode content) as H.
  destruct (parse_terminates mode content) as [[doc E]|[e E]];
    [left; now exists doc|].
  right. rewrite E in H.
  destruct H as [->|[(line & Hl & ->)|(Hs & line & Hl & ->)]].
  - now left.
  - right; left. now exists line.
  - right; right. split; [exact Hs | now exists line].
Qed.

(** An instance: a list of an unknown type, in lenient mode. *)
Lemma parse_returns_or_raises_known_witness :
  ascii_text bad_list_sn = true
  /\ parse LENIENT bad_list_sn =
     Raise (lit "Invalid list type: olist:circle")
  /\ ((exists doc, parse LENIENT bad_list_sn = Ok doc)
      \/ parse LENIENT bad_list_sn = Raise MISSING_HEADER
      \/ (exists line,
            In line (split LF bad_list_sn)
            /\ parse LENIENT bad_list_sn =
               Raise (lit "Invalid list type: " ++ strip line))
      \/ (LENIENT = STRICT
          /\ exists line,
               In line (split LF bad_list_sn)
               /\ parse LENIENT bad_list_sn =
                  Raise (lit "Unknown command in strict mode: " ++ line))).
Proof.
  split; [vm_compute; reflexivity|].
  split; [vm_compute; reflexivity|].
  apply (parse_returns_or_raises_known LENIENT bad_list_sn).
  vm_compute; reflexivity.
Defined.

(** X16.  In a document [parse] returns, the metadata are [MetaNode]s and
    none of the nodes is: a meta: line met after the metadata block is
    not metadata. *)
Theorem parsed_document_kinds : forall mode content doc,
  parse mode content = Ok doc ->
  forallb is_MetaNode (metadata doc) = true
  /\ no_MetaNode (nodes doc) = true.
Proof.
  intros mode content doc E. pose proof (parse_outcome mode content) as H.
  rewrite E in H. tauto.
Qed.

(** An instance: a file with a meta: line in its body. *)
Lemma parsed_document_kinds_witness :
  parse LENIENT part_one_sn = Ok part_one_lenient
  /\ forallb is_MetaNode (metadata part_one_lenient) = true
  /\ no_MetaNode (nodes part_one_lenient) = true.
Proof.
  split; [vm_compute; reflexivity|].
  apply (parsed_document_kinds LENIENT part_one_sn part_one_lenient).
  vm_compute; reflexivity.
Defined.

(** X17.  In strict mode [parse] stops at the first endnewsn: line: in the
    document it returns no node follows an [EndNewSNNode]. *)
Theorem strict_stops_at_endnewsn : forall content doc,
  parse STRICT content = Ok doc ->
  endnewsn_only_last (nodes doc) = true.
Proof.
  intros content doc E. pose proof (parse_outcome STRICT content) as H.
  rewrite E in H. now apply H.
Qed.

(** An instance: a file that goes on after its endnewsn: line, with a
    line that strict mode would refuse and a signature. *)
Lemma strict_stops_at_endnewsn_witness :
  parse STRICT part_one_sn = Ok part_one_strict
  /\ endnewsn_only_last (nodes part_one_strict) = true.
Proof.
  split; [vm_compute; reflexivity|].
  apply (strict_stops_at_endnewsn part_one_sn part_one_strict).
  vm_compute; reflexivity.
Defined.

(** ** The header *)

Lemma skipn_nth_error : forall (A : Type) (l : list A) n x,
  nth_error l n = Some x -> skipn n l = x :: skipn (S n) l.
Proof.
  intros A. induction l as [|y l IH]; intros [|n] x H; try discriminate H.
  - now injection H as ->.
  - cbn [nth_error] in H. cbn [skipn]. rewrite (IH n x H). reflexivity.
Qed.

Lemma skipn_beyond : forall (A : Type) (l : list A) n,
  Nat.ltb n (length l) = false -> skipn n l = [].
Proof. intros A l n H. apply Nat.ltb_ge in H. now apply skipn_all2. Qed.

Lemma parse_header_loop_spec : forall fuel tk,
  remaining tk <= fuel ->
  exists tk',
    _parse_header_loop fuel tk =
    Ok (has_header (skipn (current_line tk) (lines tk)), tk').
Proof.
  induction fuel as [|fuel IH]; intros tk Hf; cbn [_parse_header_loop];
    unfold bind at 1, has_more.
  - rewrite (no_fuel_no_more tk Hf).
    rewrite (skipn_beyond _ _ _ (no_fuel_no_more tk Hf)).
    now exists tk.
  - destruct (Nat.ltb (current_line tk) (length (lines tk))) eqn:Hmore.
    2:{ rewrite (skipn_beyond _ _ _ Hmore). now exists tk. }
    destruct (has_more_peek tk Hmore) as [line Hline].
    unfold bind at 1, peek_line. rewrite Hline.
    rewrite (skipn_nth_error _ _ _ _ Hline). cbn [has_header].
    destruct (is_blank line || is_comment line).
    + unfold bind, consume_line. rewrite Hline.
      destruct (IH (mkTokenizer (lines tk) (S (current_line tk)))
                  (remaining_after_consume tk fuel Hmore Hf)) as [tk' E].
      exists tk'. exact E.
    + destruct (list_eqb (strip line) (lit "<super-notation-v1>")).
      * unfold bind, consume_line, ret. rewrite Hline. eexists. reflexivity.
      * now exists tk.
Qed.

(** X18.  In both modes [parse] raises the missing-header message on an
    ASCII text exactly when the first line that is neither blank nor a
    comment is not the header line, or there is no such line. *)
Theorem missing_header_iff : forall mode content,
  ascii_text content = true ->
  (parse mode content = Raise MISSING_HEADER
   <-> has_header (split LF content) = false).
Proof.
  intros mode content _.
  assert (Hh : exists tk',
            _parse_header (new_tokenizer content) =
            Ok (has_header (split LF content), tk'))
    by (apply (parse_header_loop_spec _ (new_tokenizer content) (le_n _))).
  destruct Hh as [tk' Hh].
  destruct (has_header (split LF content)) eqn:E.
  - split; [|discriminate]. intros Hr. exfalso.
    unfold parse, parse_from in Hr. unfold bind at 1 in Hr.
    rewrite Hh in Hr. cbn [negb] in Hr. unfold bind, _parse_metadata in Hr.
    pose proof (parse_metadata_loop_outcome (fun _ => False) (remaining tk')
                  [] tk') as Hm.
    destruct (_parse_metadata_loop (remaining tk') [] tk') as [[md tk1]| |];
      cbn in Hm; try discriminate Hr; try contradiction.
    pose proof (parse_body_outcome mode (remaining tk1)
                  (set_metadata new_document md) tk1) as Hb.
    destruct (parse_body mode (remaining tk1) (set_metadata new_document md)
                tk1) as [[doc tk2]| |]; try discriminate Hr.
    injection Hr as ->. cbn in Hb.
    destruct Hb as [(line & _ & Hb)|(_ & line & _ & Hb)]; discriminate Hb.
  - split; [reflexivity|]. intros _.
    unfold parse, parse_from. unfold bind at 1. rewrite Hh. reflexivity.
Qed.

(** An instance: a file that begins with a comment and has no header. *)
Lemma missing_header_iff_witness :
  ascii_text no_header_sn = true
  /\ has_header (split LF no_header_sn) = false
  /\ (parse STRICT no_header_sn = Raise MISSING_HEADER
      <-> has_header (split LF no_header_sn) = false).
Proof.
  split; [vm_compute; reflexivity|].
  split; [vm_compute; reflexivity|].
  apply (missing_header_iff STRICT no_header_sn). vm_compute; reflexivity.
Defined.

(** ** Lines that are no command *)

Lemma list_eqb_needs_prefix : forall p q s,
  startswith p s = false -> list_eqb s (p ++ q) = false.
Proof.
  intros p q s H. apply not_true_is_false. intros E.
  apply list_eqb_eq in E. subst s. now rewrite startswith_app in H.
Qed.

(** A line on which every test of [_parse_node] fails. *)
Lemma parse_node_fallthrough : forall mode tk line,
  nth_error (lines tk) (current_line tk) = Some line ->
  is_blank line || is_comment line = false ->
  existsb (fun kw => startswith kw (lower (strip line))) node_keywords
    = false ->
  _parse_node mode tk = unknown_outcome mode tk line.
Proof.
  intros mode tk line Hline Hb Hc.
  cbn [existsb node_keywords] in Hc.
  repeat match type of Hc with
         | _ || _ = false => apply orb_false_iff in Hc as [? Hc]
         end.
  set (lw := lower (strip line)) in *.
  assert (B1 : list_eqb lw (lit "break-line") = false)
    by (apply (list_eqb_needs_prefix (lit "break-line") []); assumption).
  assert (B2 : list_eqb lw (lit "break-line:") = false)
    by (apply (list_eqb_needs_prefix (lit "break-line") (lit ":"));
        assumption).
  assert (B3 : list_eqb lw (lit "code:") = false)
    by (apply (list_eqb_needs_prefix (lit "code:") []); assumption).
  assert (B4 : list_eqb lw (lit "close:") = false)
    by (apply (list_eqb_needs_prefix (lit "close:") []); assumption).
  unfold _parse_node. unfold bind at 1, peek_line. rewrite Hline, Hb.
  cbv zeta. fold lw. rewrite B1, B2, B3, B4.
  repeat match goal with
         | H : startswith _ lw = false |- _ => rewrite H; clear H
         end.
  unfold unknown_outcome.
  destruct mode; cbn [is_strict andb orb];
    unfold and_then, bind, goes_on, ret, raise_ValueError, consume_line;
    [rewrite Hline|]; reflexivity.
Qed.

(** X19.  An ASCII line that is neither blank nor a comment and does not
    look like a command is an unknown line: strict mode raises with the
    line as it stands, lenient mode keeps it, untrimmed, as an
    [UnknownNode] and consumes it. *)
Theorem unknown_line : forall mode tk line,
  nth_error (lines tk) (current_line tk) = Some line ->
  ascii_text line = true ->
  is_blank line || is_comment line = false ->
  _looks_like_command line = false ->
  _parse_node mode tk = unknown_outcome mode tk line.
Proof.
  intros mode tk line Hline _ Hb Hc.
  apply parse_node_fallthrough; [exact Hline | exact Hb |].
  unfold _looks_like_command in Hc. cbv zeta in Hc.
  cbn [existsb commands] in Hc. cbn [existsb node_keywords].
  repeat match type of Hc with
         | _ || _ = false => apply orb_false_iff in Hc as [? Hc]
         end.
  repeat match goal with
         | H : startswith _ _ = false |- _ => rewrite H; clear H
         end.
  reflexivity.
Qed.

(** An instance: a line of plain text, in both modes. *)
Lemma unknown_line_witness :
  nth_error (lines on_plain_text) (current_line on_plain_text) =
    Some (lit "just some text")
  /\ ascii_text (lit "just some text") = true
  /\ is_blank (lit "just some text") || is_comment (lit "just some text")
     = false
  /\ _looks_like_command (lit "just some text") = false
  /\ _parse_node STRICT on_plain_text =
     unknown_outcome STRICT on_plain_text (lit "just some text")
  /\ _parse_node LENIENT on_plain_text =
     unknown_outcome LENIENT on_plain_text (lit "just some text").
Proof.
  split; [reflexivity|]. split; [reflexivity|]. split; [reflexivity|].
  split; [reflexivity|].
  split; apply (unknown_line _ on_plain_text (lit "just some text"));
    reflexivity.
Defined.

(** X20.  A meta: line met by [_parse_node], that is after the metadata
    block, is an unknown line although it looks like a command: strict
    mode raises, lenient mode keeps it as an [UnknownNode]. *)
Theorem late_meta_line_is_unknown : forall mode tk line,
  nth_error (lines tk) (current_line tk) = Some line ->
  startswith (lit "meta:") (lower (strip line)) = true ->
  _parse_node mode tk = unknown_outcome mode tk line.
Proof.
  intros mode tk line Hline Hm.
  apply startswith_prefix in Hm as [r E].
  apply parse_node_fallthrough; [exact Hline | | now rewrite E].
  destruct (strip line) as [|c s] eqn:Es; [discriminate E|].
  assert (Hb : is_blank line = false)
    by (unfold is_blank; rewrite Es; reflexivity).
  rewrite Hb. cbn [orb].
  destruct (strip_head line Es) as [r' Hl].
  unfold is_comment. rewrite Hl.
  change (startswith (lit "#") (c :: r')) with (Ascii.eqb "#" c && true).
  destruct (Ascii.eqb "#" c) eqn:X; [|reflexivity].
  apply Ascii.eqb_eq in X. subst c. discriminate E.
Qed.

(** An instance: a meta: line after a paragraph. *)
Lemma late_meta_line_is_unknown_witness :
  nth_error (lines on_late_meta) (current_line on_late_meta) =
    Some (lit "Meta: late=1")
  /\ startswith (lit "meta:") (lower (strip (lit "Meta: late=1"))) = true
  /\ _looks_like_command (lit "Meta: late=1") = true
  /\ _parse_node STRICT on_late_meta =
     unknown_outcome STRICT on_late_meta (lit "Meta: late=1").
Proof.
  split; [reflexivity|]. split; [reflexivity|]. split; [reflexivity|].
  apply (late_meta_line_is_unknown STRICT on_late_meta (lit "Meta: late=1"));
    reflexivity.
Defined.

(** ** Code blocks *)

Lemma parse_code_block_loop_closed : forall body endl rest ls cur fuel acc,
  skipn cur ls = body ++ endl :: rest ->
  forallb (fun l => negb (is_endcode l)) body = true ->
  is_endcode endl = true ->
  length body < fuel ->
  _parse_code_block_loop fuel acc (mkTokenizer ls cur) =
  Ok (acc ++ body, mkTokenizer ls (cur + length body + 1)).
Proof.
  induction body as [|b body IH]; intros endl rest ls cur fuel acc Hs Hb He Hf;
    (destruct fuel as [|fuel]; [inversion Hf|]);
    cbn [app] in Hs; apply skipn_cons_inv in Hs as (Hn & Hs & Hlt);
    cbn [_parse_code_block_loop]; unfold bind at 1, has_more;
    cbn [lines current_line];
    apply Nat.ltb_lt in Hlt; rewrite Hlt;
    unfold bind at 1, peek_line; cbn [lines current_line]; rewrite Hn.
  - unfold is_endcode in He. rewrite He.
    unfold bind, consume_line, ret. cbn [lines current_line]. rewrite Hn.
    rewrite app_nil_r. cbn [length]. do 2 f_equal. f_equal. lia.
  - cbn [forallb] in Hb. apply andb_true_iff in Hb as [Hb0 Hb].
    apply negb_true_iff in Hb0. unfold is_endcode in Hb0. rewrite Hb0.
    unfold bind, consume_line. cbn [lines current_line]. rewrite Hn.
    rewrite (IH endl rest ls (S cur) fuel (acc ++ [b]) Hs Hb He)
      by (cbn [length] in Hf; lia).
    rewrite <- app_assoc. cbn [app length]. do 2 f_equal. f_equal. lia.
Qed.

Lemma parse_code_block_loop_open : forall body ls cur fuel acc,
  skipn cur ls = body ->
  forallb (fun l => negb (is_endcode l)) body = true ->
  length body <= fuel ->
  _parse_code_block_loop fuel acc (mkTokenizer ls cur) =
  Ok (acc ++ body, mkTokenizer ls (cur + length body)).
Proof.
  induction body as [|b body IH]; intros ls cur fuel acc Hs Hb Hf.
  - apply skipn_nil_inv in Hs. apply Nat.ltb_ge in Hs.
    destruct fuel; cbn [_parse_code_block_loop]; unfold bind, has_more, ret;
      cbn [lines current_line]; rewrite Hs, app_nil_r; cbn [length];
      do 2 f_equal; f_equal; lia.
  - destruct fuel as [|fuel]; [inversion Hf|].
    apply skipn_cons_inv in Hs as (Hn & Hs & Hlt).
    cbn [_parse_code_block_loop]. unfold bind at 1, has_more.
    cbn [lines current_line]. apply Nat.ltb_lt in Hlt. rewrite Hlt.
    unfold bind at 1, peek_line. cbn [lines current_line]. rewrite Hn.
    cbn [forallb] in Hb. apply andb_true_iff in Hb as [Hb0 Hb].
    apply negb_true_iff in Hb0. unfold is_endcode in Hb0. rewrite Hb0.
    unfold bind, consume_line. cbn [lines current_line]. rewrite Hn.
    rewrite (IH ls (S cur) fuel (acc ++ [b]) Hs Hb)
      by (cbn [length] in Hf; lia).
    rewrite <- app_assoc. cbn [app length]. do 2 f_equal. f_equal. lia.
Qed.

(** X21.  A code block of ASCII lines is taken verbatim: from the line at
    the cursor on, [_parse_code_block] skips that line, keeps every line
    up to the first endcode: line as it stands, joined by newlines, and
    leaves the cursor after the endcode: line. *)
Theorem code_block_closed : forall tk first body endl rest,
  skipn (current_line tk) (lines tk) = first :: body ++ endl :: rest ->
  forallb ascii_text body = true -> ascii_text endl = true ->
  forallb (fun l => negb (is_endcode l)) body = true ->
  is_endcode endl = true ->
  _parse_code_block tk =
  Ok (CodeBlockNode (join LF body),
      mkTokenizer (lines tk) (current_line tk + length body + 2)).
Proof.
  intros [ls cur] first body endl rest Hs _ _ Hb He.
  cbn [lines current_line] in *.
  apply skipn_cons_inv in Hs as (Hn & Hs & Hlt).
  unfold _parse_code_block. unfold bind at 1, consume_line.
  cbn [lines current_line]. rewrite Hn. unfold bind, ret.
  assert (Hlen : length body < remaining (mkTokenizer ls (S cur))).
  { unfold remaining. cbn [lines current_line].
    rewrite <- (length_skipn (S cur) ls), Hs, length_app. cbn [length]. lia. }
  rewrite (parse_code_block_loop_closed body endl rest ls (S cur) _ []
             Hs Hb He Hlen).
  cbn [app]. do 2 f_equal. f_equal. lia.
Qed.

(** An instance: a block with an indented line, a blank line and a line
    that looks like a command, closed by an endcode: line in another
    case and between blanks. *)
Lemma code_block_closed_witness :
  skipn (current_line on_closed_code) (lines on_closed_code) =
    lit "code:" :: map lit ["  x = 1"; ""; "para: y"]
      ++ lit " EndCode: " :: [lit "para: z"]
  /\ forallb ascii_text (map lit ["  x = 1"; ""; "para: y"]) = true
  /\ ascii_text (lit " EndCode: ") = true
  /\ forallb (fun l => negb (is_endcode l))
       (map lit ["  x = 1"; ""; "para: y"]) = true
  /\ is_endcode (lit " EndCode: ") = true
  /\ _parse_code_block on_closed_code =
     Ok (CodeBlockNode (join LF (map lit ["  x = 1"; ""; "para: y"])),
         mkTokenizer (lines on_closed_code)
           (current_line on_closed_code
            + length (map lit ["  x = 1"; ""; "para: y"]) + 2)).
Proof.
  split; [reflexivity|]. split; [reflexivity|]. split; [reflexivity|].
  split; [reflexivity|]. split; [reflexivity|].
  apply (code_block_closed on_closed_code (lit "code:")
           (map lit ["  x = 1"; ""; "para: y"]) (lit " EndCode: ")
           [lit "para: z"]); reflexivity.
Defined.

(** X22.  A code block of ASCII lines that is never closed takes the rest
    of the file: every line after the one at the cursor, whatever it is,
    goes into the code, and the cursor is left at the end. *)
Theorem code_block_unclosed : forall tk first body,
  skipn (current_line tk) (lines tk) = first :: body ->
  forallb ascii_text body = true ->
  forallb (fun l => negb (is_endcode l)) body = true ->
  _parse_code_block tk =
  Ok (CodeBlockNode (join LF body),
      mkTokenizer (lines tk) (length (lines tk))).
Proof.
  intros [ls cur] first body Hs _ Hb. cbn [lines current_line] in *.
  apply skipn_cons_inv in Hs as (Hn & Hs & Hlt).
  unfold _parse_code_block. unfold bind at 1, consume_line.
  cbn [lines current_line]. rewrite Hn. unfold bind, ret.
  assert (Hlen : length body = length ls - S cur)
    by (now rewrite <- (length_skipn (S cur) ls), Hs).
  rewrite (parse_code_block_loop_open body ls (S cur) _ [] Hs Hb)
    by (unfold remaining; cbn [lines current_line]; lia).
  cbn [app]. do 2 f_equal. f_equal. lia.
Qed.

(** An instance: a block left open before the signature and the seal,
    which end up in the code. *)
Lemma code_block_unclosed_witness :
  skipn (current_line on_open_code) (lines on_open_code) =
    lit "code:" :: map lit ["x = 1"; "sign: SHA256-00"; "close:"]
  /\ forallb ascii_text (map lit ["x = 1"; "sign: SHA256-00"; "close:"])
     = true
  /\ forallb (fun l => negb (is_endcode l))
       (map lit ["x = 1"; "sign: SHA256-00"; "close:"]) = true
  /\ _parse_code_block on_open_code =
     Ok (CodeBlockNode
           (join LF (map lit ["x = 1"; "sign: SHA256-00"; "close:"])),
         mkTokenizer (lines on_open_code) (length (lines on_open_code))).
Proof.
  split; [reflexivity|]. split; [reflexivity|]. split; [reflexivity|].
  apply (code_block_unclosed on_open_code (lit "code:")
           (map lit ["x = 1"; "sign: SHA256-00"; "close:"])); reflexivity.
Defined.

(** ** Link texts *)

Lemma takewhile_app_all : forall p u c v,
  (forall x, In x u -> p x = true) -> p c = false ->
  takewhile p (u ++ c :: v) = u.
Proof.
  intros p. induction u as [|x u IH]; intros c v H Hc; cbn [app takewhile].
  - now rewrite Hc.
  - rewrite (H x (or_introl eq_refl)). f_equal.
    apply IH; [|exact Hc]. intros y Hy. apply H. now right.
Qed.

Lemma split_once_first : forall sep a b,
  contains_char sep a = false -> split_once sep (a ++ sep :: b) = (a, b).
Proof.
  intros sep a b H. unfold split_once.
  assert (Ha : forall x, In x a -> negb (Ascii.eqb x sep) = true).
  { intros x Hx. rewrite Ascii.eqb_sym.
    now rewrite (contains_char_false sep a H x Hx). }
  assert (Hs : negb (Ascii.eqb sep sep) = false)
    by (now rewrite Ascii.eqb_refl).
  rewrite (takewhile_app_all _ a sep b Ha Hs).
  rewrite (dropwhile_app_all _ a (sep :: b) Ha).
  cbn [dropwhile]. rewrite Hs. reflexivity.
Qed.

(** X23.  An ASCII linktxt: content without a pipe is cut at its first
    colon: what precedes it is the text and what follows the target, both
    trimmed.  A bare URL is so cut after its scheme. *)
Theorem link_text_without_pipe : forall a b,
  ascii_text a = true -> ascii_text b = true ->
  contains_char "|" (a ++ ":"%char :: b) = false ->
  contains_char ":" a = false ->
  _parse_link_text (a ++ ":"%char :: b) = LinkTextNode (strip a) (strip b).
Proof.
  intros a b _ _ Hp Hc. unfold _parse_link_text. rewrite Hp.
  assert (H : contains_char ":" (a ++ ":"%char :: b) = true).
  { rewrite contains_char_app, contains_char_cons.
    rewrite Ascii.eqb_refl. apply orb_true_r. }
  rewrite H. cbv zeta. now rewrite (split_once_first ":" a b Hc).
Qed.

(** An instance: a bare URL. *)
Lemma link_text_without_pipe_witness :
  ascii_text (lit " https") = true
  /\ ascii_text (lit "//example.com/x") = true
  /\ contains_char "|" (lit " https" ++ ":"%char :: lit "//example.com/x")
     = false
  /\ contains_char ":" (lit " https") = false
  /\ _parse_link_text (lit " https://example.com/x") =
     LinkTextNode (lit "https") (lit "//example.com/x").
Proof.
  split; [reflexivity|]. split; [reflexivity|]. split; [reflexivity|].
  split; [reflexivity|].
  apply (link_text_without_pipe (lit " https") (lit "//example.com/x"));
    reflexivity.
Defined.

(** * The renderer: inline formatting *)

Lemma plain_text_spec : forall t,
  plain_text t = true ->
  contains_char "{" t = false /\ contains_char "}" t = false
  /\ contains_char NUL t = false.
Proof.
  intros t H. unfold plain_text in H.
  apply andb_true_iff in H as [H H3]. apply andb_true_iff in H as [H1 H2].
  now rewrite negb_true_iff in H1, H2, H3.
Qed.

Lemma html_escape_plain : forall t,
  plain_text t = true ->
  contains_char "{" (html_escape t) = false
  /\ contains_char "}" (html_escape t) = false
  /\ contains_char NUL (html_escape t) = false.
Proof.
  intros t H. apply plain_text_spec in H as (H1 & H2 & H3).
  repeat split; now apply html_escape_keeps_absent.
Qed.

(** The passes of [_format_inline] after the escaping, on a text. *)
Lemma format_inline_passes_inert : forall e,
  contains_char "{" e = false -> contains_char NUL e = false ->
  replace RIGHTBRACE (lit "}")
    (replace LEFTBRACE (lit "{")
       (sub_color
          (sub_span (lit "{u:") (lit "<u>") (lit "</u>")
             (sub_span (lit "{italic:") (lit "<em>") (lit "</em>")
                (sub_span (lit "{i:") (lit "<em>") (lit "</em>")
                   (sub_span (lit "{bold:") (lit "<strong>") (lit "</strong>")
                      (sub_span (lit "{b:") (lit "<strong>") (lit "</strong>")
                         e))))))) = e.
Proof.
  intros e El En.
  assert (S3 : sub_span (lit "{b:") (lit "<strong>") (lit "</strong>") e = e)
    by exact (@sub_span_inert (lit "b:") _ _ e El).
  assert (S4 : sub_span (lit "{bold:") (lit "<strong>") (lit "</strong>") e
               = e)
    by exact (@sub_span_inert (lit "bold:") _ _ e El).
  assert (S5 : sub_span (lit "{i:") (lit "<em>") (lit "</em>") e = e)
    by exact (@sub_span_inert (lit "i:") _ _ e El).
  assert (S6 : sub_span (lit "{italic:") (lit "<em>") (lit "</em>") e = e)
    by exact (@sub_span_inert (lit "italic:") _ _ e El).
  assert (S7 : sub_span (lit "{u:") (lit "<u>") (lit "</u>") e = e)
    by exact (@sub_span_inert (lit "u:") _ _ e El).
  assert (S8 : replace LEFTBRACE (lit "{") e = e)
    by exact (@replace_inert NUL (lit "LEFTBRACE" ++ [NUL]) _ e En).
  assert (S9 : replace RIGHTBRACE (lit "}") e = e)
    by exact (@replace_inert NUL (lit "RIGHTBRACE" ++ [NUL]) _ e En).
  now rewrite S3, S4, S5, S6, S7, (@sub_color_inert e El), S8, S9.
Qed.

(** X24.  A text without braces and without NUL is only escaped by
    [_format_inline]. *)
Theorem plain_text_only_escaped : forall t,
  plain_text t = true -> _format_inline t = html_escape t.
Proof.
  intros t H. destruct (html_escape_plain t H) as (El & Er & En).
  unfold _format_inline. cbv zeta. set (e := html_escape t) in *.
  assert (S1 : replace (lit "{{") LEFTBRACE e = e)
    by exact (@replace_inert "{" (lit "{") LEFTBRACE e El).
  assert (S2 : replace (lit "}}") RIGHTBRACE e = e)
    by exact (@replace_inert "}" (lit "}") RIGHTBRACE e Er).
  rewrite S1, S2. now apply format_inline_passes_inert.
Qed.

(** An instance: a text with the five characters that are escaped. *)
Lemma plain_text_only_escaped_witness :
  plain_text (qlit "a < b & `c` > 'd'") = true
  /\ _format_inline (qlit "a < b & `c` > 'd'") =
     lit "a &lt; b &amp; &quot;c&quot; &gt; &#x27;d&#x27;".
Proof.
  split; [reflexivity|].
  apply (plain_text_only_escaped (qlit "a < b & `c` > 'd'")); reflexivity.
Defined.

(** ** Scans that match *)

Lemma rewrite_scan_prefix : forall m a b,
  (forall c r, In c a -> m (c :: r) = None) ->
  rewrite_scan m 0 (a ++ b) = a ++ rewrite_scan m 0 b.
Proof.
  intros m. induction a as [|x a IH]; intros b H; [reflexivity|].
  cbn [app]. rewrite rewrite_scan_here, (H x (a ++ b) (or_introl eq_refl)).
  f_equal. apply IH. intros c r Hc. apply H. now right.
Qed.

Lemma rewrite_scan_over : forall m w v k,
  k = length w -> rewrite_scan m k (w ++ v) = rewrite_scan m 0 v.
Proof.
  intros m. induction w as [|c w IH]; intros v k ->; [reflexivity|].
  cbn [length app]. rewrite rewrite_scan_skip. now apply IH.
Qed.

Lemma rewrite_scan_hit : forall m c u v out n,
  m (c :: u ++ v) = Some (out, n) -> n = S (length u) ->
  rewrite_scan m 0 (c :: u ++ v) = out ++ rewrite_scan m 0 v.
Proof.
  intros m c u v out n H ->. rewrite rewrite_scan_here, H. f_equal.
  now apply rewrite_scan_over.
Qed.

Lemma replace_prefix : forall c old new a b,
  contains_char c a = false ->
  replace (c :: old) new (a ++ b) = a ++ replace (c :: old) new b.
Proof.
  intros c old new a b H. unfold replace. apply rewrite_scan_prefix.
  intros x r Hx. cbn [startswith].
  now rewrite (contains_char_false _ _ H x Hx).
Qed.

Lemma replace_hit : forall c old new v,
  replace (c :: old) new ((c :: old) ++ v) = new ++ replace (c :: old) new v.
Proof.
  intros c old new v. unfold replace. cbn [app].
  apply (rewrite_scan_hit _ c old v new (length (c :: old)));
    [|reflexivity].
  change (c :: old ++ v) with ((c :: old) ++ v).
  now rewrite startswith_app.
Qed.

Lemma replace_miss : forall c old new x rest,
  startswith (c :: old) (x :: rest) = false ->
  contains_char c rest = false ->
  replace (c :: old) new (x :: rest) = x :: rest.
Proof.
  intros c old new x rest H Hr. unfold replace at 1.
  rewrite rewrite_scan_here, H. f_equal.
  exact (@replace_inert c old new rest Hr).
Qed.

Lemma skipn_exact : forall (A : Type) (a b : list A),
  skipn (length a) (a ++ b) = b.
Proof. intros A. induction a as [|x a IH]; intros b; [reflexivity | apply IH]. Qed.

Lemma span_match_hit : forall o E v,
  lower o = o ->
  contains_char "}" E = false -> contains_char LF E = false ->
  span_match o (o ++ E ++ "}"%char :: v) =
  Some (E, length o + length E + 1).
Proof.
  intros o E v Ho Hr Hn. unfold span_match.
  rewrite lower_app, Ho, startswith_app. cbv zeta. rewrite skipn_exact.
  assert (Hg : takewhile (fun c => not_char "}" c && not_char LF c)
                 (E ++ "}"%char :: v) = E).
  { apply takewhile_app_all; [|reflexivity].
    intros x Hx. unfold not_char.
    rewrite Ascii.eqb_sym, (contains_char_false _ _ Hr x Hx).
    rewrite Ascii.eqb_sym, (contains_char_false _ _ Hn x Hx). reflexivity. }
  rewrite Hg, skipn_exact. reflexivity.
Qed.

Lemma rewrite_scan_hit_all : forall m c u out n,
  m (c :: u) = Some (out, n) -> n = S (length u) ->
  rewrite_scan m 0 (c :: u) = out.
Proof.
  intros m c u out n H Hn.
  rewrite <- (app_nil_r u) at 1.
  rewrite (rewrite_scan_hit m c u [] out n); [apply app_nil_r | | exact Hn].
  now rewrite app_nil_r.
Qed.

Lemma sub_span_hit : forall o before after E,
  lower o = o ->
  contains_char "}" E = false -> contains_char LF E = false ->
  sub_span ("{"%char :: o) before after ("{"%char :: o ++ E ++ lit "}") =
  before ++ E ++ after.
Proof.
  intros o before after E Ho Hr Hn. unfold sub_span.
  apply (rewrite_scan_hit_all _ "{"%char (o ++ E ++ lit "}")
           (before ++ E ++ after) (length ("{"%char :: o) + length E + 1)).
  - change ("{"%char :: o ++ E ++ lit "}")
      with (("{"%char :: o) ++ E ++ "}"%char :: []).
    rewrite span_match_hit; [reflexivity | | exact Hr | exact Hn].
    change (lower ("{"%char :: o)) with (lower_char "{"%char :: lower o).
    now rewrite Ho.
  - rewrite !length_app. change (length (lit "}")) with 1.
    cbn [length]. lia.
Qed.

Lemma sub_span_other : forall o before after x rest,
  span_match ("{"%char :: o) (x :: rest) = None ->
  contains_char "{" rest = false ->
  sub_span ("{"%char :: o) before after (x :: rest) = x :: rest.
Proof.
  intros o before after x rest H Hr. unfold sub_span at 1.
  rewrite rewrite_scan_here, H. f_equal.
  exact (@sub_span_inert o before after rest Hr).
Qed.

Lemma sub_color_other : forall x rest,
  color_match (x :: rest) = None ->
  contains_char "{" rest = false ->
  sub_color (x :: rest) = x :: rest.
Proof.
  intros x rest H Hr. unfold sub_color at 1.
  rewrite rewrite_scan_here, H. f_equal.
  exact (@sub_color_inert rest Hr).
Qed.

(** ** Spans *)

(** One pass of [sub_span] over the text [T], a span around [e]: the
    pass of the span itself wraps [e], the others leave [T]. *)
Ltac span_pass T rest HT e Er Enl :=
  match goal with
  | |- context [sub_span ?o ?b ?a T] =>
      let P := fresh "P" in
      let k := eval cbv in (tl o) in
      first
        [ assert (P : sub_span o b a T = b ++ e ++ a)
            by exact (sub_span_hit k b a e eq_refl Er Enl)
        | assert (P : sub_span o b a T = T)
            by exact (sub_span_other k b a "{"%char rest eq_refl HT) ];
      rewrite P; clear P
  end.

(** One pass of [sub_span] over a text [W] without opening brace. *)
Ltac inert_pass W HW :=
  match goal with
  | |- context [sub_span ?o ?b ?a W] =>
      let P := fresh "P" in
      let k := eval cbv in (tl o) in
      assert (P : sub_span o b a W = W)
        by exact (@sub_span_inert k b a W HW);
      rewrite P; clear P
  end.

(** The passes of [_format_inline] over a span around the escaped text
    [e]: up to the pass of the span over the text as it is, from there on
    over the wrapped text. *)
Ltac span_passes e El Er En Enl Hrest Hpre Hout :=
  match goal with
  | |- context [html_escape ("{"%char :: ?key) ++ e ++ html_escape ?cl] =>
      change (html_escape ("{"%char :: key)) with ("{"%char :: key);
      change (html_escape cl) with (lit "}");
      let HT := fresh "HT" in
      let HP := fresh "HP" in
      let T := fresh "T" in
      let R1 := fresh "R" in
      let R2 := fresh "R" in
      pose proof (Hrest key eq_refl) as HT;
      pose proof (Hpre ("{"%char :: key) eq_refl) as HP;
      set (T := ("{"%char :: key) ++ e ++ lit "}");
      assert (R1 : replace (lit "{{") LEFTBRACE T = T)
        by exact (replace_miss "{" (lit "{") LEFTBRACE "{"
                    (key ++ e ++ lit "}") eq_refl HT);
      assert (R2 : replace (lit "}}") RIGHTBRACE T = T)
        by exact (replace_prefix "}" (lit "}") RIGHTBRACE
                    ("{"%char :: key ++ e) (lit "}") HP);
      rewrite R1, R2; clear R1 R2;
      repeat span_pass T (key ++ e ++ lit "}") HT e Er Enl
  end;
  match goal with
  | |- context [sub_color ?W] =>
      match W with
      | context [?b ++ e ++ ?a] =>
          let HW := fresh "HW" in
          let NW := fresh "NW" in
          let V := fresh "V" in
          let S8 := fresh "S" in
          let S9 := fresh "S" in
          pose proof (Hout "{"%char b a El eq_refl eq_refl) as HW;
          pose proof (Hout NUL b a En eq_refl eq_refl) as NW;
          set (V := b ++ e ++ a) in *;
          repeat inert_pass V HW;
          rewrite (@sub_color_inert V HW);
          assert (S8 : replace LEFTBRACE (lit "{") V = V)
            by exact (@replace_inert NUL (lit "LEFTBRACE" ++ [NUL]) _ V NW);
          assert (S9 : replace RIGHTBRACE (lit "}") V = V)
            by exact (@replace_inert NUL (lit "RIGHTBRACE" ++ [NUL]) _ V NW);
          rewrite S8, S9
      end
  end.

(** X25.  One of the five spans around a text without braces, NUL or line
    feed becomes the escaped text between the tags of the span. *)
Theorem span_is_wrapped : forall open before after t,
  In (open, (before, after)) span_tags ->
  plain_text t = true -> contains_char LF t = false ->
  _format_inline (open ++ t ++ lit "}") = before ++ html_escape t ++ after.
Proof.
  intros open before after t Hin Hp Hlf.
  destruct (html_escape_plain t Hp) as (El & Er & En).
  assert (Enl : contains_char LF (html_escape t) = false)
    by (now apply html_escape_keeps_absent).
  unfold _format_inline. cbv zeta. rewrite !html_escape_app.
  set (e := html_escape t) in *.
  assert (Hrest : forall key,
            contains_char "{" key = false ->
            contains_char "{" (key ++ e ++ lit "}") = false)
    by (intros key Hk; rewrite !contains_char_app, Hk, El; reflexivity).
  assert (Hpre : forall o,
            contains_char "}" o = false ->
            contains_char "}" (o ++ e) = false)
    by (intros o Hk; rewrite !contains_char_app, Hk, Er; reflexivity).
  assert (Hout : forall c b a,
            contains_char c e = false ->
            contains_char c b = false -> contains_char c a = false ->
            contains_char c (b ++ e ++ a) = false)
    by (intros c b a Hc Hb Ha; rewrite !contains_char_app, Hc, Hb, Ha;
        reflexivity).
  destruct Hin as [H|[H|[H|[H|[H|[]]]]]]; injection H as <- <- <-;
    span_passes e El Er En Enl Hrest Hpre Hout; reflexivity.
Qed.

(** An instance: an italic span around a text with an ampersand. *)
Lemma span_is_wrapped_witness :
  In (lit "{italic:", (lit "<em>", lit "</em>")) span_tags
  /\ plain_text (lit "R&D") = true
  /\ contains_char LF (lit "R&D") = false
  /\ _format_inline (lit "{italic:R&D}") = lit "<em>R&amp;D</em>".
Proof.
  split; [right; right; right; left; reflexivity|].
  split; [reflexivity|]. split; [reflexivity|].
  apply (span_is_wrapped (lit "{italic:") (lit "<em>") (lit "</em>")
           (lit "R&D")); [right; right; right; left| |]; reflexivity.
Defined.

(** ** Doubled braces *)

(** X26.  Doubled braces around a text without braces and without NUL give
    the escaped text between single braces. *)
Theorem doubled_braces_are_literal : forall t,
  plain_text t = true ->
  _format_inline (lit "{{" ++ t ++ lit "}}") =
  lit "{" ++ html_escape t ++ lit "}".
Proof.
  intros t Hp. destruct (html_escape_plain t Hp) as (El & Er & En).
  unfold _format_inline. cbv zeta. rewrite !html_escape_app.
  change (html_escape (lit "{{")) with (lit "{{").
  change (html_escape (lit "}}")) with (lit "}}").
  set (e := html_escape t) in *.
  assert (H1 : contains_char "{" (e ++ lit "}}") = false)
    by (rewrite contains_char_app, El; reflexivity).
  assert (R1 : replace (lit "{{") LEFTBRACE (lit "{{" ++ e ++ lit "}}") =
               LEFTBRACE ++ e ++ lit "}}")
    by exact (eq_trans
                (replace_hit "{" (lit "{") LEFTBRACE (e ++ lit "}}"))
                (f_equal (app LEFTBRACE)
                   (@replace_inert "{" (lit "{") LEFTBRACE (e ++ lit "}}")
                      H1))).
  assert (H2 : contains_char "}" (LEFTBRACE ++ e) = false)
    by (rewrite contains_char_app, Er; reflexivity).
  assert (R2 : replace (lit "}}") RIGHTBRACE (LEFTBRACE ++ e ++ lit "}}") =
               LEFTBRACE ++ e ++ RIGHTBRACE)
    by exact (replace_prefix "}" (lit "}") RIGHTBRACE (LEFTBRACE ++ e)
                (lit "}}") H2).
  rewrite R1, R2.
  assert (HW : contains_char "{" (LEFTBRACE ++ e ++ RIGHTBRACE) = false)
    by (rewrite !contains_char_app, El; reflexivity).
  set (W := LEFTBRACE ++ e ++ RIGHTBRACE) in *.
  assert (S3 : sub_span (lit "{b:") (lit "<strong>") (lit "</strong>") W = W)
    by exact (@sub_span_inert (lit "b:") _ _ W HW).
  assert (S4 : sub_span (lit "{bold:") (lit "<strong>") (lit "</strong>") W
               = W)
    by exact (@sub_span_inert (lit "bold:") _ _ W HW).
  assert (S5 : sub_span (lit "{i:") (lit "<em>") (lit "</em>") W = W)
    by exact (@sub_span_inert (lit "i:") _ _ W HW).
  assert (S6 : sub_span (lit "{italic:") (lit "<em>") (lit "</em>") W = W)
    by exact (@sub_span_inert (lit "italic:") _ _ W HW).
  assert (S7 : sub_span (lit "{u:") (lit "<u>") (lit "</u>") W = W)
    by exact (@sub_span_inert (lit "u:") _ _ W HW).
  rewrite S3, S4, S5, S6, S7, (@sub_color_inert W HW). subst W.
  assert (R8 : replace LEFTBRACE (lit "{") (LEFTBRACE ++ e ++ RIGHTBRACE) =
               lit "{" ++ e ++ RIGHTBRACE)
    by exact (eq_trans
                (replace_hit NUL (lit "LEFTBRACE" ++ [NUL]) (lit "{")
                   (e ++ RIGHTBRACE))
                (f_equal (app (lit "{"))
                   (replace_prefix NUL (lit "LEFTBRACE" ++ [NUL]) (lit "{")
                      e RIGHTBRACE En))).
  assert (H9 : contains_char NUL (lit "{" ++ e) = false)
    by (rewrite contains_char_app, En; reflexivity).
  assert (R9 : replace RIGHTBRACE (lit "}") (lit "{" ++ e ++ RIGHTBRACE) =
               lit "{" ++ e ++ lit "}")
    by exact (replace_prefix NUL (lit "RIGHTBRACE" ++ [NUL]) (lit "}")
                (lit "{" ++ e) RIGHTBRACE H9).
  now rewrite R8, R9.
Qed.

(** An instance: a text that would be a span between single braces. *)
Lemma doubled_braces_are_literal_witness :
  plain_text (lit "b:not bold") = true
  /\ _format_inline (lit "{{b:not bold}}") = lit "{b:not bold}".
Proof.
  split; [reflexivity|].
  apply (doubled_braces_are_literal (lit "b:not bold")); reflexivity.
Defined.

(** ** Colours *)

Lemma color_match_hit : forall g1 g2 v,
  g1 <> [] -> contains_char ":" g1 = false ->
  contains_char "}" g2 = false -> contains_char LF g2 = false ->
  color_match (lit "{color=" ++ g1 ++ ":"%char :: g2 ++ "}"%char :: v) =
  Some (g1, g2, 7 + length g1 + 1 + length g2 + 1).
Proof.
  intros g1 g2 v Hne Hc Hr Hn. unfold color_match.
  rewrite lower_app.
  change (lower (lit "{color=")) with (lit "{color=").
  rewrite startswith_app. cbv zeta.
  change (skipn 7 (lit "{color=" ++ g1 ++ ":"%char :: g2 ++ "}"%char :: v))
    with (g1 ++ ":"%char :: g2 ++ "}"%char :: v).
  assert (Ha : forall x, In x g1 -> not_char ":" x = true).
  { intros x Hx. unfold not_char.
    now rewrite Ascii.eqb_sym, (contains_char_false _ _ Hc x Hx). }
  rewrite (takewhile_app_all _ g1 ":"%char (g2 ++ "}"%char :: v) Ha eq_refl).
  rewrite (dropwhile_app_all _ g1 (":"%char :: g2 ++ "}"%char :: v) Ha).
  cbn [dropwhile]. change (not_char ":" ":") with false. cbv iota.
  destruct g1 as [|a g1]; [congruence|].
  assert (Hg : takewhile (fun c => not_char "}" c && not_char LF c)
                 (g2 ++ "}"%char :: v) = g2).
  { apply takewhile_app_all; [|reflexivity].
    intros x Hx. unfold not_char.
    rewrite Ascii.eqb_sym, (contains_char_false _ _ Hr x Hx).
    rewrite Ascii.eqb_sym, (contains_char_false _ _ Hn x Hx). reflexivity. }
  rewrite Hg, skipn_exact. reflexivity.
Qed.

Lemma sub_color_hit : forall g1 g2,
  g1 <> [] -> contains_char ":" g1 = false ->
  contains_char "}" g2 = false -> contains_char LF g2 = false ->
  sub_color (lit "{color=" ++ g1 ++ lit ":" ++ g2 ++ lit "}") =
  qlit "<span style=`color: " ++ html_escape g1 ++ qlit "`>" ++ g2
    ++ lit "</span>".
Proof.
  intros g1 g2 Hne Hc Hr Hn. unfold sub_color.
  apply (rewrite_scan_hit_all _ "{"%char
           (lit "color=" ++ g1 ++ lit ":" ++ g2 ++ lit "}")
           _ (7 + length g1 + 1 + length g2 + 1)).
  - change ("{"%char :: lit "color=" ++ g1 ++ lit ":" ++ g2 ++ lit "}")
      with (lit "{color=" ++ g1 ++ ":"%char :: g2 ++ "}"%char :: []).
    now rewrite color_match_hit.
  - change (lit "color=" ++ g1 ++ lit ":" ++ g2 ++ lit "}")
      with ("c"%char :: "o"%char :: "l"%char :: "o"%char :: "r"%char
              :: "="%char :: g1 ++ ":"%char :: g2 ++ ["}"%char]).
    cbn [length]. rewrite length_app. cbn [length]. rewrite length_app.
    cbn [length]. lia.
Qed.

Lemma html_escape_not_nil : forall s, s <> [] -> html_escape s <> [].
Proof.
  intros [|c s] H; [congruence|]. rewrite html_escape_flat_map.
  cbn [flat_map].
  repeat match goal with
         | |- context [if ?b then _ else _] => destruct b
         end; discriminate.
Qed.

(** X27.  A colour span around a text without braces, NUL or line feed
    becomes a [span] element with the colour in its style and the escaped
    text inside; the colour, already escaped with the whole text, is
    escaped a second time. *)
Theorem colour_is_escaped_twice : forall c t,
  c <> [] -> contains_char ":" c = false -> plain_text c = true ->
  plain_text t = true -> contains_char LF t = false ->
  _format_inline (lit "{color=" ++ c ++ lit ":" ++ t ++ lit "}") =
  qlit "<span style=`color: " ++ html_escape (html_escape c) ++ qlit "`>"
    ++ html_escape t ++ lit "</span>".
Proof.
  intros c t Hne Hcc Hpc Hp Hlf.
  destruct (html_escape_plain t Hp) as (El & Er & En).
  destruct (html_escape_plain c Hpc) as (Cl & Cr & Cn).
  assert (Enl : contains_char LF (html_escape t) = false)
    by (now apply html_escape_keeps_absent).
  assert (Cc : contains_char ":" (html_escape c) = false)
    by (now apply html_escape_keeps_absent).
  assert (Cne : html_escape c <> []) by (now apply html_escape_not_nil).
  assert (Dn : contains_char NUL (html_escape (html_escape c)) = false)
    by (now apply html_escape_keeps_absent).
  unfold _format_inline. cbv zeta. rewrite !html_escape_app.
  change (html_escape (lit "{color=")) with (lit "{color=").
  change (html_escape (lit ":")) with (lit ":").
  change (html_escape (lit "}")) with (lit "}").
  set (e := html_escape t) in *. set (k := html_escape c) in *.
  set (d := html_escape k) in *.
  assert (HT : contains_char "{" (lit "color=" ++ k ++ lit ":" ++ e ++ lit "}")
               = false)
    by (rewrite !contains_char_app, Cl, El; reflexivity).
  assert (H1 : contains_char "}" (lit "{color=" ++ k) = false)
    by (rewrite !contains_char_app, Cr; reflexivity).
  assert (H2 : contains_char "}" (lit ":" ++ e) = false)
    by (rewrite !contains_char_app, Er; reflexivity).
  set (T := lit "{color=" ++ k ++ lit ":" ++ e ++ lit "}").
  assert (R1 : replace (lit "{{") LEFTBRACE T = T)
    by exact (replace_miss "{" (lit "{") LEFTBRACE "{"
                (lit "color=" ++ k ++ lit ":" ++ e ++ lit "}") eq_refl HT).
  assert (R2 : replace (lit "}}") RIGHTBRACE T = T)
    by exact (eq_trans
                (replace_prefix "}" (lit "}") RIGHTBRACE (lit "{color=" ++ k)
                   (lit ":" ++ e ++ lit "}") H1)
                (f_equal (app (lit "{color=" ++ k))
                   (replace_prefix "}" (lit "}") RIGHTBRACE (lit ":" ++ e)
                      (lit "}") H2))).
  assert (P0 : sub_span (lit "{b:") (lit "<strong>") (lit "</strong>") T = T)
    by exact (sub_span_other (lit "b:") _ _ "{"
                (lit "color=" ++ k ++ lit ":" ++ e ++ lit "}") eq_refl HT).
  assert (P1 : sub_span (lit "{bold:") (lit "<strong>") (lit "</strong>") T
               = T)
    by exact (sub_span_other (lit "bold:") _ _ "{"
                (lit "color=" ++ k ++ lit ":" ++ e ++ lit "}") eq_refl HT).
  assert (P2 : sub_span (lit "{i:") (lit "<em>") (lit "</em>") T = T)
    by exact (sub_span_other (lit "i:") _ _ "{"
                (lit "color=" ++ k ++ lit ":" ++ e ++ lit "}") eq_refl HT).
  assert (P3 : sub_span (lit "{italic:") (lit "<em>") (lit "</em>") T = T)
    by exact (sub_span_other (lit "italic:") _ _ "{"
                (lit "color=" ++ k ++ lit ":" ++ e ++ lit "}") eq_refl HT).
  assert (P4 : sub_span (lit "{u:") (lit "<u>") (lit "</u>") T = T)
    by exact (sub_span_other (lit "u:") _ _ "{"
                (lit "color=" ++ k ++ lit ":" ++ e ++ lit "}") eq_refl HT).
  rewrite R1, R2, P0, P1, P2, P3, P4. subst T.
  rewrite (sub_color_hit k e Cne Cc Er Enl). fold d.
  assert (NW : contains_char NUL
                 (qlit "<span style=`color: " ++ d ++ qlit "`>" ++ e
                    ++ lit "</span>") = false)
    by (rewrite !contains_char_app, Dn, En; reflexivity).
  set (W := qlit "<span style=`color: " ++ d ++ qlit "`>" ++ e
              ++ lit "</span>") in *.
  assert (S8 : replace LEFTBRACE (lit "{") W = W)
    by exact (@replace_inert NUL (lit "LEFTBRACE" ++ [NUL]) _ W NW).
  assert (S9 : replace RIGHTBRACE (lit "}") W = W)
    by exact (@replace_inert NUL (lit "RIGHTBRACE" ++ [NUL]) _ W NW).
  now rewrite S8, S9.
Qed.

(** An instance: a colour with an ampersand. *)
Lemma colour_is_escaped_twice_witness :
  lit "a&b" <> []
  /\ contains_char ":" (lit "a&b") = false
  /\ plain_text (lit "a&b") = true
  /\ plain_text (lit "x < y") = true
  /\ contains_char LF (lit "x < y") = false
  /\ _format_inline (lit "{color=a&b:x < y}") =
     qlit "<span style=`color: a&amp;amp;b`>x &lt; y</span>".
Proof.
  split; [discriminate|]. split; [reflexivity|]. split; [reflexivity|].
  split; [reflexivity|]. split; [reflexivity|].
  apply (colour_is_escaped_twice (lit "a&b") (lit "x < y"));
    first [discriminate | reflexivity].
Defined.
